(** * ScanADC: the interrupt-driven ADC channel scanner

    A shallow embedding of [src/ScanADC.cpp] and [src/ScanADC.h]: the
    conversion-complete interrupt service routine [ISR(ADC_vect)], the
    lifecycle operations [begin] and [end], the two [attach_*] operations and
    the accessors [get_sn] and [get_sample].

    Integers are [Z] with the wrap-around of their C++ type written out
    ([u8], [u16], [u32]); the arrays [config], [sn] and [sample] are lists
    indexed with stdpp's lookup and insert; every operation runs in a small
    monad that threads the machine, records the memory events the
    properties talk about, and stops with [UB] at an access outside an
    array. *)

From Stdlib Require Import ZArith Lia List Bool.
From stdpp Require Import base list.
Import ListNotations.
Local Open Scope Z_scope.

(** ** Fixed-width integers *)

Definition u8 (x : Z) : Z := x mod 2 ^ 8.
Definition u16 (x : Z) : Z := x mod 2 ^ 16.
Definition u32 (x : Z) : Z := x mod 2 ^ 32.

(** ** The device header

    The bit positions of the ADC registers come from [<avr/io.h>], which is
    not part of the repository: they are a parameter of the development.
    [atmega32u4] gives the positions of the device the library was
    prototyped on, for evaluating the model on concrete inputs. *)

Class AvrIo := {
  MUX5 : Z; REFS0 : Z; ADLAR : Z;
  ADPS0 : Z; ADPS1 : Z; ADPS2 : Z;
  ADIE : Z; ADATE : Z; ADSC : Z; ADEN : Z
}.

Definition atmega32u4 : AvrIo :=
  {| MUX5 := 5; REFS0 := 6; ADLAR := 5;
     ADPS0 := 0; ADPS1 := 1; ADPS2 := 2;
     ADIE := 3; ADATE := 5; ADSC := 6; ADEN := 7 |}.

(** ** Data model *)

(** [struct channel_config_t]: [mux] is the hardware selector,
    [sample_count_log2] the 4-bit field [uint8_t sample_count_log2:4]. *)
Record channel_config_t := mkConfig {
  mux : Z;
  sample_count_log2 : Z
}.

(** What the 4-bit field can hold. *)
Definition config_ok (c : channel_config_t) : Prop :=
  0 <= sample_count_log2 c <= 15.

(** User functions are known by their address only; [None] is [NULL]. *)
Definition channel_callback_t := nat.
Definition channel_scan_callback_t := nat.

Inductive isr_state_t :=
| ISR_STATE_INIT
| ISR_STATE_DELAY
| ISR_STATE_ACCUMULATE.

(** The ADC registers the code writes, the global interrupt flag, and the
    members of the singleton [ScanADC] object.  [config], [sn] and [sample]
    are carved out of one [malloc] block: [config = None] is the null
    pointer, and once [end] has released the block [sn] and [sample] dangle,
    which the model renders as empty arrays (every access is out of
    range). *)
Record machine := mkMachine {
  ADCSRA : Z;
  ADCSRB : Z;
  ADMUX : Z;
  SREG_I : bool;
  chan_count : Z;
  channel_cb : option channel_callback_t;
  channel_scan_cb : option channel_scan_callback_t;
  state : isr_state_t;
  chan_i : Z;
  sample_cnt : Z;
  sample_cnt_target : Z;
  sample_accumulator : Z;
  config : option (list channel_config_t);
  sn : list Z;
  sample : list Z
}.

(** ** Member updates *)

Definition set_ADCSRA (v : Z) (m : machine) : machine :=
  {| ADCSRA := v; ADCSRB := ADCSRB m; ADMUX := ADMUX m; SREG_I := SREG_I m;
     chan_count := chan_count m; channel_cb := channel_cb m;
     channel_scan_cb := channel_scan_cb m; state := state m; chan_i := chan_i m;
     sample_cnt := sample_cnt m; sample_cnt_target := sample_cnt_target m;
     sample_accumulator := sample_accumulator m; config := config m; sn := sn m;
     sample := sample m |}.

Definition set_ADCSRB (v : Z) (m : machine) : machine :=
  {| ADCSRA := ADCSRA m; ADCSRB := v; ADMUX := ADMUX m; SREG_I := SREG_I m;
     chan_count := chan_count m; channel_cb := channel_cb m;
     channel_scan_cb := channel_scan_cb m; state := state m; chan_i := chan_i m;
     sample_cnt := sample_cnt m; sample_cnt_target := sample_cnt_target m;
     sample_accumulator := sample_accumulator m; config := config m; sn := sn m;
     sample := sample m |}.

Definition set_ADMUX (v : Z) (m : machine) : machine :=
  {| ADCSRA := ADCSRA m; ADCSRB := ADCSRB m; ADMUX := v; SREG_I := SREG_I m;
     chan_count := chan_count m; channel_cb := channel_cb m;
     channel_scan_cb := channel_scan_cb m; state := state m; chan_i := chan_i m;
     sample_cnt := sample_cnt m; sample_cnt_target := sample_cnt_target m;
     sample_accumulator := sample_accumulator m; config := config m; sn := sn m;
     sample := sample m |}.

Definition set_SREG_I (v : bool) (m : machine) : machine :=
  {| ADCSRA := ADCSRA m; ADCSRB := ADCSRB m; ADMUX := ADMUX m; SREG_I := v;
     chan_count := chan_count m; channel_cb := channel_cb m;
     channel_scan_cb := channel_scan_cb m; state := state m; chan_i := chan_i m;
     sample_cnt := sample_cnt m; sample_cnt_target := sample_cnt_target m;
     sample_accumulator := sample_accumulator m; config := config m; sn := sn m;
     sample := sample m |}.

Definition set_chan_count (v : Z) (m : machine) : machine :=
  {| ADCSRA := ADCSRA m; ADCSRB := ADCSRB m; ADMUX := ADMUX m; SREG_I := SREG_I m;
     chan_count := v; channel_cb := channel_cb m; channel_scan_cb := channel_scan_cb m;
     state := state m; chan_i := chan_i m; sample_cnt := sample_cnt m;
     sample_cnt_target := sample_cnt_target m; sample_accumulator := sample_accumulator m;
     config := config m; sn := sn m; sample := sample m |}.

Definition set_channel_cb (v : option channel_callback_t) (m : machine) : machine :=
  {| ADCSRA := ADCSRA m; ADCSRB := ADCSRB m; ADMUX := ADMUX m; SREG_I := SREG_I m;
     chan_count := chan_count m; channel_cb := v; channel_scan_cb := channel_scan_cb m;
     state := state m; chan_i := chan_i m; sample_cnt := sample_cnt m;
     sample_cnt_target := sample_cnt_target m; sample_accumulator := sample_accumulator m;
     config := config m; sn := sn m; sample := sample m |}.

Definition set_channel_scan_cb (v : option channel_scan_callback_t) (m : machine) : machine :=
  {| ADCSRA := ADCSRA m; ADCSRB := ADCSRB m; ADMUX := ADMUX m; SREG_I := SREG_I m;
     chan_count := chan_count m; channel_cb := channel_cb m; channel_scan_cb := v;
     state := state m; chan_i := chan_i m; sample_cnt := sample_cnt m;
     sample_cnt_target := sample_cnt_target m; sample_accumulator := sample_accumulator m;
     config := config m; sn := sn m; sample := sample m |}.

Definition set_state (v : isr_state_t) (m : machine) : machine :=
  {| ADCSRA := ADCSRA m; ADCSRB := ADCSRB m; ADMUX := ADMUX m; SREG_I := SREG_I m;
     chan_count := chan_count m; channel_cb := channel_cb m;
     channel_scan_cb := channel_scan_cb m; state := v; chan_i := chan_i m;
     sample_cnt := sample_cnt m; sample_cnt_target := sample_cnt_target m;
     sample_accumulator := sample_accumulator m; config := config m; sn := sn m;
     sample := sample m |}.

Definition set_chan_i (v : Z) (m : machine) : machine :=
  {| ADCSRA := ADCSRA m; ADCSRB := ADCSRB m; ADMUX := ADMUX m; SREG_I := SREG_I m;
     chan_count := chan_count m; channel_cb := channel_cb m;
     channel_scan_cb := channel_scan_cb m; state := state m; chan_i := v;
     sample_cnt := sample_cnt m; sample_cnt_target := sample_cnt_target m;
     sample_accumulator := sample_accumulator m; config := config m; sn := sn m;
     sample := sample m |}.

Definition set_sample_cnt (v : Z) (m : machine) : machine :=
  {| ADCSRA := ADCSRA m; ADCSRB := ADCSRB m; ADMUX := ADMUX m; SREG_I := SREG_I m;
     chan_count := chan_count m; channel_cb := channel_cb m;
     channel_scan_cb := channel_scan_cb m; state := state m; chan_i := chan_i m;
     sample_cnt := v; sample_cnt_target := sample_cnt_target m;
     sample_accumulator := sample_accumulator m; config := config m; sn := sn m;
     sample := sample m |}.

Definition set_sample_cnt_target (v : Z) (m : machine) : machine :=
  {| ADCSRA := ADCSRA m; ADCSRB := ADCSRB m; ADMUX := ADMUX m; SREG_I := SREG_I m;
     chan_count := chan_count m; channel_cb := channel_cb m;
     channel_scan_cb := channel_scan_cb m; state := state m; chan_i := chan_i m;
     sample_cnt := sample_cnt m; sample_cnt_target := v;
     sample_accumulator := sample_accumulator m; config := config m; sn := sn m;
     sample := sample m |}.

Definition set_sample_accumulator (v : Z) (m : machine) : machine :=
  {| ADCSRA := ADCSRA m; ADCSRB := ADCSRB m; ADMUX := ADMUX m; SREG_I := SREG_I m;
     chan_count := chan_count m; channel_cb := channel_cb m;
     channel_scan_cb := channel_scan_cb m; state := state m; chan_i := chan_i m;
     sample_cnt := sample_cnt m; sample_cnt_target := sample_cnt_target m;
     sample_accumulator := v; config := config m; sn := sn m; sample := sample m |}.

Definition set_config (v : option (list channel_config_t)) (m : machine) : machine :=
  {| ADCSRA := ADCSRA m; ADCSRB := ADCSRB m; ADMUX := ADMUX m; SREG_I := SREG_I m;
     chan_count := chan_count m; channel_cb := channel_cb m;
     channel_scan_cb := channel_scan_cb m; state := state m; chan_i := chan_i m;
     sample_cnt := sample_cnt m; sample_cnt_target := sample_cnt_target m;
     sample_accumulator := sample_accumulator m; config := v; sn := sn m; sample := sample m |}.

Definition set_sn (v : list Z) (m : machine) : machine :=
  {| ADCSRA := ADCSRA m; ADCSRB := ADCSRB m; ADMUX := ADMUX m; SREG_I := SREG_I m;
     chan_count := chan_count m; channel_cb := channel_cb m;
     channel_scan_cb := channel_scan_cb m; state := state m; chan_i := chan_i m;
     sample_cnt := sample_cnt m; sample_cnt_target := sample_cnt_target m;
     sample_accumulator := sample_accumulator m; config := config m; sn := v;
     sample := sample m |}.

Definition set_sample (v : list Z) (m : machine) : machine :=
  {| ADCSRA := ADCSRA m; ADCSRB := ADCSRB m; ADMUX := ADMUX m; SREG_I := SREG_I m;
     chan_count := chan_count m; channel_cb := channel_cb m;
     channel_scan_cb := channel_scan_cb m; state := state m; chan_i := chan_i m;
     sample_cnt := sample_cnt m; sample_cnt_target := sample_cnt_target m;
     sample_accumulator := sample_accumulator m; config := config m; sn := sn m; sample := v |}.

(** ** Events and the execution monad *)

(** The memory events the properties are about, in program order. *)
Inductive event :=
| EvConfig (i : Z)                 (* config[i] is read *)
| EvSample (i v : Z)               (* sample[i] = v *)
| EvSn (i v : Z)                   (* sn[i] = v *)
| EvChanI (v : Z)                  (* chan_i = v *)
| EvADCSRA (v : Z)                 (* ADCSRA = v *)
| EvChannelCb (f : channel_callback_t) (channel value : Z)
| EvScanCb (f : channel_scan_callback_t) (samples : list Z).

(** A run either returns, with the final machine and the events it made, or
    hits undefined behaviour after the events made so far. *)
Inductive result (A : Type) :=
| Ok (a : A) (m : machine) (tr : list event)
| UB (tr : list event).
Arguments Ok {A} a m tr.
Arguments UB {A} tr.

Definition M (A : Type) : Type := machine -> result A.

#[global] Instance M_ret : MRet M := fun A a m => Ok a m [].
#[global] Instance M_bind : MBind M := fun A B f x m =>
  match x m with
  | Ok a m1 t1 =>
      match f a m1 with
      | Ok b m2 t2 => Ok b m2 (t1 ++ t2)
      | UB t2 => UB (t1 ++ t2)
      end
  | UB t1 => UB t1
  end.

Definition gets {A} (f : machine -> A) : M A := fun m => Ok (f m) m [].
Definition modify (f : machine -> machine) : M unit := fun m => Ok tt (f m) [].
Definition emit (e : event) : M unit := fun m => Ok tt m [e].
Definition undefined {A} : M A := fun _ => UB [].

(** [config[i]], [sn[i]], [sample[i]]: reads and writes of the three arrays. *)
Definition config_at (i : Z) : M channel_config_t :=
  emit (EvConfig i);;
  p ← gets config;
  match p with
  | Some cfg =>
      match cfg !! Z.to_nat i with
      | Some c => mret c
      | None => undefined
      end
  | None => undefined
  end.

Definition load_sn (i : Z) : M Z :=
  a ← gets sn;
  match a !! Z.to_nat i with
  | Some v => mret v
  | None => undefined
  end.

Definition store_sn (i v : Z) : M unit :=
  a ← gets sn;
  if decide (Z.to_nat i < length a)%nat
  then emit (EvSn i v);; modify (set_sn (<[Z.to_nat i := v]> a))
  else undefined.

Definition load_sample (i : Z) : M Z :=
  a ← gets sample;
  match a !! Z.to_nat i with
  | Some v => mret v
  | None => undefined
  end.

Definition store_sample (i v : Z) : M unit :=
  a ← gets sample;
  if decide (Z.to_nat i < length a)%nat
  then emit (EvSample i v);; modify (set_sample (<[Z.to_nat i := v]> a))
  else undefined.

Definition put_chan_i (v : Z) : M unit :=
  emit (EvChanI v);; modify (set_chan_i v).

Definition put_ADCSRA (v : Z) : M unit :=
  emit (EvADCSRA v);; modify (set_ADCSRA v).

(** ** The operations of [ScanADC.cpp] *)

Section Operations.

Context {io : AvrIo}.

(** The conversion result [(uint16_t)((high << 8) | low)]. *)
Definition raw_of (low high : Z) : Z := u16 (Z.lor (Z.shiftl high 8) low).

(** [ISR(ADC_vect)], entered with the data registers holding [ADCL] and
    [ADCH]. *)
Definition ISR (ADCL ADCH : Z) : M unit :=
  st ← gets state;
  match st with
  | ISR_STATE_INIT =>
      i ← gets chan_i;
      c ← config_at i;
      let mux := u8 (mux c) in
      b ← gets ADCSRB;
      modify (set_ADCSRB
        (u8 (Z.lor (Z.land b (Z.lnot (Z.shiftl 1 MUX5)))
                   (if Z.land mux 32 =? 0 then 0 else Z.shiftl 1 MUX5))));;
      a ← gets ADMUX;
      modify (set_ADMUX (u8 (Z.lor (Z.land a 224) (Z.land mux 31))));;
      modify (set_sample_accumulator 0);;
      modify (set_sample_cnt 0);;
      modify (set_sample_cnt_target 1);;
      i ← gets chan_i;
      c ← config_at i;
      t ← gets sample_cnt_target;
      modify (set_sample_cnt_target (u16 (Z.shiftl t (sample_count_log2 c))));;
      modify (set_state ISR_STATE_DELAY)
  | ISR_STATE_DELAY =>
      modify (set_state ISR_STATE_ACCUMULATE)
  | ISR_STATE_ACCUMULATE =>
      acc ← gets sample_accumulator;
      let low := ADCL in
      let high := ADCH in
      let accumulator := u32 (acc + raw_of low high) in
      cnt ← gets sample_cnt;
      modify (set_sample_cnt (u16 (cnt + 1)));;
      cnt ← gets sample_cnt;
      target ← gets sample_cnt_target;
      if cnt =? target then
        i ← gets chan_i;
        c ← config_at i;
        let samples_log2 := sample_count_log2 c in
        target ← gets sample_cnt_target;
        let accumulator :=
          if samples_log2 =? 0 then accumulator
          else Z.shiftr (u32 (accumulator + Z.shiftr target 1)) samples_log2 in
        i ← gets chan_i;
        store_sample i (u16 accumulator);;
        i ← gets chan_i;
        s ← load_sn i;
        store_sn i (u8 (s + 1));;
        cb ← gets channel_cb;
        match cb with
        | Some f => i ← gets chan_i; emit (EvChannelCb f i (u16 accumulator))
        | None => mret tt
        end;;
        i ← gets chan_i;
        put_chan_i (u8 (i + 1));;
        i ← gets chan_i;
        n ← gets chan_count;
        (if i =? n then
           scb ← gets channel_scan_cb;
           match scb with
           | Some g => a ← gets sample; emit (EvScanCb g a)
           | None => mret tt
           end;;
           put_chan_i 0
         else mret tt);;
        modify (set_state ISR_STATE_INIT)
      else
        modify (set_sample_accumulator accumulator)
  end.

(** [ScanADC::end]. *)
Definition end_ : M unit :=
  put_ADCSRA 0;;
  p ← gets config;
  match p with
  | Some _ =>
      modify (set_sn []);; modify (set_sample []);; modify (set_config None)
  | None => mret tt
  end.

(** The entry [memset] leaves in a fresh block. *)
Definition zero_config : channel_config_t := mkConfig 0 0.

(** [ScanADC::begin].  [channel_config] is the caller's array and
    [channel_count] the [uint8_t] count; [malloc] is taken to succeed. *)
Definition begin (channel_config : list channel_config_t) (channel_count : Z)
  : M unit :=
  end_;;
  modify (set_ADCSRB 0);;
  let n := Z.to_nat channel_count in
  (* malloc, memset, and the three pointers into the block *)
  modify (set_config (Some (replicate n zero_config)));;
  modify (set_sn (replicate n 0));;
  modify (set_sample (replicate n 0));;
  (* memcpy(config, channel_config, config_size) *)
  (if decide (n <= length channel_config)%nat
   then modify (set_config (Some (take n channel_config)))
   else undefined);;
  modify (set_chan_count channel_count);;
  modify (set_state ISR_STATE_INIT);;
  put_chan_i 0;;
  c ← config_at 0;
  modify (set_ADMUX
    (u8 (Z.lor (Z.lor (Z.shiftl 1 REFS0) (Z.shiftl 0 ADLAR)) (mux c))));;
  put_ADCSRA
    (u8 (Z.lor (Z.lor (Z.lor (Z.lor (Z.lor (Z.shiftl 1 ADPS2) (Z.shiftl 0 ADPS1))
                                    (Z.shiftl 0 ADPS0))
                             (Z.shiftl 1 ADEN))
                      (Z.shiftl 1 ADATE))
               (Z.shiftl 1 ADIE)));;
  a ← gets ADCSRA;
  put_ADCSRA (u8 (Z.lor a (Z.shiftl 1 ADSC)));;
  modify (set_SREG_I true).

(** [ScanADC::attach_channel_callback]. *)
Definition attach_channel_callback (cb : option channel_callback_t) : M unit :=
  old_ADCSRA ← gets ADCSRA;
  a ← gets ADCSRA;
  put_ADCSRA (u8 (Z.land a (Z.lnot (Z.shiftl 1 ADIE))));;
  modify (set_channel_cb cb);;
  put_ADCSRA old_ADCSRA.

(** [ScanADC::attach_scan_callback]. *)
Definition attach_scan_callback (cb : option channel_scan_callback_t) : M unit :=
  old_ADCSRA ← gets ADCSRA;
  a ← gets ADCSRA;
  put_ADCSRA (u8 (Z.land a (Z.lnot (Z.shiftl 1 ADIE))));;
  modify (set_channel_scan_cb cb);;
  put_ADCSRA old_ADCSRA.

(** [ScanADC::get_sn]. *)
Definition get_sn (channel : Z) : M Z := load_sn channel.

(** [ScanADC::get_sample]. *)
Definition get_sample (channel : Z) : M Z :=
  old_ADCSRA ← gets ADCSRA;
  a ← gets ADCSRA;
  put_ADCSRA (u8 (Z.land a (Z.lnot (Z.shiftl 1 ADIE))));;
  s ← load_sample channel;
  put_ADCSRA old_ADCSRA;;
  mret s.

(** The object as static initialisation and the constructor leave it, with
    the registers at their reset value. *)
Definition ScanADC : machine :=
  {| ADCSRA := 0; ADCSRB := 0; ADMUX := 0; SREG_I := false;
     chan_count := 0; channel_cb := None; channel_scan_cb := None;
     state := ISR_STATE_INIT; chan_i := 0;
     sample_cnt := 0; sample_cnt_target := 0; sample_accumulator := 0;
     config := None; sn := []; sample := [] |}.

(** A run of conversion-complete events, each with its data registers. *)
Fixpoint run (evs : list (Z * Z)) : M unit :=
  match evs with
  | [] => mret tt
  | (l, h) :: evs' => ISR l h;; run evs'
  end.

End Operations.

(** ** Vocabulary for the handler's cases *)

Section HandlerVocabulary.

Context {io : AvrIo}.

(** The average the handler computes from the 32-bit sum [acc] of a
    window. *)
Definition average (c : channel_config_t) (target acc : Z) : Z :=
  if sample_count_log2 c =? 0 then acc
  else Z.shiftr (u32 (acc + Z.shiftr target 1)) (sample_count_log2 c).

(** Index after the pre-increment [++chan_i], and after the wrap. *)
Definition next_chan_i (m : machine) : Z :=
  if u8 (chan_i m + 1) =? chan_count m then 0 else u8 (chan_i m + 1).

Definition channel_cb_events (m : machine) (i v : Z) : list event :=
  match channel_cb m with
  | Some f => [EvChannelCb f i v]
  | None => []
  end.

Definition scan_cb_events (m : machine) (samples : list Z) : list event :=
  match channel_scan_cb m with
  | Some g => [EvScanCb g samples]
  | None => []
  end.

Definition select_regs (c : channel_config_t) (m : machine) : machine :=
  set_ADMUX (u8 (Z.lor (Z.land (ADMUX m) 224) (Z.land (u8 (mux c)) 31)))
    (set_ADCSRB
       (u8 (Z.lor (Z.land (ADCSRB m) (Z.lnot (Z.shiftl 1 MUX5)))
                  (if Z.land (u8 (mux c)) 32 =? 0 then 0 else Z.shiftl 1 MUX5)))
       m).

End HandlerVocabulary.

(** ** Sessions and their invariant *)

Section Sessions.

Context {io : AvrIo}.

(** The descriptor of the channel being measured. *)
Definition current_config (m : machine) : option channel_config_t :=
  match config m with
  | Some cfg => cfg !! Z.to_nat (chan_i m)
  | None => None
  end.

(** What holds of the window counters in each state, when no raw reading
    exceeds [B]. *)
Definition window_inv (B : Z) (m : machine) : Prop :=
  match state m with
  | ISR_STATE_INIT => True
  | ISR_STATE_DELAY =>
      exists c, current_config m = Some c /\
        sample_cnt_target m = 2 ^ sample_count_log2 c /\
        sample_cnt m = 0 /\ sample_accumulator m = 0
  | ISR_STATE_ACCUMULATE =>
      exists c, current_config m = Some c /\
        sample_cnt_target m = 2 ^ sample_count_log2 c /\
        0 <= sample_cnt m < sample_cnt_target m /\
        0 <= sample_accumulator m <= sample_cnt m * B
  end.

Record session_inv (B : Z) (m : machine) : Prop := {
  inv_count : 1 <= chan_count m <= 255;
  inv_chan_i : 0 <= chan_i m < chan_count m;
  inv_config : exists cfg, config m = Some cfg /\
                 length cfg = Z.to_nat (chan_count m) /\ Forall config_ok cfg;
  inv_sn : length (sn m) = Z.to_nat (chan_count m);
  inv_sample : length (sample m) = Z.to_nat (chan_count m);
  inv_sample_bound : Forall (fun v => 0 <= v <= B) (sample m);
  inv_window : window_inv B m
}.

(** The arguments [begin] is specified for: a count of at least one
    channel within the caller's array, whose entries fit their 4-bit
    field. *)
Definition begin_ok (channel_config : list channel_config_t)
    (channel_count : Z) : Prop :=
  1 <= channel_count <= 255 /\
  (Z.to_nat channel_count <= length channel_config)%nat /\
  Forall config_ok channel_config.

(** The states of a scanning session whose raw readings are at most [B]:
    those [begin] leaves, and those reached from them by conversion-complete
    events and by the attach operations. *)
Inductive in_session (B : Z) : machine -> Prop :=
| session_begin m0 cc n m tr :
    begin_ok cc n ->
    begin cc n m0 = Ok tt m tr ->
    in_session B m
| session_event m l h m' tr :
    in_session B m ->
    raw_of l h <= B ->
    ISR l h m = Ok tt m' tr ->
    in_session B m'
| session_attach_channel m cb m' tr :
    in_session B m ->
    attach_channel_callback cb m = Ok tt m' tr ->
    in_session B m'
| session_attach_scan m cb m' tr :
    in_session B m ->
    attach_scan_callback cb m = Ok tt m' tr ->
    in_session B m'.

(** The state [begin] leaves, from the state [m0] it was called in. *)
Definition started (cc : list channel_config_t) (n : Z) (c0 : channel_config_t)
    (m0 : machine) : machine :=
  {| ADCSRA :=
       u8 (Z.lor
             (u8 (Z.lor (Z.lor (Z.lor (Z.lor (Z.lor (Z.shiftl 1 ADPS2)
                                                     (Z.shiftl 0 ADPS1))
                                              (Z.shiftl 0 ADPS0))
                                       (Z.shiftl 1 ADEN))
                                (Z.shiftl 1 ADATE))
                         (Z.shiftl 1 ADIE)))
             (Z.shiftl 1 ADSC));
     ADCSRB := 0;
     ADMUX := u8 (Z.lor (Z.lor (Z.shiftl 1 REFS0) (Z.shiftl 0 ADLAR)) (mux c0));
     SREG_I := true;
     chan_count := n;
     channel_cb := channel_cb m0;
     channel_scan_cb := channel_scan_cb m0;
     state := ISR_STATE_INIT;
     chan_i := 0;
     sample_cnt := sample_cnt m0;
     sample_cnt_target := sample_cnt_target m0;
     sample_accumulator := sample_accumulator m0;
     config := Some (take (Z.to_nat n) cc);
     sn := replicate (Z.to_nat n) 0;
     sample := replicate (Z.to_nat n) 0 |}.

End Sessions.

Section StepVocabulary.

Context {io : AvrIo}.

(** Whether the invocation entered in state [m] completes the averaging
    cycle of the current channel: the handler is in ACCUMULATE and its test
    [++sample_cnt == sample_cnt_target] succeeds. *)
Definition completes (m : machine) : bool :=
  match state m with
  | ISR_STATE_ACCUMULATE => u16 (sample_cnt m + 1) =? sample_cnt_target m
  | _ => false
  end.

(** The state and the events of a completing invocation that publishes [v]
    over the sequence number [s]. *)
Definition finalize_state (m : machine) (v s : Z) : machine :=
  set_state ISR_STATE_INIT
    (set_chan_i (next_chan_i m)
       (set_sn (<[Z.to_nat (chan_i m) := u8 (s + 1)]> (sn m))
          (set_sample (<[Z.to_nat (chan_i m) := v]> (sample m))
             (set_sample_cnt (u16 (sample_cnt m + 1)) m)))).

Definition finalize_events (m : machine) (v s : Z) : list event :=
  [EvConfig (chan_i m); EvSample (chan_i m) v; EvSn (chan_i m) (u8 (s + 1))]
    ++ channel_cb_events m (chan_i m) v
    ++ [EvChanI (u8 (chan_i m + 1))]
    ++ (if u8 (chan_i m + 1) =? chan_count m
        then scan_cb_events m (<[Z.to_nat (chan_i m) := v]> (sample m))
               ++ [EvChanI 0]
        else []).

(** The events of a completing invocation after the two stores. *)
Definition finalize_tail (m : machine) (v : Z) : list event :=
  channel_cb_events m (chan_i m) v
    ++ [EvChanI (u8 (chan_i m + 1))]
    ++ (if u8 (chan_i m + 1) =? chan_count m
        then scan_cb_events m (<[Z.to_nat (chan_i m) := v]> (sample m))
               ++ [EvChanI 0]
        else []).

(** How an invocation that completes no cycle moves the window on. *)
Definition window_step (m : machine) (l h : Z) (m' : machine) : Prop :=
  match state m with
  | ISR_STATE_INIT => state m' = ISR_STATE_DELAY
  | ISR_STATE_DELAY =>
      state m' = ISR_STATE_ACCUMULATE /\
      sample_cnt m' = sample_cnt m /\
      sample_accumulator m' = sample_accumulator m /\
      sample_cnt_target m' = sample_cnt_target m
  | ISR_STATE_ACCUMULATE =>
      state m' = ISR_STATE_ACCUMULATE /\
      sample_cnt m' = sample_cnt m + 1 /\
      sample_accumulator m' = sample_accumulator m + raw_of l h /\
      sample_cnt_target m' = sample_cnt_target m
  end.

(** The rounded average of a window whose readings sum to [sum], as the
    specification words it. *)
Definition rounded_average (averaging_log2 sum : Z) : Z :=
  if averaging_log2 =? 0 then sum
  else Z.shiftr (sum + 2 ^ averaging_log2 / 2) averaging_log2.

End StepVocabulary.

(** ** Reading a trace *)

(** The publications [sample[i] = v] of a trace, in order. *)
Definition published (tr : list event) : list (Z * Z) :=
  omap (fun e => match e with EvSample i v => Some (i, v) | _ => None end) tr.

(** The channel indices finalized along a trace. *)
Definition finalized (tr : list event) : list Z := (published tr).*1.

(** The calls of the per-channel callback along a trace. *)
Definition channel_calls (tr : list event)
  : list (channel_callback_t * Z * Z) :=
  omap (fun e => match e with
                 | EvChannelCb f i v => Some (f, i, v)
                 | _ => None
                 end) tr.

(** The calls of the scan callback along a trace, each with the samples it
    is handed. *)
Definition scan_calls (tr : list event)
  : list (channel_scan_callback_t * list Z) :=
  omap (fun e => match e with
                 | EvScanCb g a => Some (g, a)
                 | _ => None
                 end) tr.

(** Round-robin order over [n] channels: [len] turns starting at channel
    [i]. *)
Definition round_robin (n i : Z) (len : nat) : list Z :=
  map (fun k => (i + Z.of_nat k) mod n) (seq 0 len).

(** What the reader of the Result Store sees after the writes of a trace:
    the sequence numbers and the samples. *)
Definition observe (e : event) (st : list Z * list Z) : list Z * list Z :=
  match e with
  | EvSn i s => (<[Z.to_nat i := s]> st.1, st.2)
  | EvSample i v => (st.1, <[Z.to_nat i := v]> st.2)
  | _ => st
  end.

Definition replay (tr : list event) (st : list Z * list Z) : list Z * list Z :=
  fold_left (fun st e => observe e st) tr st.

(** ** Counting events *)

(** Conversion-complete events the handler spends on one channel: one in
    INIT, one in DELAY, and [2 ^ sample_count_log2] in ACCUMULATE. *)
Definition events_per_channel (c : channel_config_t) : Z :=
  2 + 2 ^ sample_count_log2 c.

Definition scan_events (cfg : list channel_config_t) : Z :=
  foldr (fun c acc => events_per_channel c + acc) 0 cfg.

(** The count as the specification words it: per channel, one settle event
    and [target_count] events. *)
Definition spec_scan_events (cfg : list channel_config_t) : Z :=
  foldr (fun c acc => (1 + 2 ^ sample_count_log2 c) + acc) 0 cfg.

(** Events left before the current channel is finalized, the finalizing
    one included. *)
Definition remaining (m : machine) : Z :=
  match state m with
  | ISR_STATE_INIT =>
      match current_config m with
      | Some c => events_per_channel c
      | None => 0
      end
  | ISR_STATE_DELAY => 1 + sample_cnt_target m
  | ISR_STATE_ACCUMULATE => sample_cnt_target m - sample_cnt m
  end.

(** Events left before the last configured channel is finalized. *)
Definition scan_remaining (m : machine) : Z :=
  remaining m +
  match config m with
  | Some cfg => scan_events (drop (S (Z.to_nat (chan_i m))) cfg)
  | None => 0
  end.
(** Raw readings of at most [B]. *)
Definition readings_within (B : Z) (evs : list (Z * Z)) : Prop :=
  Forall (fun e => raw_of e.1 e.2 <= B) evs.
(** The sum of the raw readings of a list of events. *)
Definition raw_sum (rs : list (Z * Z)) : Z :=
  foldr (fun e acc => raw_of e.1 e.2 + acc) 0 rs.
(** Whether an event writes the Result Store. *)
Definition is_store (e : event) : bool :=
  match e with
  | EvSample _ _ | EvSn _ _ => true
  | _ => false
  end.

(** The largest value of a [uint16_t] and of the 10-bit converter. *)
Definition U16_MAX : Z := 65535.
Definition ADC_MAX : Z := 1023.

Section SessionRuns.

Context {io : AvrIo}.

(** A scanning session: [begin], then conversion-complete events. *)
Definition session (cc : list channel_config_t) (n : Z) (evs : list (Z * Z))
  : M unit :=
  begin cc n;; run evs.

(** A full scan of the table takes [k] events: after [k] events of a fresh
    session every channel has been finalized once, and after fewer events
    some channel has not. *)
Definition scan_takes (cc : list channel_config_t) (n : Z) (k : Z) : Prop :=
  forall m0 evs,
    (Z.of_nat (length evs) = k ->
     exists m tr, session cc n evs m0 = Ok tt m tr /\
                  Z.of_nat (length (finalized tr)) = n) /\
    (Z.of_nat (length evs) < k ->
     exists m tr, session cc n evs m0 = Ok tt m tr /\
                  Z.of_nat (length (finalized tr)) < n).

End SessionRuns.

(** ** Concrete sessions *)

(** The machine and the events a run ends with ([ScanADC] when it does not
    return). *)
Definition result_machine {A} (r : result A) : machine :=
  match r with
  | Ok _ m _ => m
  | UB _ => ScanADC
  end.

Definition result_trace {A} (r : result A) : list event :=
  match r with
  | Ok _ _ tr => tr
  | UB tr => tr
  end.

(** One channel averaged over 4 readings; the same with a single-reading
    channel after it; and a single-reading channel alone. *)
Definition depth2_table : list channel_config_t := [mkConfig 7 2].
Definition two_channel_table : list channel_config_t :=
  [mkConfig 7 2; mkConfig 6 0].
Definition depth0_table : list channel_config_t := [mkConfig 7 0].

(** The depth-2 session one reading short of its first publication, after
    the raw readings 1, 1, 1. *)
Definition depth2_pending : machine :=
  result_machine
    (@session atmega32u4 depth2_table 1
       [(0, 0); (0, 0); (1, 0); (1, 0); (1, 0)] ScanADC).

(** The same session after the reading 2 has completed the window. *)
Definition depth2_published : machine :=
  result_machine (@ISR atmega32u4 2 0 depth2_pending).

(** The two-channel session with callbacks 1 and 2 installed beforehand,
    one reading short of finalizing its last channel. *)
Definition both_callbacks : machine :=
  set_channel_scan_cb (Some 2%nat) (set_channel_cb (Some 1%nat) ScanADC).

Definition last_channel_pending : machine :=
  result_machine
    (@session atmega32u4 two_channel_table 2
       [(0, 0); (0, 0); (1, 0); (2, 0); (2, 0); (2, 0); (0, 0); (0, 0)]
       both_callbacks).

(** ** Waiting for a channel *)

Section Waiting.

Context {io : AvrIo}.

(** The loop of [wait_channel], from its first test on.  The caller runs
    with interrupts enabled, so conversion-complete events may be handled
    before each of its reads of [sn[channel]]: [env] lists, read by read,
    the events handled before the read (the loop test, then the re-read of
    the body, then the next test, ...).  The result is [true] when the loop
    is left, and [false] when [env] ends with the caller still in the
    loop. *)
Fixpoint wait_poll (channel last_sn : Z) (env : list (list (Z * Z))) : M bool :=
  match env with
  | [] => mret false
  | before_test :: env' =>
      run before_test;;
      s ← load_sn channel;
      if last_sn =? s then
        match env' with
        | [] => mret false
        | before_reread :: env'' =>
            run before_reread;;
            last_sn ← load_sn channel;
            wait_poll channel last_sn env''
        end
      else mret true
  end.

(** [ScanADC::wait_channel]. *)
Definition wait_channel (channel : Z) (env : list (list (Z * Z))) : M bool :=
  last_sn ← load_sn channel;
  wait_poll channel last_sn env.


End Waiting.

(** An environment in which every event is handled between a loop test and
    the re-read that follows it: nothing happens before a test. *)
Definition after_each_test (bs : list (list (Z * Z))) : list (list (Z * Z)) :=
  flat_map (fun b => [[]; b]) bs.

(** ** The Result Store after a run *)

(** How many times channel [j] is finalized along a trace. *)
Definition count_finalized (j : Z) (tr : list event) : Z :=
  foldr (fun i acc => if i =? j then 1 + acc else acc) 0 (finalized tr).

(** The sample of channel [j] after the publications of a trace, from the
    sample [d] before it. *)
Definition latest_sample (j : Z) (tr : list event) (d : Z) : Z :=
  fold_left (fun acc p => if p.1 =? j then p.2 else acc) (published tr) d.

(** ** The size of the block *)

(** The size [begin] asks [malloc] for, in the 16-bit arithmetic of the
    target ([uint16_t] operands, 16-bit [int]); [sizeof_config] is
    [sizeof(channel_config_t)], and [sizeof(uint8_t)] and
    [sizeof(uint16_t)] are 1 and 2. *)
Definition alloc_size (sizeof_config channel_count : Z) : Z :=
  let config_size := u16 (sizeof_config * channel_count) in
  let sn_size := u16 (1 * channel_count) in
  let sample_size := u16 (2 * channel_count) in
  u16 (u16 (config_size + sn_size) + sample_size).

(** ** The registers [begin] and the handler program *)

Section Registers.

Context {io : AvrIo}.

(** The values [begin] writes to ADCSRA: prescaler 16, converter enabled,
    auto trigger, interrupt enabled; then the same with the conversion
    started. *)
Definition ADCSRA_enabled : Z :=
  u8 (Z.lor (Z.lor (Z.lor (Z.lor (Z.lor (Z.shiftl 1 ADPS2) (Z.shiftl 0 ADPS1))
                                 (Z.shiftl 0 ADPS0))
                          (Z.shiftl 1 ADEN))
                   (Z.shiftl 1 ADATE))
            (Z.shiftl 1 ADIE)).

Definition ADCSRA_armed : Z :=
  u8 (Z.lor ADCSRA_enabled (Z.shiftl 1 ADSC)).

(** The 6-bit selector the multiplexer registers hold: MUX4..0 in ADMUX and
    MUX5 in ADCSRB. *)
Definition selected (m : machine) : Z :=
  Z.land (ADMUX m) 31 + 32 * Z.b2z (Z.testbit (ADCSRB m) MUX5).

(** The bit positions of one 8-bit register. *)
Definition bit_ok (b : Z) : Prop := 0 <= b < 8.

End Registers.

(** ** The handler, case by case

    What one invocation of the handler does in each state, obtained by
    running the monadic code; the case analysis below is the one the
    [switch] and the [if]s of the source make. *)

Section Steps.

Context {io : AvrIo}.

Ltac run_m :=
  unfold mbind, M_bind, mret, M_ret, gets, modify, emit, undefined.

Lemma ISR_init m l h cfg c :
  state m = ISR_STATE_INIT ->
  config m = Some cfg ->
  cfg !! Z.to_nat (chan_i m) = Some c ->
  ISR l h m =
  Ok tt
    (set_state ISR_STATE_DELAY
       (set_sample_cnt_target (u16 (Z.shiftl 1 (sample_count_log2 c)))
          (set_sample_cnt 0 (set_sample_accumulator 0 (select_regs c m)))))
    [EvConfig (chan_i m); EvConfig (chan_i m)].
Proof.
  intros Hs Hc Hl. unfold ISR, config_at. run_m.
  repeat (cbn; rewrite ?Hs, ?Hc, ?Hl). reflexivity.
Qed.

Lemma ISR_delay m l h :
  state m = ISR_STATE_DELAY ->
  ISR l h m = Ok tt (set_state ISR_STATE_ACCUMULATE m) [].
Proof.
  intros Hs. unfold ISR. run_m. cbn. rewrite Hs. reflexivity.
Qed.

Lemma ISR_accumulate_partial m l h :
  state m = ISR_STATE_ACCUMULATE ->
  u16 (sample_cnt m + 1) <> sample_cnt_target m ->
  ISR l h m =
  Ok tt
    (set_sample_accumulator (u32 (sample_accumulator m + raw_of l h))
       (set_sample_cnt (u16 (sample_cnt m + 1)) m))
    [].
Proof.
  intros Hs Hne. unfold ISR. run_m. cbn. rewrite Hs. cbn.
  apply Z.eqb_neq in Hne. rewrite Hne. reflexivity.
Qed.

Lemma ISR_accumulate_final m l h cfg c s :
  state m = ISR_STATE_ACCUMULATE ->
  u16 (sample_cnt m + 1) = sample_cnt_target m ->
  config m = Some cfg ->
  cfg !! Z.to_nat (chan_i m) = Some c ->
  sn m !! Z.to_nat (chan_i m) = Some s ->
  (Z.to_nat (chan_i m) < length (sample m))%nat ->
  let i := chan_i m in
  let v := u16 (average c (sample_cnt_target m)
                  (u32 (sample_accumulator m + raw_of l h))) in
  let samples := <[Z.to_nat i := v]> (sample m) in
  ISR l h m =
  Ok tt
    (set_state ISR_STATE_INIT
       (set_chan_i (next_chan_i m)
          (set_sn (<[Z.to_nat i := u8 (s + 1)]> (sn m))
             (set_sample samples (set_sample_cnt (u16 (sample_cnt m + 1)) m)))))
    ([EvConfig i; EvSample i v; EvSn i (u8 (s + 1))]
       ++ channel_cb_events m i v
       ++ [EvChanI (u8 (i + 1))]
       ++ (if u8 (i + 1) =? chan_count m
           then scan_cb_events m samples ++ [EvChanI 0]
           else [])).
Proof.
  intros Hs Hfin Hc Hl Hsn Hsm i v samples.
  assert (Hsn' : (Z.to_nat (chan_i m) < length (sn m))%nat)
    by (eapply lookup_lt_Some; exact Hsn).
  unfold ISR, config_at, store_sample, store_sn, load_sn, put_chan_i. run_m.
  cbn. rewrite Hs. cbn.
  apply Z.eqb_eq in Hfin. rewrite Hfin.
  repeat (cbn; rewrite ?Hc, ?Hl, ?Hsn).
  rewrite (decide_True _ _ Hsm).
  repeat (cbn; rewrite ?Hc, ?Hl, ?Hsn).
  rewrite (decide_True _ _ Hsn').
  unfold next_chan_i, channel_cb_events, scan_cb_events, average.
  subst i v samples.
  destruct (channel_cb m) eqn:Ecb; cbn; rewrite ?Ecb; cbn;
    destruct (u8 (chan_i m + 1) =? chan_count m) eqn:Ewrap; cbn; rewrite ?Ewrap;
    cbn; try reflexivity;
    destruct (channel_scan_cb m) eqn:Escb; cbn; rewrite ?Escb; reflexivity.
Qed.

End Steps.

Section SessionLemmas.

Context {io : AvrIo}.

Ltac run_m :=
  unfold mbind, M_bind, mret, M_ret, gets, modify, emit, undefined.

Lemma begin_started m0 cc n :
  begin_ok cc n ->
  exists c0 a1 a2,
    cc !! 0%nat = Some c0 /\
    begin cc n m0 =
    Ok tt (started cc n c0 m0)
      [EvADCSRA 0; EvChanI 0; EvConfig 0; EvADCSRA a1; EvADCSRA a2].
Proof.
  intros (Hn & Hlen & _).
  destruct cc as [|c0 cc']; [cbn in Hlen; lia|].
  exists c0. do 2 eexists. split; [reflexivity|].
  assert (Ht : take (Z.to_nat n) (c0 :: cc') !! Z.to_nat 0 = Some c0).
  { destruct (Z.to_nat n) eqn:E; [lia|]. reflexivity. }
  unfold begin, end_, config_at, put_chan_i, put_ADCSRA. run_m.
  destruct (config m0) eqn:Ec; cbn; rewrite ?Ec; cbn;
    rewrite (decide_True _ _ Hlen); cbn; rewrite Ht; cbn; reflexivity.
Qed.

End SessionLemmas.

Section Arithmetic.

Lemma u8_small x : 0 <= x < 256 -> u8 x = x.
Proof. intros. unfold u8. apply Z.mod_small. lia. Qed.

Lemma u16_small x : 0 <= x < 65536 -> u16 x = x.
Proof. intros. unfold u16. apply Z.mod_small. lia. Qed.

Lemma u32_small x : 0 <= x < 4294967296 -> u32 x = x.
Proof. intros. unfold u32. apply Z.mod_small. lia. Qed.

Lemma u16_range x : 0 <= u16 x <= 65535.
Proof. unfold u16. pose proof (Z.mod_pos_bound x (2 ^ 16)). lia. Qed.

Lemma pow2_field k : 0 <= k <= 15 -> 1 <= 2 ^ k <= 32768.
Proof.
  intros Hk. split.
  - pose proof (Z.pow_pos_nonneg 2 k). lia.
  - change 32768 with (2 ^ 15). apply Z.pow_le_mono_r; lia.
Qed.

Lemma shiftl_one_field k : 0 <= k <= 15 -> u16 (Z.shiftl 1 k) = 2 ^ k.
Proof.
  intros Hk. rewrite Z.shiftl_1_l. apply u16_small.
  pose proof (pow2_field k Hk). lia.
Qed.

(** On a sum that fits, the handler's average is the rounded quotient. *)
Lemma average_exact c B sum :
  config_ok c ->
  0 <= B <= 65535 ->
  0 <= sum <= 2 ^ sample_count_log2 c * B ->
  average c (2 ^ sample_count_log2 c) (u32 sum) =
    (if sample_count_log2 c =? 0 then sum
     else Z.shiftr (sum + 2 ^ sample_count_log2 c / 2) (sample_count_log2 c)) /\
  0 <= average c (2 ^ sample_count_log2 c) (u32 sum) <= B.
Proof.
  intros Hc HB Hsum. unfold config_ok in Hc.
  set (k := sample_count_log2 c) in *.
  pose proof (pow2_field k Hc) as HT.
  assert (Hs32 : u32 sum = sum) by (apply u32_small; nia).
  unfold average. fold k. rewrite Hs32.
  destruct (k =? 0) eqn:Ek.
  - apply Z.eqb_eq in Ek. rewrite Ek in *. cbn in Hsum. split; [reflexivity|lia].
  - apply Z.eqb_neq in Ek.
    rewrite (Z.shiftr_div_pow2 (2 ^ k) 1) by lia. change (2 ^ 1) with 2.
    assert (Hhalf : 0 <= 2 ^ k / 2 < 2 ^ k).
    { split; [apply Z.div_pos; lia|apply Z.div_lt; lia]. }
    rewrite u32_small by nia. split; [reflexivity|].
    rewrite Z.shiftr_div_pow2 by lia. split.
    + apply Z.div_pos; lia.
    + assert ((sum + 2 ^ k / 2) / 2 ^ k < B + 1); [|lia].
      apply Z.div_lt_upper_bound; nia.
Qed.

End Arithmetic.

Section InvariantLemmas.

Context {io : AvrIo}.

Lemma raw_of_range l h : 0 <= raw_of l h <= 65535.
Proof. apply u16_range. Qed.

Lemma started_inv B m0 cc n c0 :
  0 <= B -> begin_ok cc n -> session_inv B (started cc n c0 m0).
Proof.
  intros HB (Hn & Hlen & Hok). constructor; cbn.
  - lia.
  - lia.
  - eexists. split; [reflexivity|]. split.
    + rewrite length_take. lia.
    + apply Forall_take, Hok.
  - apply length_replicate.
  - apply length_replicate.
  - apply Forall_replicate. lia.
  - exact I.
Qed.

(** Within a session the current channel's descriptor and slots exist. *)
Lemma inv_lookups B m :
  session_inv B m ->
  exists cfg c s,
    config m = Some cfg /\
    cfg !! Z.to_nat (chan_i m) = Some c /\
    config_ok c /\
    sn m !! Z.to_nat (chan_i m) = Some s /\
    (Z.to_nat (chan_i m) < length (sample m))%nat.
Proof.
  intros [Hn Hi (cfg & Hc & Hlen & Hok) Hsn Hsm _ _].
  destruct (lookup_lt_is_Some_2 cfg (Z.to_nat (chan_i m))) as [c Hl]; [lia|].
  destruct (lookup_lt_is_Some_2 (sn m) (Z.to_nat (chan_i m))) as [s Hs]; [lia|].
  exists cfg, c, s. split; [exact Hc|]. split; [exact Hl|].
  split; [eapply Forall_lookup_1; eassumption|]. split; [exact Hs|lia].
Qed.

Lemma next_chan_i_range m :
  1 <= chan_count m <= 255 -> 0 <= chan_i m < chan_count m ->
  u8 (chan_i m + 1) = chan_i m + 1 /\
  next_chan_i m = (chan_i m + 1) mod chan_count m /\
  0 <= next_chan_i m < chan_count m.
Proof.
  intros Hn Hi. assert (Hu : u8 (chan_i m + 1) = chan_i m + 1)
    by (apply u8_small; lia).
  unfold next_chan_i. rewrite Hu. split; [reflexivity|].
  destruct (chan_i m + 1 =? chan_count m) eqn:E.
  - apply Z.eqb_eq in E. rewrite E, Z.mod_same by lia. lia.
  - apply Z.eqb_neq in E. rewrite Z.mod_small by lia. lia.
Qed.

End InvariantLemmas.

Section StepLemmas.

Context {io : AvrIo}.

Variable B : Z.
Hypothesis HB : 0 <= B <= 65535.

(** An invocation that does not complete a cycle publishes nothing, keeps
    the session invariant, and brings the end of the window one event
    closer. *)
Lemma ISR_quiet m l h :
  session_inv B m ->
  raw_of l h <= B ->
  completes m = false ->
  exists m' tr,
    ISR l h m = Ok tt m' tr /\
    session_inv B m' /\
    (tr = [] \/ tr = [EvConfig (chan_i m); EvConfig (chan_i m)]) /\
    sn m' = sn m /\ sample m' = sample m /\ chan_i m' = chan_i m /\
    chan_count m' = chan_count m /\ config m' = config m /\
    channel_cb m' = channel_cb m /\ channel_scan_cb m' = channel_scan_cb m /\
    2 <= remaining m /\ remaining m' = remaining m - 1 /\
    window_step m l h m'.
Proof.
  intros Hinv Hraw Hq.
  destruct (inv_lookups B m Hinv) as (cfg & c & s & Hc & Hl & Hok & Hs & Hsm).
  pose proof (raw_of_range l h) as Hr.
  destruct Hinv as [Hn Hi Hcfg Hsn Hsmp Hbound Hw].
  unfold completes in Hq. unfold window_inv in Hw.
  pose proof (pow2_field _ Hok) as HT.
  destruct (state m) eqn:Est.
  - (* INIT *)
    eexists _, _. split; [apply (ISR_init m l h cfg c Est Hc Hl)|].
    split.
    { constructor; cbn; try assumption.
      unfold window_inv, current_config; cbn. rewrite Hc.
      exists c. rewrite shiftl_one_field by exact Hok. auto. }
    split; [right; reflexivity|]. do 7 (split; [reflexivity|]).
    unfold remaining, current_config. cbn. rewrite Est, Hc, Hl.
    rewrite shiftl_one_field by exact Hok. unfold events_per_channel.
    unfold window_step. rewrite Est. split; [lia|]. split; [lia|reflexivity].
  - (* DELAY *)
    destruct Hw as (c' & Hcur & Ht & Hcnt & Hacc).
    assert (c' = c) as ->.
    { unfold current_config in Hcur. rewrite Hc in Hcur. congruence. }
    eexists _, _. split; [apply (ISR_delay m l h Est)|].
    split.
    { constructor; cbn; try assumption.
      unfold window_inv; cbn.
      exists c. rewrite Hcnt, Hacc. repeat split; try assumption; lia. }
    split; [left; reflexivity|]. do 7 (split; [reflexivity|]).
    unfold remaining, window_step. cbn. rewrite Est.
    split; [lia|]. split; [lia|]. repeat split; reflexivity.
  - (* ACCUMULATE, below the target *)
    apply Z.eqb_neq in Hq.
    destruct Hw as (c' & Hcur & Ht & Hcnt & Hacc).
    assert (c' = c) as ->.
    { unfold current_config in Hcur. rewrite Hc in Hcur. congruence. }
    assert (Hu : u16 (sample_cnt m + 1) = sample_cnt m + 1)
      by (apply u16_small; lia).
    eexists _, _. split; [apply (ISR_accumulate_partial m l h Est Hq)|].
    split.
    { constructor; cbn; try assumption.
      unfold window_inv; cbn. rewrite Est.
      exists c. rewrite Hu in *. rewrite u32_small by nia.
      repeat split; try assumption; try lia; nia. }
    split; [left; reflexivity|]. do 7 (split; [reflexivity|]).
    unfold remaining, window_step. cbn. rewrite Est, Hu in *.
    split; [lia|]. split; [lia|].
    rewrite u32_small by nia. repeat split; reflexivity.
Qed.

(** A completing invocation publishes the rounded average of the window
    and moves to the next channel. *)
Lemma ISR_publish m l h :
  session_inv B m ->
  raw_of l h <= B ->
  completes m = true ->
  exists c s,
    current_config m = Some c /\
    config_ok c /\
    sn m !! Z.to_nat (chan_i m) = Some s /\
    state m = ISR_STATE_ACCUMULATE /\
    sample_cnt_target m = 2 ^ sample_count_log2 c /\
    sample_cnt m + 1 = sample_cnt_target m /\
    remaining m = 1 /\
    0 <= sample_accumulator m + raw_of l h <= sample_cnt_target m * B /\
    let v := rounded_average (sample_count_log2 c)
               (sample_accumulator m + raw_of l h) in
    0 <= v <= B /\
    ISR l h m = Ok tt (finalize_state m v s) (finalize_events m v s) /\
    session_inv B (finalize_state m v s).
Proof.
  intros Hinv Hraw Hq.
  destruct (inv_lookups B m Hinv) as (cfg & c & s & Hc & Hl & Hok & Hs & Hsm).
  pose proof (raw_of_range l h) as Hr.
  destruct Hinv as [Hn Hi Hcfg Hsn Hsmp Hbound Hw].
  unfold completes in Hq. unfold window_inv in Hw.
  destruct (state m) eqn:Est; try discriminate.
  apply Z.eqb_eq in Hq.
  destruct Hw as (c' & Hcur & Ht & Hcnt & Hacc).
  assert (c' = c) as ->.
  { unfold current_config in Hcur. rewrite Hc in Hcur. congruence. }
  pose proof (pow2_field _ Hok) as HT.
  assert (Hu : u16 (sample_cnt m + 1) = sample_cnt m + 1)
    by (apply u16_small; lia).
  assert (Hsum : 0 <= sample_accumulator m + raw_of l h
                 <= 2 ^ sample_count_log2 c * B) by nia.
  destruct (average_exact c B _ Hok HB Hsum) as [Havg Hrange].
  exists c, s. split; [exact Hcur|]. split; [exact Hok|]. split; [exact Hs|].
  split; [reflexivity|]. split; [exact Ht|]. split; [lia|].
  split; [unfold remaining; rewrite Est; lia|].
  split; [rewrite Ht; exact Hsum|].
  fold (rounded_average (sample_count_log2 c)
          (sample_accumulator m + raw_of l h)) in Havg.
  cbv zeta. rewrite <- Havg. split; [exact Hrange|].
  pose proof (ISR_accumulate_final m l h cfg c s Est Hq Hc Hl Hs Hsm) as Hrun.
  cbv zeta in Hrun. rewrite Ht in Hrun. rewrite u16_small in Hrun by lia.
  split; [exact Hrun|].
  destruct (next_chan_i_range m Hn Hi) as (_ & _ & Hnext).
  constructor; cbn; try assumption; try lia.
  - rewrite length_insert. exact Hsn.
  - rewrite length_insert. exact Hsmp.
  - apply Forall_insert; [exact Hbound|exact Hrange].
Qed.

End StepLemmas.

Section TraceLemmas.

Context {io : AvrIo}.

Lemma published_app t1 t2 : published (t1 ++ t2) = published t1 ++ published t2.
Proof. apply omap_app. Qed.

Lemma finalized_app t1 t2 : finalized (t1 ++ t2) = finalized t1 ++ finalized t2.
Proof. unfold finalized. rewrite published_app. apply fmap_app. Qed.

Lemma channel_calls_app t1 t2 :
  channel_calls (t1 ++ t2) = channel_calls t1 ++ channel_calls t2.
Proof. apply omap_app. Qed.

Lemma scan_calls_app t1 t2 : scan_calls (t1 ++ t2) = scan_calls t1 ++ scan_calls t2.
Proof. apply omap_app. Qed.

Lemma published_finalize_events m v s :
  published (finalize_events m v s) = [(chan_i m, v)].
Proof.
  unfold finalize_events, channel_cb_events, scan_cb_events.
  destruct (channel_cb m), (u8 (chan_i m + 1) =? chan_count m),
    (channel_scan_cb m); reflexivity.
Qed.

Lemma channel_calls_finalize_events m v s :
  channel_calls (finalize_events m v s) =
  match channel_cb m with
  | Some f => [(f, chan_i m, v)]
  | None => []
  end.
Proof.
  unfold finalize_events, channel_cb_events, scan_cb_events.
  destruct (channel_cb m), (u8 (chan_i m + 1) =? chan_count m),
    (channel_scan_cb m); reflexivity.
Qed.

Lemma scan_calls_finalize_events m v s :
  scan_calls (finalize_events m v s) =
  if u8 (chan_i m + 1) =? chan_count m then
    match channel_scan_cb m with
    | Some g => [(g, <[Z.to_nat (chan_i m) := v]> (sample m))]
    | None => []
    end
  else [].
Proof.
  unfold finalize_events, channel_cb_events, scan_cb_events.
  destruct (channel_cb m), (u8 (chan_i m + 1) =? chan_count m),
    (channel_scan_cb m); reflexivity.
Qed.

Lemma round_robin_cons n i len :
  0 <= i < n ->
  round_robin n i (S len) = i :: round_robin n ((i + 1) mod n) len.
Proof.
  intros Hi. unfold round_robin. cbn [seq map]. f_equal.
  - rewrite Z.add_0_r. apply Z.mod_small. exact Hi.
  - rewrite <- seq_shift, map_map. apply map_ext. intros k.
    rewrite Z.add_mod_idemp_l by lia. f_equal. lia.
Qed.

Lemma run_cons l h evs m :
  run ((l, h) :: evs) m =
  match ISR l h m with
  | Ok _ m1 t1 =>
      match run evs m1 with
      | Ok b m2 t2 => Ok b m2 (t1 ++ t2)
      | UB t2 => UB (t1 ++ t2)
      end
  | UB t1 => UB t1
  end.
Proof. reflexivity. Qed.

End TraceLemmas.

Section RunLemmas.

Context {io : AvrIo}.

Variable B : Z.
Hypothesis HB : 0 <= B <= 65535.

(** Any run of events from a session state stays in the session; its
    finalizations go round-robin from the current channel, and the
    callbacks fire with them. *)
Lemma run_session evs : forall m,
  session_inv B m ->
  readings_within B evs ->
  exists m' tr,
    run evs m = Ok tt m' tr /\
    session_inv B m' /\
    chan_count m' = chan_count m /\ config m' = config m /\
    channel_cb m' = channel_cb m /\ channel_scan_cb m' = channel_scan_cb m /\
    finalized tr =
      round_robin (chan_count m) (chan_i m) (length (finalized tr)) /\
    chan_i m' =
      (chan_i m + Z.of_nat (length (finalized tr))) mod chan_count m /\
    channel_calls tr =
      match channel_cb m with
      | Some f => map (fun p => (f, p.1, p.2)) (published tr)
      | None => []
      end /\
    Z.of_nat (length (scan_calls tr)) =
      match channel_scan_cb m with
      | Some _ => (chan_i m + Z.of_nat (length (finalized tr))) / chan_count m
      | None => 0
      end /\
    Forall (fun c => Some c.1 = channel_scan_cb m /\
                     length c.2 = Z.to_nat (chan_count m)) (scan_calls tr).
Proof.
  induction evs as [|[l h] evs IH]; intros m Hinv Hev.
  - exists m, []. cbn.
    pose proof (inv_count _ _ Hinv). pose proof (inv_chan_i _ _ Hinv).
    split; [reflexivity|]. split; [exact Hinv|].
    do 4 (split; [reflexivity|]). cbn.
    split; [reflexivity|].
    split; [rewrite Z.add_0_r, Z.mod_small by lia; reflexivity|].
    split; [destruct (channel_cb m); reflexivity|].
    split; [|constructor].
    destruct (channel_scan_cb m); [|reflexivity].
    rewrite Z.add_0_r, Z.div_small by lia. reflexivity.
  - apply Forall_cons in Hev as [Hraw Hev]. cbn in Hraw.
    pose proof (inv_count _ _ Hinv) as Hn. pose proof (inv_chan_i _ _ Hinv) as Hi.
    rewrite run_cons.
    destruct (completes m) eqn:Hq.
    + destruct (ISR_publish B HB m l h Hinv Hraw Hq)
        as (c & s & _ & _ & _ & _ & _ & _ & _ & _ & Hv & Hrun & Hinv1).
      cbv zeta in *.
      set (v := rounded_average (sample_count_log2 c)
                  (sample_accumulator m + raw_of l h)) in *.
      rewrite Hrun.
      destruct (IH _ Hinv1 Hev)
        as (m' & tr & Hrun' & Hinv' & Hcnt & Hcfg & Hcb & Hscb & Hrr & Hci
            & Hcalls & Hscan & Hall).
      rewrite Hrun'. exists m', (finalize_events m v s ++ tr).
      cbn in Hcnt, Hcfg, Hcb, Hscb, Hrr, Hci, Hcalls, Hscan, Hall.
      destruct (next_chan_i_range m Hn Hi) as (Hu8 & Hnext & Hnext').
      split; [reflexivity|]. split; [exact Hinv'|].
      split; [exact Hcnt|]. split; [exact Hcfg|].
      split; [exact Hcb|]. split; [exact Hscb|].
      assert (Hfin : finalized (finalize_events m v s ++ tr)
                     = chan_i m :: finalized tr).
      { rewrite finalized_app. unfold finalized at 1.
        rewrite published_finalize_events. reflexivity. }
      rewrite Hfin. cbn [length].
      split.
      { rewrite round_robin_cons by lia. f_equal.
        rewrite <- Hnext. exact Hrr. }
      split.
      { rewrite Hci, Hnext, Z.add_mod_idemp_l by lia. f_equal. lia. }
      split.
      { rewrite channel_calls_app, channel_calls_finalize_events, Hcalls.
        rewrite published_app, published_finalize_events.
        destruct (channel_cb m); reflexivity. }
      rewrite scan_calls_app, scan_calls_finalize_events, Hu8.
      split.
      { rewrite length_app, Nat2Z.inj_add, Hscan.
        unfold next_chan_i. rewrite Hu8.
        destruct (chan_i m + 1 =? chan_count m) eqn:Ew.
        - apply Z.eqb_eq in Ew.
          destruct (channel_scan_cb m); [|reflexivity]. cbn [length].
          replace (chan_i m + Z.of_nat (S (length (finalized tr))))
            with (1 * chan_count m + (0 + Z.of_nat (length (finalized tr))))
            by lia.
          rewrite Z.div_add_l by lia. lia.
        - destruct (channel_scan_cb m); [|reflexivity]. cbn [length].
          rewrite Nat2Z.inj_succ. change (Z.of_nat 0) with 0.
          rewrite Z.add_0_l. f_equal. lia. }
      { apply Forall_app. split; [|exact Hall].
        destruct (chan_i m + 1 =? chan_count m); [|constructor].
        destruct (channel_scan_cb m); [|constructor].
        constructor; [|constructor]. cbn. split; [reflexivity|].
        rewrite length_insert. apply (inv_sample _ _ Hinv). }
    + destruct (ISR_quiet B HB m l h Hinv Hraw Hq)
        as (m1 & t1 & Hrun & Hinv1 & Ht1 & _ & _ & Hci1 & Hcnt1 & Hcfg1
            & Hcb1 & Hscb1 & _).
      rewrite Hrun.
      destruct (IH _ Hinv1 Hev)
        as (m' & tr & Hrun' & Hinv' & Hcnt & Hcfg & Hcb & Hscb & Hrr & Hci
            & Hcalls & Hscan & Hall).
      rewrite Hrun'. exists m', (t1 ++ tr).
      rewrite Hci1, Hcnt1, ?Hcfg1, ?Hcb1, ?Hscb1 in *.
      assert (Hp : published (t1 ++ tr) = published tr)
        by (rewrite published_app; destruct Ht1 as [-> | ->]; reflexivity).
      assert (Hf : finalized (t1 ++ tr) = finalized tr)
        by (unfold finalized; rewrite Hp; reflexivity).
      assert (Hc : channel_calls (t1 ++ tr) = channel_calls tr)
        by (rewrite channel_calls_app; destruct Ht1 as [-> | ->]; reflexivity).
      assert (Hs : scan_calls (t1 ++ tr) = scan_calls tr)
        by (rewrite scan_calls_app; destruct Ht1 as [-> | ->]; reflexivity).
      rewrite Hp, Hf, Hc, Hs.
      repeat (split; [first [reflexivity | assumption | congruence]|]).
      exact Hall.
Qed.

End RunLemmas.

Section ApplicationSide.

Context {io : AvrIo}.

Ltac run_m :=
  unfold mbind, M_bind, mret, M_ret, gets, modify, emit, undefined.

(** The value the attach operations and [get_sample] write to [ADCSRA]
    while they work: the entry value with the interrupt-enable bit
    cleared. *)
Lemma attach_channel_callback_run cb m :
  attach_channel_callback cb m =
  Ok tt (set_channel_cb cb m)
    [EvADCSRA (u8 (Z.land (ADCSRA m) (Z.lnot (Z.shiftl 1 ADIE))));
     EvADCSRA (ADCSRA m)].
Proof. destruct m. reflexivity. Qed.

Lemma attach_scan_callback_run cb m :
  attach_scan_callback cb m =
  Ok tt (set_channel_scan_cb cb m)
    [EvADCSRA (u8 (Z.land (ADCSRA m) (Z.lnot (Z.shiftl 1 ADIE))));
     EvADCSRA (ADCSRA m)].
Proof. destruct m. reflexivity. Qed.

Lemma get_sample_run channel m v :
  sample m !! Z.to_nat channel = Some v ->
  get_sample channel m =
  Ok v m
    [EvADCSRA (u8 (Z.land (ADCSRA m) (Z.lnot (Z.shiftl 1 ADIE))));
     EvADCSRA (ADCSRA m)].
Proof.
  intros Hv. destruct m. cbn in Hv.
  unfold get_sample, load_sample, put_ADCSRA. run_m. cbn. rewrite Hv.
  reflexivity.
Qed.

Lemma get_sample_out_of_range channel m :
  sample m !! Z.to_nat channel = None ->
  get_sample channel m =
  UB [EvADCSRA (u8 (Z.land (ADCSRA m) (Z.lnot (Z.shiftl 1 ADIE))))].
Proof.
  intros Hv. destruct m. cbn in Hv.
  unfold get_sample, load_sample, put_ADCSRA. run_m. cbn. rewrite Hv.
  reflexivity.
Qed.

Lemma set_channel_cb_inv B cb m :
  session_inv B m -> session_inv B (set_channel_cb cb m).
Proof. intros [? ? ? ? ? ? ?]. constructor; assumption. Qed.

Lemma set_channel_scan_cb_inv B cb m :
  session_inv B m -> session_inv B (set_channel_scan_cb cb m).
Proof. intros [? ? ? ? ? ? ?]. constructor; assumption. Qed.

(** Every state of a session satisfies the invariant. *)
Lemma in_session_inv B m :
  0 <= B <= 65535 -> in_session B m -> session_inv B m.
Proof.
  intros HB Hs. induction Hs as
    [m0 cc n m tr Hok Hrun
    |m l h m' tr Hs IH Hraw Hrun
    |m cb m' tr Hs IH Hrun
    |m cb m' tr Hs IH Hrun].
  - destruct (begin_started m0 cc n Hok) as (c0 & a1 & a2 & _ & Hb).
    rewrite Hb in Hrun. injection Hrun as <- _.
    apply started_inv; [lia|exact Hok].
  - destruct (completes m) eqn:Hq.
    + destruct (ISR_publish B HB m l h IH Hraw Hq)
        as (c & s & _ & _ & _ & _ & _ & _ & _ & _ & _ & Hrun' & Hinv').
      cbv zeta in *. rewrite Hrun' in Hrun. injection Hrun as <- _.
      exact Hinv'.
    + destruct (ISR_quiet B HB m l h IH Hraw Hq) as (m1 & t1 & Hrun' & Hinv' & _).
      rewrite Hrun' in Hrun. injection Hrun as <- _. exact Hinv'.
  - rewrite attach_channel_callback_run in Hrun. injection Hrun as <- _.
    apply set_channel_cb_inv, IH.
  - rewrite attach_scan_callback_run in Hrun. injection Hrun as <- _.
    apply set_channel_scan_cb_inv, IH.
Qed.

End ApplicationSide.

Section ScanLength.

Context {io : AvrIo}.

Variable B : Z.
Hypothesis HB : 0 <= B <= 65535.

Lemma events_per_channel_min c : config_ok c -> 3 <= events_per_channel c.
Proof.
  intros Hc. pose proof (pow2_field _ Hc). unfold events_per_channel. lia.
Qed.

Lemma scan_events_nonneg cfg : Forall config_ok cfg -> 0 <= scan_events cfg.
Proof.
  induction 1 as [|c cfg Hc _ IH]; [cbn; lia|].
  change (scan_events (c :: cfg)) with (events_per_channel c + scan_events cfg).
  pose proof (events_per_channel_min c Hc). lia.
Qed.

Lemma scan_events_drop cfg i c :
  cfg !! i = Some c ->
  scan_events (drop i cfg) = events_per_channel c + scan_events (drop (S i) cfg).
Proof. intros Hl. rewrite (drop_S _ _ _ Hl). reflexivity. Qed.

(** In INIT the events left in the scan are those of the channels from the
    current one on. *)
Lemma scan_remaining_init m cfg :
  session_inv B m -> state m = ISR_STATE_INIT -> config m = Some cfg ->
  scan_remaining m = scan_events (drop (Z.to_nat (chan_i m)) cfg).
Proof.
  intros Hinv Hst Hc.
  destruct (inv_lookups B m Hinv) as (cfg' & c & s & Hc' & Hl & _).
  rewrite Hc in Hc'. injection Hc' as <-.
  unfold scan_remaining, remaining, current_config. rewrite Hst, Hc, Hl.
  symmetry. apply scan_events_drop, Hl.
Qed.

Lemma scan_remaining_quiet m m' :
  chan_i m' = chan_i m -> config m' = config m ->
  remaining m' = remaining m - 1 ->
  scan_remaining m' = scan_remaining m - 1.
Proof.
  intros Hi Hc Hr. unfold scan_remaining. rewrite Hi, Hc, Hr. lia.
Qed.

(** What a completing invocation does to the events left in the scan. *)
Lemma scan_remaining_publish m v s :
  session_inv B m ->
  session_inv B (finalize_state m v s) ->
  remaining m = 1 ->
  (chan_i m + 1 = chan_count m /\ scan_remaining m = 1 /\
   chan_i (finalize_state m v s) = 0) \/
  (chan_i m + 1 < chan_count m /\ 2 <= scan_remaining m /\
   chan_i (finalize_state m v s) = chan_i m + 1 /\
   scan_remaining (finalize_state m v s) = scan_remaining m - 1).
Proof.
  intros Hinv Hinv' Hrem.
  pose proof (inv_count _ _ Hinv) as Hn. pose proof (inv_chan_i _ _ Hinv) as Hi.
  destruct (inv_config _ _ Hinv) as (cfg & Hc & Hlen & Hok).
  destruct (next_chan_i_range m Hn Hi) as (Hu8 & _ & _).
  assert (Hnext : chan_i (finalize_state m v s) = next_chan_i m) by reflexivity.
  unfold next_chan_i in Hnext. rewrite Hu8 in Hnext.
  assert (Hsr : scan_remaining m
                = 1 + scan_events (drop (S (Z.to_nat (chan_i m))) cfg))
    by (unfold scan_remaining; rewrite Hrem, Hc; reflexivity).
  rewrite Hsr.
  destruct (chan_i m + 1 =? chan_count m) eqn:Ew.
  - apply Z.eqb_eq in Ew. left. split; [exact Ew|]. split; [|exact Hnext].
    rewrite drop_ge by lia. cbn. lia.
  - apply Z.eqb_neq in Ew. right. split; [lia|].
    rewrite (scan_remaining_init _ cfg Hinv' eq_refl Hc), Hnext.
    replace (Z.to_nat (chan_i m + 1)) with (S (Z.to_nat (chan_i m))) by lia.
    destruct (lookup_lt_is_Some_2 cfg (S (Z.to_nat (chan_i m)))) as [c' Hl'];
      [lia|].
    pose proof (Forall_lookup_1 _ _ _ _ Hok Hl') as Hok'.
    pose proof (events_per_channel_min c' Hok').
    pose proof (scan_events_nonneg (drop (S (S (Z.to_nat (chan_i m)))) cfg)
                  (Forall_drop _ _ _ Hok)).
    rewrite (scan_events_drop _ _ _ Hl'). split; [lia|]. split; [reflexivity|lia].
Qed.

Lemma scan_remaining_pos m : session_inv B m -> 1 <= scan_remaining m.
Proof.
  intros Hinv.
  destruct (inv_config _ _ Hinv) as (cfg & Hc & _ & Hok).
  pose proof (scan_events_nonneg (drop (S (Z.to_nat (chan_i m))) cfg)
                (Forall_drop _ _ _ Hok)).
  assert (Hraw : raw_of 0 0 <= B) by (change (raw_of 0 0) with 0; lia).
  unfold scan_remaining. rewrite Hc.
  destruct (completes m) eqn:Hq.
  - destruct (ISR_publish B HB m 0 0 Hinv Hraw Hq)
      as (c & s & _ & _ & _ & _ & _ & _ & Hrem & _). lia.
  - destruct (ISR_quiet B HB m 0 0 Hinv Hraw Hq)
      as (m1 & t1 & _ & _ & _ & _ & _ & _ & _ & _ & _ & _ & Hrem & _). lia.
Qed.

(** A run no longer than what is left of the scan: before the end, no scan
    callback and no wrap; at the end, the last channel has just been
    finalized, the index is back at 0 and the scan callback, when
    installed, has been called once, with the samples as they stand. *)
Lemma run_to_scan_end evs : forall m,
  session_inv B m ->
  readings_within B evs ->
  Z.of_nat (length evs) <= scan_remaining m ->
  exists m' tr,
    run evs m = Ok tt m' tr /\
    (Z.of_nat (length evs) < scan_remaining m ->
       scan_remaining m' = scan_remaining m - Z.of_nat (length evs) /\
       chan_i m' = chan_i m + Z.of_nat (length (finalized tr)) /\
       chan_i m' < chan_count m /\
       scan_calls tr = []) /\
    (Z.of_nat (length evs) = scan_remaining m ->
       state m' = ISR_STATE_INIT /\ chan_i m' = 0 /\
       Z.of_nat (length (finalized tr)) = chan_count m - chan_i m /\
       scan_calls tr =
         match channel_scan_cb m with
         | Some g => [(g, sample m')]
         | None => []
         end).
Proof.
  induction evs as [|[l h] evs IH]; intros m Hinv Hev Hlen.
  - exists m, []. split; [reflexivity|]. cbn [length Z.of_nat].
    pose proof (inv_chan_i _ _ Hinv).
    split; [intros _; cbn; repeat split; try lia; reflexivity|].
    intros Hz. exfalso.
    pose proof (scan_remaining_pos m Hinv). lia.
  - apply Forall_cons in Hev as [Hraw Hev]. cbn in Hraw.
    cbn [length] in Hlen |- *. rewrite Nat2Z.inj_succ in Hlen |- *.
    rewrite run_cons.
    destruct (completes m) eqn:Hq.
    + destruct (ISR_publish B HB m l h Hinv Hraw Hq)
        as (c & s & _ & _ & _ & _ & _ & _ & Hrem & _ & _ & Hrun & Hinv1).
      cbv zeta in *.
      set (v := rounded_average (sample_count_log2 c)
                  (sample_accumulator m + raw_of l h)) in *.
      rewrite Hrun.
      assert (Hfin : forall tr, finalized (finalize_events m v s ++ tr)
                                = chan_i m :: finalized tr).
      { intros tr. rewrite finalized_app. unfold finalized at 1.
        rewrite published_finalize_events. reflexivity. }
      pose proof (inv_count _ _ Hinv) as Hn.
      pose proof (inv_chan_i _ _ Hinv) as Hi.
      destruct (next_chan_i_range m Hn Hi) as (Hu8 & _ & _).
      destruct (scan_remaining_publish m v s Hinv Hinv1 Hrem)
        as [(Hw & Hsr & Hnext) | (Hw & Hsr & Hnext & Hsr')].
      * (* the last channel: the scan ends here *)
        destruct evs as [|e evs]; [|cbn [length] in Hlen; lia].
        exists (finalize_state m v s), (finalize_events m v s ++ []).
        split; [reflexivity|]. cbn [length Z.of_nat].
        split; [intros; lia|]. intros _.
        split; [reflexivity|]. split; [exact Hnext|].
        rewrite Hfin. cbn [length finalized published omap].
        split; [cbn; lia|].
        rewrite app_nil_r, scan_calls_finalize_events, Hu8.
        apply Z.eqb_eq in Hw. rewrite Hw. reflexivity.
      * destruct (IH _ Hinv1 Hev) as (m' & tr & Hrun' & Hlt & Heq); [lia|].
        rewrite Hrun'. exists m', (finalize_events m v s ++ tr).
        split; [reflexivity|]. rewrite Hfin. cbn [length].
        rewrite Nat2Z.inj_succ.
        assert (Hsc : scan_calls (finalize_events m v s ++ tr) = scan_calls tr).
        { rewrite scan_calls_app, scan_calls_finalize_events, Hu8.
          assert ((chan_i m + 1 =? chan_count m) = false) as ->
            by (apply Z.eqb_neq; lia).
          reflexivity. }
        rewrite Hsc.
        change (chan_count (finalize_state m v s)) with (chan_count m) in *.
        change (channel_scan_cb (finalize_state m v s))
          with (channel_scan_cb m) in *.
        split.
        -- intros Hl'. destruct Hlt as (H1 & H2 & H3 & H4); [lia|].
           repeat split; try assumption; lia.
        -- intros Hl'. destruct Heq as (H1 & H2 & H3 & H4); [lia|].
           repeat split; try assumption; lia.
    + destruct (ISR_quiet B HB m l h Hinv Hraw Hq)
        as (m1 & t1 & Hrun & Hinv1 & Ht1 & _ & _ & Hci1 & Hcnt1 & Hcfg1
            & _ & Hscb1 & Hrem2 & Hrem1 & _).
      rewrite Hrun.
      pose proof (scan_remaining_quiet m m1 Hci1 Hcfg1 Hrem1) as Hsr.
      destruct (IH _ Hinv1 Hev) as (m' & tr & Hrun' & Hlt & Heq); [lia|].
      rewrite Hrun'. exists m', (t1 ++ tr). split; [reflexivity|].
      assert (Hf : finalized (t1 ++ tr) = finalized tr)
        by (rewrite finalized_app; destruct Ht1 as [-> | ->]; reflexivity).
      assert (Hs : scan_calls (t1 ++ tr) = scan_calls tr)
        by (rewrite scan_calls_app; destruct Ht1 as [-> | ->]; reflexivity).
      rewrite Hf, Hs. rewrite Hci1, Hcnt1, Hscb1 in *.
      split.
      * intros Hl'. destruct Hlt as (H1 & H2 & H3 & H4); [lia|].
        repeat split; try assumption; lia.
      * intros Hl'. destruct Heq as (H1 & H2 & H3 & H4); [lia|].
        repeat split; try assumption; lia.
Qed.

End ScanLength.

Section Window.

Context {io : AvrIo}.

Variable B : Z.
Hypothesis HB : 0 <= B <= 65535.

Lemma completes_accumulate m :
  session_inv B m -> state m = ISR_STATE_ACCUMULATE ->
  completes m = true <-> sample_cnt m + 1 = sample_cnt_target m.
Proof.
  intros Hinv Hst.
  destruct (inv_lookups B m Hinv) as (cfg & c & s & Hc & Hl & Hok & _).
  pose proof (inv_window _ _ Hinv) as Hw. unfold window_inv in Hw.
  rewrite Hst in Hw. destruct Hw as (c' & Hcur & Ht & Hcnt & _).
  assert (c' = c) as ->.
  { unfold current_config in Hcur. rewrite Hc in Hcur. congruence. }
  pose proof (pow2_field _ Hok).
  unfold completes. rewrite Hst, u16_small by lia. apply Z.eqb_eq.
Qed.

Lemma current_config_frame m m' :
  config m' = config m -> chan_i m' = chan_i m ->
  current_config m' = current_config m.
Proof. intros Hc Hi. unfold current_config. rewrite Hc, Hi. reflexivity. Qed.

(** From ACCUMULATE, the readings that fill the window publish the rounded
    average of the accumulator plus their sum. *)
Lemma accumulate_window rs : forall m c,
  session_inv B m ->
  readings_within B rs ->
  state m = ISR_STATE_ACCUMULATE ->
  current_config m = Some c ->
  rs <> [] ->
  Z.of_nat (length rs) = sample_cnt_target m - sample_cnt m ->
  exists m' tr,
    run rs m = Ok tt m' tr /\
    published tr =
      [(chan_i m, rounded_average (sample_count_log2 c)
                    (sample_accumulator m + raw_sum rs))] /\
    sample m' !! Z.to_nat (chan_i m) =
      Some (rounded_average (sample_count_log2 c)
              (sample_accumulator m + raw_sum rs)).
Proof.
  induction rs as [|[l h] rs IH]; intros m c Hinv Hev Hst Hcur Hne Hlen;
    [congruence|].
  apply Forall_cons in Hev as [Hraw Hev]. cbn in Hraw.
  rewrite run_cons.
  change (raw_sum ((l, h) :: rs)) with (raw_of l h + raw_sum rs).
  cbn [length] in Hlen. rewrite Nat2Z.inj_succ in Hlen.
  destruct rs as [|r rs'].
  - (* the reading that reaches the target *)
    assert (Hq : completes m = true)
      by (apply (completes_accumulate m Hinv Hst); cbn in Hlen; lia).
    destruct (ISR_publish B HB m l h Hinv Hraw Hq)
      as (c' & s & Hcur' & _ & _ & _ & _ & _ & _ & _ & _ & Hrun & Hinv1).
    rewrite Hcur in Hcur'. injection Hcur' as <-.
    cbv zeta in *. rewrite Hrun. cbn [run].
    eexists _, _. split; [reflexivity|].
    change (raw_sum []) with 0. rewrite Z.add_0_r, app_nil_r.
    split; [apply published_finalize_events|].
    cbn. apply list_lookup_insert_eq.
    pose proof (inv_sample _ _ Hinv). pose proof (inv_chan_i _ _ Hinv). lia.
  - (* below the target *)
    assert (Hq : completes m = false).
    { destruct (completes m) eqn:E; [|reflexivity].
      apply (completes_accumulate m Hinv Hst) in E. cbn [length] in Hlen. lia. }
    destruct (ISR_quiet B HB m l h Hinv Hraw Hq)
      as (m1 & t1 & Hrun & Hinv1 & Ht1 & _ & _ & Hci1 & _ & Hcfg1
          & _ & _ & _ & _ & Hstep).
    unfold window_step in Hstep. rewrite Hst in Hstep.
    destruct Hstep as (Hst1 & Hcnt1 & Hacc1 & Htgt1).
    rewrite Hrun.
    destruct (IH m1 c Hinv1 Hev Hst1) as (m' & tr & Hrun' & Hpub & Hsmp).
    { rewrite (current_config_frame m m1 Hcfg1 Hci1). exact Hcur. }
    { discriminate. }
    { rewrite Htgt1, Hcnt1. lia. }
    rewrite Hrun'. exists m', (t1 ++ tr). split; [reflexivity|].
    rewrite Hci1, Hacc1 in *. rewrite Z.add_assoc.
    split; [|exact Hsmp].
    rewrite published_app, Hpub. destruct Ht1 as [-> | ->]; reflexivity.
Qed.

(** A whole window: from INIT, two discarded conversions and then as many
    readings as the averaging depth publish the rounded average of those
    readings. *)
Lemma channel_window m c d1 d2 rs :
  session_inv B m ->
  readings_within B (d1 :: d2 :: rs) ->
  state m = ISR_STATE_INIT ->
  current_config m = Some c ->
  Z.of_nat (length rs) = 2 ^ sample_count_log2 c ->
  exists m' tr,
    run (d1 :: d2 :: rs) m = Ok tt m' tr /\
    published tr =
      [(chan_i m, rounded_average (sample_count_log2 c) (raw_sum rs))] /\
    sample m' !! Z.to_nat (chan_i m) =
      Some (rounded_average (sample_count_log2 c) (raw_sum rs)).
Proof.
  intros Hinv Hev Hst Hcur Hlen.
  destruct d1 as [l1 h1], d2 as [l2 h2].
  apply Forall_cons in Hev as [Hraw1 Hev].
  apply Forall_cons in Hev as [Hraw2 Hev]. cbn in Hraw1, Hraw2.
  (* INIT *)
  assert (Hq : completes m = false) by (unfold completes; rewrite Hst; reflexivity).
  destruct (ISR_quiet B HB m l1 h1 Hinv Hraw1 Hq)
    as (m1 & t1 & Hrun1 & Hinv1 & Ht1 & _ & _ & Hci1 & _ & Hcfg1
        & _ & _ & _ & _ & Hstep1).
  unfold window_step in Hstep1. rewrite Hst in Hstep1.
  pose proof (current_config_frame m m1 Hcfg1 Hci1) as Hcur1.
  rewrite Hcur in Hcur1.
  pose proof (inv_window _ _ Hinv1) as Hw1. unfold window_inv in Hw1.
  rewrite Hstep1 in Hw1. destruct Hw1 as (c1 & Hc1 & Ht & Hcnt & Hacc).
  rewrite Hcur1 in Hc1. injection Hc1 as <-.
  (* DELAY *)
  assert (Hq1 : completes m1 = false)
    by (unfold completes; rewrite Hstep1; reflexivity).
  destruct (ISR_quiet B HB m1 l2 h2 Hinv1 Hraw2 Hq1)
    as (m2 & t2 & Hrun2 & Hinv2 & Ht2 & _ & _ & Hci2 & _ & Hcfg2
        & _ & _ & _ & _ & Hstep2).
  unfold window_step in Hstep2. rewrite Hstep1 in Hstep2.
  destruct Hstep2 as (Hst2 & Hcnt2 & Hacc2 & Htgt2).
  pose proof (current_config_frame m1 m2 Hcfg2 Hci2) as Hcur2.
  rewrite Hcur1 in Hcur2.
  (* ACCUMULATE *)
  assert (Hne : rs <> []).
  { intros ->. cbn in Hlen.
    pose proof (Z.pow_pos_nonneg 2 (sample_count_log2 c)).
    destruct (inv_lookups B m Hinv) as (cfg & c' & s & Hc & Hl & Hok & _).
    unfold current_config in Hcur. rewrite Hc, Hl in Hcur.
    injection Hcur as ->. unfold config_ok in Hok. lia. }
  destruct (accumulate_window rs m2 c Hinv2 Hev Hst2 Hcur2 Hne)
    as (m' & tr & Hrun & Hpub & Hsmp).
  { rewrite Htgt2, Hcnt2, Ht, Hcnt. lia. }
  rewrite Hacc2, Hacc, Z.add_0_l, Hci2, Hci1 in *.
  exists m', (t1 ++ t2 ++ tr).
  split.
  { rewrite run_cons, Hrun1, run_cons, Hrun2, Hrun. reflexivity. }
  split; [|exact Hsmp].
  rewrite !published_app, Hpub.
  destruct Ht1 as [-> | ->], Ht2 as [-> | ->]; reflexivity.
Qed.

End Window.

Section Scans.

Context {io : AvrIo}.

Variable B : Z.
Hypothesis HB : 0 <= B <= 65535.

Lemma run_app evs1 : forall evs2 m,
  run (evs1 ++ evs2) m =
  match run evs1 m with
  | Ok _ m1 t1 =>
      match run evs2 m1 with
      | Ok b m2 t2 => Ok b m2 (t1 ++ t2)
      | UB t2 => UB (t1 ++ t2)
      end
  | UB t1 => UB t1
  end.
Proof.
  induction evs1 as [|[l h] evs1 IH]; intros evs2 m.
  - cbn [app run]. unfold mret, M_ret. destruct (run evs2 m); reflexivity.
  - cbn [app]. rewrite !run_cons. destruct (ISR l h m) as [[] m1 t1|t1]; [|reflexivity].
    rewrite IH. destruct (run evs1 m1) as [[] m2 t2|t2]; [|reflexivity].
    destruct (run evs2 m2) as [[] m3 t3|t3]; rewrite app_assoc; reflexivity.
Qed.

(** The events of [k] whole scans, started at a scan boundary, finalize
    every channel [k] times, call the scan callback [k] times and end at a
    scan boundary. *)
Lemma run_scans k : forall evs m cfg,
  session_inv B m ->
  readings_within B evs ->
  state m = ISR_STATE_INIT -> chan_i m = 0 -> config m = Some cfg ->
  Z.of_nat (length evs) = Z.of_nat k * scan_events cfg ->
  exists m' tr,
    run evs m = Ok tt m' tr /\
    state m' = ISR_STATE_INIT /\ chan_i m' = 0 /\
    Z.of_nat (length (finalized tr)) = Z.of_nat k * chan_count m /\
    Z.of_nat (length (scan_calls tr)) =
      match channel_scan_cb m with
      | Some _ => Z.of_nat k
      | None => 0
      end.
Proof.
  induction k as [|k IH]; intros evs m cfg Hinv Hev Hst Hi Hc Hlen.
  - destruct evs; [|cbn [length] in Hlen; lia].
    exists m, []. cbn. destruct (channel_scan_cb m); auto.
  - assert (Hsr : scan_remaining m = scan_events cfg).
    { rewrite (scan_remaining_init B m cfg Hinv Hst Hc), Hi. reflexivity. }
    pose proof (scan_remaining_pos B HB m Hinv) as Hpos.
    set (T := Z.to_nat (scan_events cfg)).
    assert (HT : (T <= length evs)%nat) by nia.
    rewrite <- (take_drop T evs) in Hev |- *.
    apply Forall_app in Hev as [Hev1 Hev2].
    assert (Hl1 : length (take T evs) = T) by (rewrite length_take; lia).
    destruct (run_to_scan_end B HB (take T evs) m Hinv Hev1)
      as (m1 & t1 & Hrun1 & _ & Heq); [lia|].
    destruct Heq as (Hst1 & Hi1 & Hfin1 & Hsc1); [lia|].
    destruct (run_session B HB (take T evs) m Hinv Hev1)
      as (m1' & t1' & Hrun1' & Hinv1 & Hcnt1 & Hcfg1 & _ & Hscb1 & _).
    rewrite Hrun1 in Hrun1'. injection Hrun1' as <- <-.
    destruct (IH (drop T evs) m1 cfg Hinv1 Hev2 Hst1 Hi1)
      as (m' & tr & Hrun & Hst' & Hi' & Hfin & Hsc).
    { rewrite Hcfg1. exact Hc. }
    { rewrite length_drop. nia. }
    exists m', (t1 ++ tr). rewrite run_app, Hrun1, Hrun.
    split; [reflexivity|]. split; [exact Hst'|]. split; [exact Hi'|].
    rewrite finalized_app, scan_calls_app, !length_app, !Nat2Z.inj_add.
    rewrite Hfin, Hsc, Hfin1, Hsc1, Hcnt1, Hscb1, Hi.
    split; [lia|]. destruct (channel_scan_cb m); cbn [length]; lia.
Qed.

End Scans.

Section Publication.

Context {io : AvrIo}.

Lemma replay_no_store t : forall st,
  Forall (fun e => is_store e = false) t -> replay t st = st.
Proof.
  induction t as [|e t IH]; intros st Ht; [reflexivity|].
  apply Forall_cons in Ht as [He Ht]. cbn [replay fold_left].
  destruct e; try discriminate; exact (IH _ Ht).
Qed.

Lemma finalize_events_split m v s :
  finalize_events m v s =
  [EvConfig (chan_i m); EvSample (chan_i m) v; EvSn (chan_i m) (u8 (s + 1))]
    ++ finalize_tail m v.
Proof. reflexivity. Qed.

Lemma finalize_tail_no_store m v :
  Forall (fun e => is_store e = false) (finalize_tail m v).
Proof.
  unfold finalize_tail, channel_cb_events, scan_cb_events.
  destruct (channel_cb m), (u8 (chan_i m + 1) =? chan_count m),
    (channel_scan_cb m); repeat constructor.
Qed.

(** At every point of a completing invocation, a reader that sees the
    sequence number changed finds the new sample in the slot. *)
Lemma replay_finalize_prefix m v s k :
  (Z.to_nat (chan_i m) < length (sample m))%nat ->
  let st := replay (take k (finalize_events m v s)) (sn m, sample m) in
  st.1 !! Z.to_nat (chan_i m) <> sn m !! Z.to_nat (chan_i m) ->
  st.2 !! Z.to_nat (chan_i m) = Some v.
Proof.
  intros Hlen. rewrite finalize_events_split.
  destruct k as [|[|[|k]]]; cbn; try congruence.
  rewrite replay_no_store
    by (apply Forall_take, finalize_tail_no_store).
  intros _. cbn. apply list_lookup_insert_eq, Hlen.
Qed.

Lemma replay_finalize_events m v s :
  replay (finalize_events m v s) (sn m, sample m) =
  (sn (finalize_state m v s), sample (finalize_state m v s)).
Proof.
  rewrite finalize_events_split. cbn.
  rewrite replay_no_store by apply finalize_tail_no_store. reflexivity.
Qed.

End Publication.

Section SessionLemmas2.

Context {io : AvrIo}.

Lemma readings_any evs : readings_within U16_MAX evs.
Proof.
  apply Forall_forall. intros [l h] _. cbn.
  pose proof (raw_of_range l h). unfold U16_MAX. lia.
Qed.

Lemma U16_MAX_ok : 0 <= U16_MAX <= 65535.
Proof. unfold U16_MAX. lia. Qed.

Lemma ADC_MAX_ok : 0 <= ADC_MAX <= 65535.
Proof. unfold ADC_MAX. lia. Qed.

(** A session is [begin]'s events followed by those of the run from the
    state [begin] leaves. *)
Lemma session_started m0 cc n evs :
  begin_ok cc n ->
  exists c0 a1 a2,
    cc !! 0%nat = Some c0 /\
    session cc n evs m0 =
    match run evs (started cc n c0 m0) with
    | Ok b m t =>
        Ok b m ([EvADCSRA 0; EvChanI 0; EvConfig 0; EvADCSRA a1; EvADCSRA a2]
                  ++ t)
    | UB t =>
        UB ([EvADCSRA 0; EvChanI 0; EvConfig 0; EvADCSRA a1; EvADCSRA a2] ++ t)
    end.
Proof.
  intros Hok. destruct (begin_started m0 cc n Hok) as (c0 & a1 & a2 & Hl & Hb).
  exists c0, a1, a2. split; [exact Hl|].
  unfold session, mbind, M_bind. rewrite Hb. reflexivity.
Qed.

End SessionLemmas2.

Section Reachability.

Context {io : AvrIo}.

Lemma run_in_session B evs : forall m m' tr,
  in_session B m ->
  readings_within B evs ->
  run evs m = Ok tt m' tr ->
  in_session B m'.
Proof.
  induction evs as [|[l h] evs IH]; intros m m' tr Hs Hev Hrun.
  - cbn in Hrun. injection Hrun as <- _. exact Hs.
  - apply Forall_cons in Hev as [Hraw Hev]. cbn in Hraw.
    rewrite run_cons in Hrun.
    destruct (ISR l h m) as [[] m1 t1|t1] eqn:Hstep; [|discriminate].
    destruct (run evs m1) as [[] m2 t2|t2] eqn:Hrest; [|discriminate].
    injection Hrun as <- _.
    apply (IH m1 m2 t2); [|exact Hev|exact Hrest].
    exact (session_event B m l h m1 t1 Hs Hraw Hstep).
Qed.

Lemma session_in_session B m0 cc n evs m tr :
  begin_ok cc n ->
  readings_within B evs ->
  session cc n evs m0 = Ok tt m tr ->
  in_session B m.
Proof.
  intros Hok Hev Hrun. unfold session, mbind, M_bind in Hrun.
  destruct (begin cc n m0) as [[] m1 t1|t1] eqn:Hb; [|discriminate].
  destruct (run evs m1) as [[] m2 t2|t2] eqn:Hrest; [|discriminate].
  injection Hrun as <- _.
  apply (run_in_session B evs m1 m2 t2); [|exact Hev|exact Hrest].
  exact (session_begin B m0 cc n m1 t1 Hok Hb).
Qed.

End Reachability.

Section ConcreteSessions.

Context {io : AvrIo}.

(** A session always returns, in a state of the session. *)
Lemma session_machine_in_session B m0 cc n evs :
  0 <= B <= 65535 ->
  begin_ok cc n ->
  readings_within B evs ->
  in_session B (result_machine (session cc n evs m0)).
Proof.
  intros HB Hok Hev.
  destruct (session_started m0 cc n evs Hok) as (c0 & a1 & a2 & _ & Hs).
  pose proof (started_inv B m0 cc n c0 ltac:(lia) Hok) as Hinv.
  destruct (run_session _ HB evs _ Hinv Hev) as (m & tr & Hrun & _).
  rewrite Hrun in Hs.
  pose proof (session_in_session B m0 cc n evs _ _ Hok Hev Hs) as H.
  rewrite Hs. exact H.
Qed.

End ConcreteSessions.

(** * Properties of a scanning session *)

Section Claims.

Context {io : AvrIo}.

(** C1. When the handler accumulates the raw reading that makes the count
    reach the target [2 ^ averaging_log2], it publishes the accumulated sum
    itself at depth 0 and [(sum + target / 2) >> averaging_log2] otherwise
    (at depth 2 a sum of 5 publishes 1 and a sum of 7 publishes 2); and over
    a whole window, the sum is that of the raw readings accumulated after
    the two discarded conversions. *)
Theorem C1_publishes_rounded_average :
  (forall m l h,
     in_session U16_MAX m ->
     completes m = true ->
     exists c s,
       current_config m = Some c /\
       sample_cnt_target m = 2 ^ sample_count_log2 c /\
       sample_cnt m + 1 = sample_cnt_target m /\
       let sum := sample_accumulator m + raw_of l h in
       let v := if sample_count_log2 c =? 0 then sum
                else Z.shiftr (sum + sample_cnt_target m / 2)
                       (sample_count_log2 c) in
       ISR l h m = Ok tt (finalize_state m v s) (finalize_events m v s) /\
       published (finalize_events m v s) = [(chan_i m, v)] /\
       sample (finalize_state m v s) !! Z.to_nat (chan_i m) = Some v /\
       (sample_count_log2 c = 2 -> sum = 5 -> v = 1) /\
       (sample_count_log2 c = 2 -> sum = 7 -> v = 2)) /\
  (forall m c d1 d2 rs,
     in_session U16_MAX m ->
     state m = ISR_STATE_INIT ->
     current_config m = Some c ->
     Z.of_nat (length rs) = 2 ^ sample_count_log2 c ->
     exists m' tr,
       run (d1 :: d2 :: rs) m = Ok tt m' tr /\
       published tr =
         [(chan_i m, rounded_average (sample_count_log2 c) (raw_sum rs))] /\
       sample m' !! Z.to_nat (chan_i m) =
         Some (rounded_average (sample_count_log2 c) (raw_sum rs))).
Proof.
  split.
  - intros m l h Hs Hq.
    pose proof (in_session_inv _ m U16_MAX_ok Hs) as Hinv.
    assert (Hraw : raw_of l h <= U16_MAX)
      by (pose proof (raw_of_range l h); unfold U16_MAX; lia).
    destruct (ISR_publish _ U16_MAX_ok m l h Hinv Hraw Hq)
      as (c & s & Hcur & Hok & Hsn & Hst & Ht & Hcnt & _ & _ & _ & Hrun & _).
    cbv zeta in Hrun. exists c, s.
    split; [exact Hcur|]. split; [exact Ht|]. split; [exact Hcnt|].
    cbv zeta.
    assert (Hv : (if sample_count_log2 c =? 0
                  then sample_accumulator m + raw_of l h
                  else Z.shiftr (sample_accumulator m + raw_of l h
                                 + sample_cnt_target m / 2)
                         (sample_count_log2 c))
                 = rounded_average (sample_count_log2 c)
                     (sample_accumulator m + raw_of l h))
      by (unfold rounded_average; rewrite Ht; reflexivity).
    rewrite Hv.
    split; [exact Hrun|]. split; [apply published_finalize_events|].
    split.
    + cbn. apply list_lookup_insert_eq.
      pose proof (inv_sample _ _ Hinv). pose proof (inv_chan_i _ _ Hinv). lia.
    + unfold rounded_average. split; intros -> ->; reflexivity.
  - intros m c d1 d2 rs Hs Hst Hcur Hlen.
    pose proof (in_session_inv _ m U16_MAX_ok Hs) as Hinv.
    exact (channel_window _ U16_MAX_ok m c d1 d2 rs Hinv (readings_any _)
             Hst Hcur Hlen).
Qed.

(** C2. The sequence counters are all 0 when a session begins; an
    invocation of the handler that completes the averaging cycle increments
    the counter of the current channel by 1 modulo 256 and leaves the others
    alone, and every other invocation (INIT, DELAY, or an accumulation below
    the target) leaves every counter unchanged. *)
Theorem C2_sequence_counter :
  (forall m0 cc n,
     begin_ok cc n ->
     exists m tr,
       begin cc n m0 = Ok tt m tr /\
       sn m = replicate (Z.to_nat n) 0) /\
  (forall m l h,
     in_session U16_MAX m ->
     exists m' tr,
       ISR l h m = Ok tt m' tr /\
       (state m <> ISR_STATE_ACCUMULATE -> completes m = false) /\
       (state m = ISR_STATE_ACCUMULATE ->
        completes m = true <-> sample_cnt m + 1 = sample_cnt_target m) /\
       (completes m = false -> sn m' = sn m) /\
       (completes m = true ->
        exists s,
          sn m !! Z.to_nat (chan_i m) = Some s /\
          sn m' = <[Z.to_nat (chan_i m) := (s + 1) mod 256]> (sn m) /\
          sn m' !! Z.to_nat (chan_i m) = Some ((s + 1) mod 256) /\
          (s + 1) mod 256 <> s /\
          forall j, j <> Z.to_nat (chan_i m) -> sn m' !! j = sn m !! j)).
Proof.
  split.
  - intros m0 cc n Hok.
    destruct (begin_started m0 cc n Hok) as (c0 & a1 & a2 & _ & Hb).
    eexists _, _. split; [exact Hb|reflexivity].
  - intros m l h Hs.
    pose proof (in_session_inv _ m U16_MAX_ok Hs) as Hinv.
    assert (Hraw : raw_of l h <= U16_MAX)
      by (pose proof (raw_of_range l h); unfold U16_MAX; lia).
    assert (Hphase : state m <> ISR_STATE_ACCUMULATE -> completes m = false).
    { intros Hne. unfold completes. destruct (state m); congruence. }
    assert (Hiff : state m = ISR_STATE_ACCUMULATE ->
                   completes m = true <->
                   sample_cnt m + 1 = sample_cnt_target m)
      by (intros Hst; exact (completes_accumulate _ m Hinv Hst)).
    destruct (completes m) eqn:Hq.
    + destruct (ISR_publish _ U16_MAX_ok m l h Hinv Hraw Hq)
        as (c & s & _ & _ & Hsn & Hst & _ & _ & _ & _ & _ & Hrun & _).
      cbv zeta in Hrun. eexists _, _. split; [exact Hrun|].
      split; [exact Hphase|].
      split; [exact Hiff|].
      split; [discriminate|]. intros _. exists s.
      split; [exact Hsn|]. split; [reflexivity|].
      split; [cbn; apply list_lookup_insert_eq; eapply lookup_lt_Some; exact Hsn|].
      split.
      * Z.div_mod_to_equations. lia.
      * intros j Hj. cbn. apply list_lookup_insert_ne. congruence.
    + destruct (ISR_quiet _ U16_MAX_ok m l h Hinv Hraw Hq)
        as (m1 & t1 & Hrun & _ & _ & Hsn & _).
      exists m1, t1. split; [exact Hrun|]. split; [exact Hphase|].
      split; [exact Hiff|].
      split; [intros _; exact Hsn|discriminate].
Qed.

(** C3. In every session with [n >= 1] channels the channel indices at
    which a sample is published are [0, 1, ..., n-1, 0, 1, ...], in that
    order and without a gap, whatever the events; and the events of [k]
    whole scans publish [k * n] samples. *)
Theorem C3_round_robin_order :
  forall m0 cc n evs,
    begin_ok cc n ->
    exists m tr,
      session cc n evs m0 = Ok tt m tr /\
      finalized tr = round_robin n 0 (length (finalized tr)) /\
      chan_i m = Z.of_nat (length (finalized tr)) mod n /\
      (forall k,
         Z.of_nat (length evs)
           = Z.of_nat k * scan_events (take (Z.to_nat n) cc) ->
         Z.of_nat (length (finalized tr)) = Z.of_nat k * n).
Proof.
  intros m0 cc n evs Hok.
  destruct (session_started m0 cc n evs Hok) as (c0 & a1 & a2 & _ & Hs).
  pose proof (started_inv U16_MAX m0 cc n c0 ltac:(unfold U16_MAX; lia) Hok)
    as Hinv.
  destruct (run_session _ U16_MAX_ok evs _ Hinv (readings_any evs))
    as (m & tr & Hrun & _ & _ & _ & _ & _ & Hrr & Hci & _).
  rewrite Hrun in Hs. eexists _, _. split; [exact Hs|].
  cbn in Hrr, Hci.
  change (finalized ([EvADCSRA 0; EvChanI 0; EvConfig 0; EvADCSRA a1;
                      EvADCSRA a2] ++ tr)) with (finalized tr).
  split; [exact Hrr|]. split; [exact Hci|].
  intros k Hk.
  destruct (run_scans _ U16_MAX_ok k evs _ (take (Z.to_nat n) cc) Hinv
              (readings_any evs) eq_refl eq_refl eq_refl Hk)
    as (m' & tr' & Hrun' & _ & _ & Hfin & _).
  rewrite Hrun in Hrun'. injection Hrun' as _ <-. exact Hfin.
Qed.

(** C4. With a scan callback installed, the handler calls it in the
    invocation that finalizes the last channel and in no other: after the
    sample and sequence stores of that channel and after its per-channel
    callback, before the channel index is set back to 0, and with the
    samples of all [n] channels as they then stand.  Over a session that is
    one call per [n] finalizations, and the events of the first whole scan
    make exactly one call. *)
Theorem C4_scan_callback :
  (forall m l h g,
     in_session U16_MAX m ->
     channel_scan_cb m = Some g ->
     exists m' tr,
       ISR l h m = Ok tt m' tr /\
       if completes m && (chan_i m + 1 =? chan_count m) then
         exists v s,
           tr = [EvConfig (chan_i m); EvSample (chan_i m) v;
                 EvSn (chan_i m) s]
                  ++ channel_cb_events m (chan_i m) v
                  ++ [EvChanI (chan_count m); EvScanCb g (sample m');
                      EvChanI 0] /\
           sample m' !! Z.to_nat (chan_i m) = Some v /\
           length (sample m') = Z.to_nat (chan_count m) /\
           chan_i m' = 0
       else scan_calls tr = []) /\
  (forall m0 cc n evs g,
     begin_ok cc n ->
     channel_scan_cb m0 = Some g ->
     exists m tr,
       session cc n evs m0 = Ok tt m tr /\
       Z.of_nat (length (scan_calls tr)) =
         Z.of_nat (length (finalized tr)) / n /\
       Forall (fun c => c.1 = g /\ length c.2 = Z.to_nat n) (scan_calls tr) /\
       (Z.of_nat (length evs) = scan_events (take (Z.to_nat n) cc) ->
        scan_calls tr = [(g, sample m)])).
Proof.
  split.
  - intros m l h g Hs Hg.
    pose proof (in_session_inv _ m U16_MAX_ok Hs) as Hinv.
    assert (Hraw : raw_of l h <= U16_MAX)
      by (pose proof (raw_of_range l h); unfold U16_MAX; lia).
    pose proof (inv_count _ _ Hinv) as Hn.
    pose proof (inv_chan_i _ _ Hinv) as Hi.
    destruct (next_chan_i_range m Hn Hi) as (Hu8 & _ & _).
    destruct (completes m) eqn:Hq; cbn [andb].
    + destruct (ISR_publish _ U16_MAX_ok m l h Hinv Hraw Hq)
        as (c & s & _ & _ & Hsn & _ & _ & _ & _ & _ & _ & Hrun & Hinv').
      cbv zeta in Hrun, Hinv'. eexists _, _. split; [exact Hrun|].
      destruct (chan_i m + 1 =? chan_count m) eqn:Ew.
      * apply Z.eqb_eq in Ew. eexists _, _.
        split; [|split; [|split]].
        -- unfold finalize_events, scan_cb_events.
           rewrite Hu8, Hg, Ew, Z.eqb_refl. reflexivity.
        -- cbn. apply list_lookup_insert_eq.
           pose proof (inv_sample _ _ Hinv). lia.
        -- apply (inv_sample _ _ Hinv').
        -- cbn. unfold next_chan_i. rewrite Hu8, Ew, Z.eqb_refl. reflexivity.
      * rewrite scan_calls_finalize_events, Hu8, Ew. reflexivity.
    + destruct (ISR_quiet _ U16_MAX_ok m l h Hinv Hraw Hq)
        as (m1 & t1 & Hrun & _ & Ht1 & _).
      exists m1, t1. split; [exact Hrun|].
      destruct Ht1 as [-> | ->]; reflexivity.
  - intros m0 cc n evs g Hok Hg.
    destruct (session_started m0 cc n evs Hok) as (c0 & a1 & a2 & _ & Hs).
    pose proof (started_inv U16_MAX m0 cc n c0 ltac:(unfold U16_MAX; lia) Hok)
      as Hinv.
    destruct (run_session _ U16_MAX_ok evs _ Hinv (readings_any evs))
      as (m & tr & Hrun & _ & _ & _ & _ & _ & _ & _ & _ & Hcount & Hall).
    rewrite Hrun in Hs. eexists _, _. split; [exact Hs|].
    cbn in Hcount, Hall. rewrite Hg in Hcount, Hall.
    change (scan_calls ([EvADCSRA 0; EvChanI 0; EvConfig 0; EvADCSRA a1;
                         EvADCSRA a2] ++ tr)) with (scan_calls tr).
    change (finalized ([EvADCSRA 0; EvChanI 0; EvConfig 0; EvADCSRA a1;
                        EvADCSRA a2] ++ tr)) with (finalized tr).
    split; [exact Hcount|]. split.
    + eapply Forall_impl; [exact Hall|]. cbn. intros [g' a] [Hg' Ha].
      cbn in *. split; [congruence|exact Ha].
    + intros Hlen.
      destruct (run_to_scan_end _ U16_MAX_ok evs _ Hinv (readings_any evs))
        as (m' & tr' & Hrun' & _ & Heq).
      { rewrite (scan_remaining_init _ _ _ Hinv eq_refl eq_refl).
        change (drop _ _) with (take (Z.to_nat n) cc). lia. }
      rewrite Hrun in Hrun'. injection Hrun' as <- <-.
      destruct Heq as (_ & _ & _ & Hsc).
      { rewrite (scan_remaining_init _ _ _ Hinv eq_refl eq_refl).
        change (drop _ _) with (take (Z.to_nat n) cc). lia. }
      cbn in Hsc. rewrite Hg in Hsc. exact Hsc.
Qed.

(** C5. In every invocation that finalizes a channel, the sample is stored
    in the channel's slot before the channel's sequence number is, and
    nothing else is stored: so at every point of the invocation at which the
    slot's sequence number differs from its value on entry, the slot already
    holds the finalized sample. *)
Theorem C5_sample_before_sequence :
  forall m l h,
    in_session U16_MAX m ->
    completes m = true ->
    exists m' tr v s rest,
      ISR l h m = Ok tt m' tr /\
      sn m !! Z.to_nat (chan_i m) = Some s /\
      tr = [EvConfig (chan_i m); EvSample (chan_i m) v;
            EvSn (chan_i m) ((s + 1) mod 256)] ++ rest /\
      Forall (fun e => is_store e = false) rest /\
      replay tr (sn m, sample m) = (sn m', sample m') /\
      sample m' !! Z.to_nat (chan_i m) = Some v /\
      forall k,
        let st := replay (take k tr) (sn m, sample m) in
        st.1 !! Z.to_nat (chan_i m) <> sn m !! Z.to_nat (chan_i m) ->
        st.2 !! Z.to_nat (chan_i m) = Some v.
Proof.
  intros m l h Hs Hq.
  pose proof (in_session_inv _ m U16_MAX_ok Hs) as Hinv.
  assert (Hraw : raw_of l h <= U16_MAX)
    by (pose proof (raw_of_range l h); unfold U16_MAX; lia).
  destruct (ISR_publish _ U16_MAX_ok m l h Hinv Hraw Hq)
    as (c & s & _ & _ & Hsn & _ & _ & _ & _ & _ & _ & Hrun & _).
  cbv zeta in Hrun.
  assert (Hlen : (Z.to_nat (chan_i m) < length (sample m))%nat).
  { pose proof (inv_sample _ _ Hinv). pose proof (inv_chan_i _ _ Hinv). lia. }
  eexists _, _, _, s, _. split; [exact Hrun|]. split; [exact Hsn|].
  split; [apply finalize_events_split|].
  split; [apply finalize_tail_no_store|].
  split; [apply replay_finalize_events|].
  split; [cbn; apply list_lookup_insert_eq, Hlen|].
  intros k. apply replay_finalize_prefix, Hlen.
Qed.
(** C6. The handler spends one event in INIT, one in DELAY and
    [2 ^ averaging_log2] in ACCUMULATE on each channel, so a full scan takes
    the sum over the channels of [2 + 2 ^ averaging_log2] events: that many
    events of a fresh session finalize every channel once, fewer do not, and
    [k] times as many finalize every channel [k] times.  That is one event
    per channel more than the sum of one settle event and [target_count]
    events. *)
Theorem C6_scan_length :
  forall cc n,
    begin_ok cc n ->
    let cfg := take (Z.to_nat n) cc in
    scan_takes cc n (scan_events cfg) /\
    scan_events cfg = spec_scan_events cfg + n /\
    (forall k m0 evs,
       Z.of_nat (length evs) = Z.of_nat k * scan_events cfg ->
       exists m tr,
         session cc n evs m0 = Ok tt m tr /\
         Z.of_nat (length (finalized tr)) = Z.of_nat k * n /\
         state m = ISR_STATE_INIT /\ chan_i m = 0).
Proof.
  intros cc n Hok cfg.
  assert (Hinv : forall m0 c0, session_inv U16_MAX (started cc n c0 m0))
    by (intros; apply started_inv; [unfold U16_MAX; lia|exact Hok]).
  assert (Hsr : forall m0 c0, scan_remaining (started cc n c0 m0)
                              = scan_events cfg).
  { intros m0 c0.
    rewrite (scan_remaining_init _ _ _ (Hinv m0 c0) eq_refl eq_refl).
    reflexivity. }
  split; [|split].
  - intros m0 evs.
    destruct (session_started m0 cc n evs Hok) as (c0 & a1 & a2 & _ & Hs).
    split; intros Hlen.
    + destruct (run_to_scan_end _ U16_MAX_ok evs _ (Hinv m0 c0)
                  (readings_any evs)) as (m & tr & Hrun & _ & Heq);
        [rewrite Hsr; lia|].
      rewrite Hrun in Hs. eexists _, _. split; [exact Hs|].
      destruct Heq as (_ & _ & Hfin & _); [rewrite Hsr; lia|].
      cbn in Hfin. rewrite Z.sub_0_r in Hfin. exact Hfin.
    + destruct (run_to_scan_end _ U16_MAX_ok evs _ (Hinv m0 c0)
                  (readings_any evs)) as (m & tr & Hrun & Hlt & _);
        [rewrite Hsr; lia|].
      rewrite Hrun in Hs. eexists _, _. split; [exact Hs|].
      destruct Hlt as (_ & Hci & Hbound & _); [rewrite Hsr; lia|].
      cbn in Hci, Hbound.
      change (finalized ([EvADCSRA 0; EvChanI 0; EvConfig 0; EvADCSRA a1;
                          EvADCSRA a2] ++ tr)) with (finalized tr).
      lia.
  - destruct Hok as (Hn & Hlen & _).
    assert (Hl : Z.of_nat (length cfg) = n)
      by (unfold cfg; rewrite length_take; lia).
    rewrite <- Hl. clear. induction cfg as [|c cfg IH]; [reflexivity|].
    cbn [scan_events spec_scan_events foldr length].
    fold (scan_events cfg). fold (spec_scan_events cfg).
    rewrite IH, Nat2Z.inj_succ. unfold events_per_channel. lia.
  - intros k m0 evs Hlen.
    destruct (session_started m0 cc n evs Hok) as (c0 & a1 & a2 & _ & Hs).
    destruct (run_scans _ U16_MAX_ok k evs _ cfg (Hinv m0 c0)
                (readings_any evs) eq_refl eq_refl eq_refl Hlen)
      as (m & tr & Hrun & Hst & Hci & Hfin & _).
    rewrite Hrun in Hs. eexists _, _. split; [exact Hs|].
    split; [exact Hfin|]. split; [exact Hst|exact Hci].
Qed.

(** C7. [begin] called with a channel count of 0 reads the descriptor
    [config[0]] of the empty table it has just allocated, which is outside
    the block; and the handler, entered in INIT over an empty table, reads
    the descriptor at the current index in the same way. *)
Theorem C7_begin_zero_reads_descriptor :
  (forall m0 cc,
     begin cc 0 m0 = UB [EvADCSRA 0; EvChanI 0; EvConfig 0]) /\
  (forall m l h,
     ISR l h (set_state ISR_STATE_INIT (set_config (Some []) m))
     = UB [EvConfig (chan_i m)]).
Proof.
  split.
  - intros m0 cc.
    unfold begin, end_, config_at, put_chan_i, put_ADCSRA,
      mbind, M_bind, mret, M_ret, gets, modify, emit, undefined.
    destruct (config m0) eqn:Ec; cbn; rewrite ?Ec; cbn;
      rewrite decide_True by (cbn; lia); reflexivity.
  - intros m l h. destruct m. reflexivity.
Qed.

(** C8. [attach_channel_callback], [attach_scan_callback] and [get_sample]
    clear the interrupt-enable bit of ADCSRA and, as their last store, put
    back the value ADCSRA had on entry; on return the machine is the one of
    entry, but for the callback pointer an attach operation installs. *)
Theorem C8_suppression_restores_state :
  forall m,
    (forall cb,
       attach_channel_callback cb m =
       Ok tt (set_channel_cb cb m)
         [EvADCSRA (u8 (Z.land (ADCSRA m) (Z.lnot (Z.shiftl 1 ADIE))));
          EvADCSRA (ADCSRA m)] /\
       ADCSRA (set_channel_cb cb m) = ADCSRA m /\
       channel_scan_cb (set_channel_cb cb m) = channel_scan_cb m) /\
    (forall cb,
       attach_scan_callback cb m =
       Ok tt (set_channel_scan_cb cb m)
         [EvADCSRA (u8 (Z.land (ADCSRA m) (Z.lnot (Z.shiftl 1 ADIE))));
          EvADCSRA (ADCSRA m)] /\
       ADCSRA (set_channel_scan_cb cb m) = ADCSRA m /\
       channel_cb (set_channel_scan_cb cb m) = channel_cb m) /\
    (forall channel v,
       sample m !! Z.to_nat channel = Some v ->
       get_sample channel m =
       Ok v m
         [EvADCSRA (u8 (Z.land (ADCSRA m) (Z.lnot (Z.shiftl 1 ADIE))));
          EvADCSRA (ADCSRA m)]).
Proof.
  intros m. split; [|split].
  - intros cb. split; [apply attach_channel_callback_run|]. split; reflexivity.
  - intros cb. split; [apply attach_scan_callback_run|]. split; reflexivity.
  - intros channel v Hv. apply get_sample_run, Hv.
Qed.
(** C9. In a session whose raw readings are at most 1023 and whose
    averaging depths are at most 15: the target [1 << averaging_log2] is the
    power of two, at most 32768, so it fits 16 bits; the accumulator never
    exceeds [32768 * 1023], nor [32768 * 1023 + 16384] with the rounding
    bias, so it fits 32 bits; and every finalized average is at most 1023,
    so the cast to the 16-bit slot keeps it. *)
Theorem C9_no_overflow :
  forall m l h,
    in_session ADC_MAX m ->
    raw_of l h <= ADC_MAX ->
    exists c m' tr,
      current_config m = Some c /\
      0 <= sample_count_log2 c <= 15 /\
      ISR l h m = Ok tt m' tr /\
      Z.shiftl 1 (sample_count_log2 c) = 2 ^ sample_count_log2 c /\
      2 ^ sample_count_log2 c <= 32768 /\
      u16 (Z.shiftl 1 (sample_count_log2 c)) = 2 ^ sample_count_log2 c /\
      (state m = ISR_STATE_INIT ->
       sample_cnt_target m' = 2 ^ sample_count_log2 c) /\
      (state m = ISR_STATE_ACCUMULATE ->
       sample_cnt_target m = 2 ^ sample_count_log2 c /\
       0 <= sample_accumulator m + raw_of l h <= 32768 * 1023 /\
       u32 (sample_accumulator m + raw_of l h)
         = sample_accumulator m + raw_of l h /\
       (completes m = false ->
        sample_accumulator m' = sample_accumulator m + raw_of l h)) /\
      (completes m = true ->
       let biased := sample_accumulator m + raw_of l h
                     + sample_cnt_target m / 2 in
       let v := rounded_average (sample_count_log2 c)
                  (sample_accumulator m + raw_of l h) in
       0 <= biased <= 32768 * 1023 + 16384 /\
       u32 biased = biased /\
       0 <= v <= 1023 /\
       u16 v = v /\
       sample m' !! Z.to_nat (chan_i m) = Some v) /\
      Forall (fun v => 0 <= v <= 1023) (sample m').
Proof.
  intros m l h Hs Hraw.
  pose proof (in_session_inv _ m ADC_MAX_ok Hs) as Hinv.
  destruct (inv_lookups _ m Hinv) as (cfg & c & s & Hc & Hl & Hok & _).
  assert (Hcur : current_config m = Some c)
    by (unfold current_config; rewrite Hc; exact Hl).
  pose proof (pow2_field _ Hok) as HT.
  pose proof (raw_of_range l h) as Hr.
  pose proof (inv_window _ _ Hinv) as Hw. unfold window_inv in Hw.
  unfold ADC_MAX in *.
  assert (Hacc : state m = ISR_STATE_ACCUMULATE ->
            sample_cnt_target m = 2 ^ sample_count_log2 c /\
            0 <= sample_cnt m < sample_cnt_target m /\
            0 <= sample_accumulator m <= sample_cnt m * 1023).
  { intros Hst. rewrite Hst in Hw. destruct Hw as (c' & Hcur' & Hw).
    rewrite Hcur in Hcur'. injection Hcur' as <-. exact Hw. }
  assert (Hacc' : state m = ISR_STATE_ACCUMULATE ->
            sample_cnt_target m = 2 ^ sample_count_log2 c /\
            0 <= sample_accumulator m + raw_of l h <= 32768 * 1023 /\
            u32 (sample_accumulator m + raw_of l h)
              = sample_accumulator m + raw_of l h).
  { intros Hst. destruct (Hacc Hst) as (Ht & Hcnt & Hsum).
    split; [exact Ht|]. assert (0 <= sample_accumulator m + raw_of l h
                                <= 32768 * 1023) by nia.
    split; [assumption|apply u32_small; lia]. }
  exists c.
  destruct (completes m) eqn:Hq.
  - destruct (ISR_publish _ ADC_MAX_ok m l h Hinv Hraw Hq)
      as (c' & s' & Hcur' & _ & _ & Hst & Ht & Hcnt & _ & Hsum & Hv & Hrun
          & Hinv').
    rewrite Hcur in Hcur'. injection Hcur' as <-. cbv zeta in *.
    eexists _, _. split; [exact Hcur|]. split; [exact Hok|].
    split; [exact Hrun|]. split; [apply Z.shiftl_1_l|]. split; [lia|].
    split; [apply shiftl_one_field, Hok|].
    split; [rewrite Hst; discriminate|].
    split.
    { intros _. destruct (Hacc' Hst) as (H1 & H2 & H3).
      repeat split; try assumption; try lia; try discriminate. }
    split; [|exact (inv_sample_bound _ _ Hinv')].
    intros _.
    assert (Hhalf : 0 <= sample_cnt_target m / 2 <= 16384).
    { rewrite Ht. split; [apply Z.div_pos; lia|].
      apply Z.div_le_upper_bound; lia. }
    destruct (Hacc' Hst) as (_ & H2 & _).
    unfold ADC_MAX in Hv.
    split; [lia|]. split; [apply u32_small; lia|]. split; [exact Hv|].
    split; [apply u16_small; lia|].
    cbn. apply list_lookup_insert_eq.
    pose proof (inv_sample _ _ Hinv). pose proof (inv_chan_i _ _ Hinv). lia.
  - destruct (ISR_quiet _ ADC_MAX_ok m l h Hinv Hraw Hq)
      as (m1 & t1 & Hrun & Hinv1 & _ & _ & Hsmp & Hci & _ & Hcfg & _ & _ & _
          & _ & Hstep).
    exists m1, t1. split; [exact Hcur|]. split; [exact Hok|].
    split; [exact Hrun|]. split; [apply Z.shiftl_1_l|]. split; [lia|].
    split; [apply shiftl_one_field, Hok|].
    unfold window_step in Hstep.
    split.
    { intros Hst. rewrite Hst in Hstep.
      pose proof (inv_window _ _ Hinv1) as Hw1. unfold window_inv in Hw1.
      rewrite Hstep in Hw1. destruct Hw1 as (c1 & Hcur1 & Ht1 & _).
      rewrite (current_config_frame m m1 Hcfg Hci), Hcur in Hcur1.
      injection Hcur1 as <-. exact Ht1. }
    split.
    { intros Hst. destruct (Hacc' Hst) as (H1 & H2 & H3).
      rewrite Hst in Hstep. destruct Hstep as (_ & _ & Hacc1 & _).
      repeat split; try assumption; lia. }
    split; [discriminate|exact (inv_sample_bound _ _ Hinv1)].
Qed.

(** C10. [begin] leaves both callback pointers as it finds them, and so do
    [end], the handler and [get_sample]; the constructor sets both to null
    and each attach operation sets its own.  So callbacks installed before
    a stop and a new [begin] fire in the new session: the per-channel one
    at every publication, with the channel and the value published, the
    scan one once per [n] finalizations. *)
Theorem C10_begin_keeps_callbacks :
  (forall m0 cc n m tr,
     begin cc n m0 = Ok tt m tr ->
     channel_cb m = channel_cb m0 /\ channel_scan_cb m = channel_scan_cb m0) /\
  (forall m0,
     exists m tr,
       end_ m0 = Ok tt m tr /\
       channel_cb m = channel_cb m0 /\ channel_scan_cb m = channel_scan_cb m0) /\
  (channel_cb ScanADC = None /\ channel_scan_cb ScanADC = None) /\
  (forall m cb,
     exists m' tr,
       attach_channel_callback cb m = Ok tt m' tr /\
       channel_cb m' = cb /\ channel_scan_cb m' = channel_scan_cb m) /\
  (forall m cb,
     exists m' tr,
       attach_scan_callback cb m = Ok tt m' tr /\
       channel_scan_cb m' = cb /\ channel_cb m' = channel_cb m) /\
  (forall m l h,
     in_session U16_MAX m ->
     exists m' tr,
       ISR l h m = Ok tt m' tr /\
       channel_cb m' = channel_cb m /\ channel_scan_cb m' = channel_scan_cb m) /\
  (forall m channel v m' tr,
     get_sample channel m = Ok v m' tr ->
     channel_cb m' = channel_cb m /\ channel_scan_cb m' = channel_scan_cb m) /\
  (forall m0 cc n evs f g,
     begin_ok cc n ->
     channel_cb m0 = Some f ->
     channel_scan_cb m0 = Some g ->
     exists m tr,
       (end_;; session cc n evs) m0 = Ok tt m tr /\
       channel_cb m = Some f /\ channel_scan_cb m = Some g /\
       channel_calls tr = map (fun p => (f, p.1, p.2)) (published tr) /\
       Forall (fun c => c.1 = g) (scan_calls tr) /\
       Z.of_nat (length (scan_calls tr)) =
         Z.of_nat (length (finalized tr)) / n).
Proof.
  assert (Hend : forall m0, exists m tr,
            end_ m0 = Ok tt m tr /\
            channel_cb m = channel_cb m0 /\
            channel_scan_cb m = channel_scan_cb m0 /\
            Forall (fun e => exists a, e = EvADCSRA a) tr).
  { intros m0. unfold end_, put_ADCSRA, mbind, M_bind, mret, M_ret, gets,
      modify, emit. cbn. destruct (config m0); cbn;
      eexists _, _; (split; [reflexivity|]); repeat split;
      repeat constructor; eexists; reflexivity. }
  split; [|split; [|split; [|split; [|split; [|split; [|split]]]]]].
  - intros m0 cc n m tr.
    unfold begin, end_, config_at, put_chan_i, put_ADCSRA,
      mbind, M_bind, mret, M_ret, gets, modify, emit, undefined.
    destruct (config m0) eqn:Ec; cbn; rewrite ?Ec; cbn;
      (destruct (decide (Z.to_nat n <= length cc)%nat); cbn;
       [|discriminate]);
      (destruct (take (Z.to_nat n) cc !! Z.to_nat 0); cbn; [|discriminate]);
      intros H; injection H as <- _; split; reflexivity.
  - intros m0. destruct (Hend m0) as (m & tr & H1 & H2 & H3 & _). eauto.
  - split; reflexivity.
  - intros m cb. eexists _, _.
    split; [apply attach_channel_callback_run|]. split; reflexivity.
  - intros m cb. eexists _, _.
    split; [apply attach_scan_callback_run|]. split; reflexivity.
  - intros m l h Hs.
    pose proof (in_session_inv _ m U16_MAX_ok Hs) as Hinv.
    assert (Hraw : raw_of l h <= U16_MAX)
      by (pose proof (raw_of_range l h); unfold U16_MAX; lia).
    destruct (completes m) eqn:Hq.
    + destruct (ISR_publish _ U16_MAX_ok m l h Hinv Hraw Hq)
        as (c & s & _ & _ & _ & _ & _ & _ & _ & _ & _ & Hrun & _).
      cbv zeta in Hrun. eexists _, _. split; [exact Hrun|].
      split; reflexivity.
    + destruct (ISR_quiet _ U16_MAX_ok m l h Hinv Hraw Hq)
        as (m1 & t1 & Hrun & _ & _ & _ & _ & _ & _ & _ & Hcb & Hscb & _).
      eauto.
  - intros m channel v m' tr.
    destruct (sample m !! Z.to_nat channel) as [v'|] eqn:E.
    + rewrite (get_sample_run _ _ _ E). intros H. injection H as _ <- _.
      split; reflexivity.
    + rewrite (get_sample_out_of_range _ _ E). discriminate.
  - intros m0 cc n evs f g Hok Hf Hg.
    destruct (Hend m0) as (m1 & t1 & He & Hcb1 & Hscb1 & Ht1).
    destruct (session_started m1 cc n evs Hok) as (c0 & a1 & a2 & _ & Hs).
    pose proof (started_inv U16_MAX m1 cc n c0 ltac:(unfold U16_MAX; lia) Hok)
      as Hinv.
    destruct (run_session _ U16_MAX_ok evs _ Hinv (readings_any evs))
      as (m & tr & Hrun & _ & _ & _ & Hcb & Hscb & _ & _ & Hcalls & Hcount
          & Hall).
    rewrite Hrun in Hs. cbn in Hcb, Hscb, Hcalls, Hcount, Hall.
    rewrite Hcb1, Hf in Hcb, Hcalls. rewrite Hscb1, Hg in Hscb, Hcount, Hall.
    eexists _, _. split.
    { unfold mbind at 1, M_bind at 1. rewrite He, Hs. reflexivity. }
    split; [exact Hcb|]. split; [exact Hscb|].
    assert (Hquiet : forall t, Forall (fun e => exists a, e = EvADCSRA a) t ->
              published t = [] /\ channel_calls t = [] /\ scan_calls t = []).
    { induction t as [|e t IH]; intros Ht; [repeat split; reflexivity|].
      apply Forall_cons in Ht as [[a ->] Ht]. exact (IH Ht). }
    destruct (Hquiet t1 Ht1) as (Hp1 & Hc1 & Hs1).
    unfold finalized.
    rewrite channel_calls_app, published_app, scan_calls_app, Hp1, Hc1, Hs1.
    cbn [app].
    change (channel_calls ([EvADCSRA 0; EvChanI 0; EvConfig 0; EvADCSRA a1;
                            EvADCSRA a2] ++ tr)) with (channel_calls tr).
    change (published ([EvADCSRA 0; EvChanI 0; EvConfig 0; EvADCSRA a1;
                        EvADCSRA a2] ++ tr)) with (published tr).
    change (scan_calls ([EvADCSRA 0; EvChanI 0; EvConfig 0; EvADCSRA a1;
                         EvADCSRA a2] ++ tr)) with (scan_calls tr).
    split; [exact Hcalls|]. split; [|exact Hcount].
    eapply Forall_impl; [exact Hall|]. cbn. intros [g' a] [Hg' _].
    cbn in *. congruence.
Qed.
End Claims.

(** * The properties on concrete sessions *)

Ltac table_ok :=
  repeat split; try (cbn; lia); repeat constructor; unfold config_ok; cbn; lia.

Ltac by_vm := vm_compute; reflexivity.

Ltac reading_ok :=
  cbv beta iota delta [fst snd];
  match goal with
  | |- raw_of ?l ?h <= _ =>
      let v := eval vm_compute in (raw_of l h) in
      change (raw_of l h) with v
  end;
  first [lia | unfold U16_MAX, ADC_MAX; lia].

Ltac readings_ok :=
  unfold readings_within;
  repeat (apply Forall_cons_2; [reading_ok|]);
  apply Forall_nil_2.

Lemma depth2_pending_in_session B :
  0 <= B <= 65535 -> 1 <= B ->
  in_session (io := atmega32u4) B depth2_pending.
Proof.
  intros HB H1. apply session_machine_in_session;
    [exact HB|table_ok|readings_ok].
Defined.

Lemma last_channel_pending_in_session :
  in_session (io := atmega32u4) U16_MAX last_channel_pending.
Proof.
  apply session_machine_in_session;
    [unfold U16_MAX; lia|table_ok|readings_ok].
Defined.

(** After the readings 1, 1, 1 at depth 2 the reading 2 makes the sum 5 and
    publishes 1; the window 1, 2, 2, 2 sums to 7 and publishes 2. *)
Lemma C1_witness :
  (exists m' tr,
     ISR (io := atmega32u4) 2 0 depth2_pending = Ok tt m' tr /\
     sample_accumulator depth2_pending + raw_of 2 0 = 5 /\
     sample m' = [1]) /\
  (exists m' tr,
     run (io := atmega32u4) [(0, 0); (0, 0); (1, 0); (2, 0); (2, 0); (2, 0)]
       (result_machine (session (io := atmega32u4) depth2_table 1 [] ScanADC))
     = Ok tt m' tr /\
     published tr = [(0, 2)]).
Proof.
  split.
  - destruct (proj1 (C1_publishes_rounded_average (io := atmega32u4))
                depth2_pending 2 0
                (depth2_pending_in_session U16_MAX ltac:(unfold U16_MAX; lia)
                   ltac:(unfold U16_MAX; lia))
                ltac:(by_vm))
      as (c & s & Hcur & _ & _ & Hrun & _ & Hsmp & _).
    vm_compute in Hcur. injection Hcur as <-.
    eexists _, _. split; [exact Hrun|]. split; [by_vm|].
    cbv zeta in Hsmp. vm_compute in Hsmp. vm_compute. congruence.
  - destruct (proj2 (C1_publishes_rounded_average (io := atmega32u4))
                (result_machine
                   (session (io := atmega32u4) depth2_table 1 [] ScanADC))
                (mkConfig 7 2) (0, 0) (0, 0) [(1, 0); (2, 0); (2, 0); (2, 0)])
      as (m' & tr & Hrun & Hpub & _).
    + apply session_machine_in_session;
        [unfold U16_MAX; lia|table_ok|readings_ok].
    + by_vm.
    + by_vm.
    + by_vm.
    + exists m', tr. split; [exact Hrun|]. rewrite Hpub. by_vm.
Defined.

(** [begin] over two channels leaves both counters at 0, and the reading
    that completes the depth-2 window takes its counter from 0 to 1. *)
Lemma C2_witness :
  (exists m tr,
     begin (io := atmega32u4) two_channel_table 2 ScanADC = Ok tt m tr /\
     sn m = [0; 0]) /\
  (exists m' tr,
     ISR (io := atmega32u4) 2 0 depth2_pending = Ok tt m' tr /\
     sn depth2_pending = [0] /\ sn m' = [1]).
Proof.
  split.
  - destruct (proj1 (C2_sequence_counter (io := atmega32u4))
                ScanADC two_channel_table 2 ltac:(table_ok))
      as (m & tr & Hrun & Hsn).
    exists m, tr. split; [exact Hrun|exact Hsn].
  - destruct (proj2 (C2_sequence_counter (io := atmega32u4))
                depth2_pending 2 0
                (depth2_pending_in_session U16_MAX ltac:(unfold U16_MAX; lia)
                   ltac:(unfold U16_MAX; lia)))
      as (m' & tr & Hrun & _ & _ & _ & Hfin).
    destruct (Hfin ltac:(by_vm)) as (s & Hs & Hsn' & _).
    vm_compute in Hs. injection Hs as <-.
    exists m', tr. split; [exact Hrun|]. split; [by_vm|].
    rewrite Hsn'. by_vm.
Defined.

(** Two whole scans of the two-channel table (18 events) finalize the
    channels 0, 1, 0, 1. *)
Lemma C3_witness :
  exists m tr,
    session (io := atmega32u4) two_channel_table 2 (replicate 18 (5, 0))
      ScanADC = Ok tt m tr /\
    finalized tr = [0; 1; 0; 1].
Proof.
  destruct (C3_round_robin_order (io := atmega32u4) ScanADC two_channel_table 2
              (replicate 18 (5, 0)) ltac:(table_ok))
    as (m & tr & Hrun & Hrr & _ & Hk).
  specialize (Hk 2%nat ltac:(by_vm)).
  assert (Hlen : length (finalized tr) = 4%nat) by lia.
  rewrite Hlen in Hrr. exists m, tr. split; [exact Hrun|]. rewrite Hrr. by_vm.
Defined.

(** The reading that finalizes the last of two channels stores its sample
    and sequence number, calls the channel callback, then the scan callback
    with both samples, and only then resets the index; the events of one
    whole scan make one scan call. *)
Lemma C4_witness :
  (exists m' tr,
     ISR (io := atmega32u4) 9 0 last_channel_pending = Ok tt m' tr /\
     tr = [EvConfig 1; EvSample 1 9; EvSn 1 1; EvChannelCb 1%nat 1 9;
           EvChanI 2; EvScanCb 2%nat [2; 9]; EvChanI 0]) /\
  (exists m tr,
     session (io := atmega32u4) two_channel_table 2 (replicate 9 (5, 0))
       both_callbacks = Ok tt m tr /\
     scan_calls tr = [(2%nat, [5; 5])]).
Proof.
  split.
  - destruct (proj1 (C4_scan_callback (io := atmega32u4))
                last_channel_pending 9 0 2%nat
                last_channel_pending_in_session ltac:(by_vm))
      as (m' & tr & Hrun & _).
    exists m', tr. split; [exact Hrun|].
    vm_compute in Hrun. injection Hrun as _ <-. reflexivity.
  - destruct (proj2 (C4_scan_callback (io := atmega32u4))
                both_callbacks two_channel_table 2 (replicate 9 (5, 0)) 2%nat
                ltac:(table_ok) ltac:(by_vm))
      as (m & tr & Hrun & _ & _ & Hone).
    specialize (Hone ltac:(by_vm)).
    exists m, tr. split; [exact Hrun|]. rewrite Hone.
    vm_compute in Hrun. injection Hrun as <- _. reflexivity.
Defined.

(** In the invocation that completes the depth-2 window the sample store
    comes first and the sequence store second. *)
Lemma C5_witness :
  exists m' tr,
    ISR (io := atmega32u4) 2 0 depth2_pending = Ok tt m' tr /\
    tr = [EvConfig 0; EvSample 0 1; EvSn 0 1; EvChanI 1; EvChanI 0] /\
    replay (take 2 tr) (sn depth2_pending, sample depth2_pending) = ([0], [1]).
Proof.
  destruct (C5_sample_before_sequence (io := atmega32u4) depth2_pending 2 0
              (depth2_pending_in_session U16_MAX ltac:(unfold U16_MAX; lia)
                 ltac:(unfold U16_MAX; lia))
              ltac:(by_vm))
    as (m' & tr & v & s & rest & Hrun & _).
  exists m', tr. split; [exact Hrun|].
  vm_compute in Hrun. injection Hrun as _ <-. split; by_vm.
Defined.

(** The two-channel table takes 6 + 3 = 9 events a scan, where the sum of
    one settle event and the target count gives 7. *)
Lemma C6_witness :
  scan_takes (io := atmega32u4) two_channel_table 2 9 /\
  spec_scan_events two_channel_table = 7.
Proof.
  destruct (C6_scan_length (io := atmega32u4) two_channel_table 2
              ltac:(table_ok)) as (Htakes & _).
  split; [|by_vm].
  replace 9 with (scan_events (take (Z.to_nat 2) two_channel_table)) by by_vm.
  exact Htakes.
Defined.

(** A single channel of depth 0: one settle event and one reading make 2
    events, after which nothing has been published yet. *)
Lemma C6_counterexample :
  ~ scan_takes (io := atmega32u4) depth0_table 1
      (spec_scan_events depth0_table).
Proof.
  intros H.
  destruct (H ScanADC [(0, 0); (0, 0)]) as [Hfull _].
  destruct (Hfull ltac:(by_vm)) as (m & tr & Hrun & Hlen).
  vm_compute in Hrun. injection Hrun as _ <-.
  vm_compute in Hlen. discriminate.
Qed.

(** Reading the published sample leaves the machine as it was. *)
Lemma C8_witness :
  exists tr,
    get_sample (io := atmega32u4) 0 depth2_published
    = Ok 1 depth2_published tr.
Proof.
  eexists.
  exact (proj2 (proj2 (C8_suppression_restores_state (io := atmega32u4)
                         depth2_published)) 0 1 ltac:(by_vm)).
Defined.

(** With readings within the converter's range, a full-scale reading (1023)
    keeps every sample within the range. *)
Lemma C9_witness :
  exists m' tr,
    ISR (io := atmega32u4) 255 3 depth2_pending = Ok tt m' tr /\
    Forall (fun v => 0 <= v <= 1023) (sample m').
Proof.
  destruct (C9_no_overflow (io := atmega32u4) depth2_pending 255 3
              (depth2_pending_in_session ADC_MAX ltac:(unfold ADC_MAX; lia)
                 ltac:(unfold ADC_MAX; lia))
              ltac:(vm_compute; discriminate))
    as (c & m' & tr & _ & _ & Hrun & _ & _ & _ & _ & _ & _ & Hall).
  exists m', tr. split; [exact Hrun|exact Hall].
Defined.

(** Callbacks 1 and 2 installed before a stop and a new [begin] are called
    in the new session. *)
Lemma C10_witness :
  channel_cb
    (result_machine (begin (io := atmega32u4) two_channel_table 2
                       both_callbacks)) = Some 1%nat /\
  (exists m' tr,
     ISR (io := atmega32u4) 9 0 last_channel_pending = Ok tt m' tr /\
     channel_scan_cb m' = Some 2%nat) /\
  channel_cb
    (result_machine (get_sample (io := atmega32u4) 1 last_channel_pending))
  = channel_cb last_channel_pending /\
  (exists m tr,
     (end_;; session (io := atmega32u4) two_channel_table 2
               (replicate 9 (5, 0))) both_callbacks = Ok tt m tr /\
     channel_calls tr = [(1%nat, 0, 5); (1%nat, 1, 5)] /\
     scan_calls tr = [(2%nat, [5; 5])]).
Proof.
  pose proof (C10_begin_keeps_callbacks (io := atmega32u4))
    as (Hbegin & _ & _ & _ & _ & Hisr & Hget & Hnew).
  split; [|split; [|split]].
  - rewrite (proj1 (Hbegin both_callbacks two_channel_table 2
                      (result_machine (begin (io := atmega32u4)
                                         two_channel_table 2 both_callbacks))
                      (result_trace (begin (io := atmega32u4)
                                       two_channel_table 2 both_callbacks))
                      ltac:(by_vm))).
    by_vm.
  - destruct (Hisr last_channel_pending 9 0 last_channel_pending_in_session)
      as (m' & tr & Hrun & _ & Hscb).
    exists m', tr. split; [exact Hrun|]. rewrite Hscb. by_vm.
  - exact (proj1 (Hget last_channel_pending 1 0
                    (result_machine (get_sample (io := atmega32u4) 1
                                       last_channel_pending))
                    (result_trace (get_sample (io := atmega32u4) 1
                                     last_channel_pending))
                    ltac:(by_vm))).
  - destruct (Hnew both_callbacks two_channel_table 2 (replicate 9 (5, 0))
                1%nat 2%nat ltac:(table_ok) ltac:(by_vm) ltac:(by_vm))
      as (m & tr & Hrun & _ & _ & Hcalls & _).
    exists m, tr. split; [exact Hrun|].
    vm_compute in Hrun. injection Hrun as _ <-. split; by_vm.
Defined.

(** * Further properties of the code *)

Section HandlerCases.

Context {io : AvrIo}.

Variable B : Z.
Hypothesis HB : 0 <= B <= 65535.

(** The four ways an invocation of the handler goes in a session, each with
    the state it leaves. *)
Lemma ISR_cases m l h :
  session_inv B m ->
  raw_of l h <= B ->
  exists c s m' tr,
    current_config m = Some c /\
    sn m !! Z.to_nat (chan_i m) = Some s /\
    ISR l h m = Ok tt m' tr /\
    session_inv B m' /\
    ((state m = ISR_STATE_INIT /\ completes m = false /\
      tr = [EvConfig (chan_i m); EvConfig (chan_i m)] /\
      m' = set_state ISR_STATE_DELAY
             (set_sample_cnt_target (u16 (Z.shiftl 1 (sample_count_log2 c)))
                (set_sample_cnt 0 (set_sample_accumulator 0 (select_regs c m)))))
     \/
     (state m = ISR_STATE_DELAY /\ completes m = false /\ tr = [] /\
      m' = set_state ISR_STATE_ACCUMULATE m)
     \/
     (state m = ISR_STATE_ACCUMULATE /\ completes m = false /\ tr = [] /\
      m' = set_sample_accumulator (u32 (sample_accumulator m + raw_of l h))
             (set_sample_cnt (u16 (sample_cnt m + 1)) m))
     \/
     (state m = ISR_STATE_ACCUMULATE /\ completes m = true /\
      let v := rounded_average (sample_count_log2 c)
                 (sample_accumulator m + raw_of l h) in
      tr = finalize_events m v s /\ m' = finalize_state m v s)).
Proof.
  intros Hinv Hraw.
  destruct (inv_lookups B m Hinv) as (cfg & c & s & Hc & Hl & Hok & Hs & Hsm).
  assert (Hcur : current_config m = Some c)
    by (unfold current_config; rewrite Hc; exact Hl).
  exists c, s.
  destruct (completes m) eqn:Hq.
  - destruct (ISR_publish B HB m l h Hinv Hraw Hq)
      as (c' & s' & Hcur' & _ & Hs' & Hst & _ & _ & _ & _ & _ & Hrun & Hinv').
    rewrite Hcur in Hcur'. injection Hcur' as <-.
    rewrite Hs in Hs'. injection Hs' as <-.
    cbv zeta in *. eexists _, _.
    split; [exact Hcur|]. split; [exact Hs|]. split; [exact Hrun|].
    split; [exact Hinv'|]. right. right. right.
    split; [exact Hst|]. split; [reflexivity|]. split; reflexivity.
  - destruct (ISR_quiet B HB m l h Hinv Hraw Hq)
      as (m1 & t1 & Hrun & Hinv1 & _).
    exists m1, t1.
    split; [exact Hcur|]. split; [exact Hs|]. split; [exact Hrun|].
    split; [exact Hinv1|].
    unfold completes in Hq.
    destruct (state m) eqn:Est.
    + left. rewrite (ISR_init m l h cfg c Est Hc Hl) in Hrun.
      injection Hrun as <- <-. repeat split; reflexivity.
    + right. left. rewrite (ISR_delay m l h Est) in Hrun.
      injection Hrun as <- <-. repeat split; reflexivity.
    + right. right. left. apply Z.eqb_neq in Hq.
      rewrite (ISR_accumulate_partial m l h Est Hq) in Hrun.
      injection Hrun as <- <-. repeat split; reflexivity.
Qed.

End HandlerCases.

Section BitLemmas.

Lemma u8_land x : u8 x = Z.land x 255.
Proof. unfold u8. rewrite <- (Z.land_ones x 8) by lia. reflexivity. Qed.

Ltac mask_norm :=
  repeat first
    [ rewrite <- Z.land_assoc
    | rewrite Z.land_lor_distr_l
    | rewrite Z.land_0_r
    | match goal with
      | |- context [Z.land (Zpos ?p) (Zpos ?q)] =>
          let r := eval vm_compute in (Z.land (Zpos p) (Zpos q)) in
          change (Z.land (Zpos p) (Zpos q)) with r
      end ].

Lemma u8_testbit_low x n : 0 <= n < 8 -> Z.testbit (u8 x) n = Z.testbit x n.
Proof. intros Hn. unfold u8. apply Z.mod_pow2_bits_low. lia. Qed.

(** The handler's update of ADMUX keeps the top three bits and takes the
    low five from the selector. *)
Lemma admux_update_high a b :
  Z.land (u8 (Z.lor (Z.land a 224) (Z.land (u8 b) 31))) 224 = Z.land a 224.
Proof.
  rewrite !u8_land. mask_norm. rewrite Z.lor_0_r. reflexivity.
Qed.

Lemma admux_update_low a b :
  Z.land (u8 (Z.lor (Z.land a 224) (Z.land (u8 b) 31))) 31 = Z.land b 31.
Proof.
  rewrite !u8_land. mask_norm. rewrite Z.lor_0_l. reflexivity.
Qed.

Lemma land_32_testbit x : (Z.land x 32 =? 0) = negb (Z.testbit x 5).
Proof.
  assert (H : Z.land x 32 = if Z.testbit x 5 then 32 else 0).
  { apply Z.bits_inj'. intros n Hn. rewrite Z.land_spec.
    change 32 with (2 ^ 5). rewrite Z.pow2_bits_eqb by lia.
    destruct (5 =? n) eqn:E.
    - apply Z.eqb_eq in E. subst n. rewrite andb_true_r.
      destruct (Z.testbit x 5); [|reflexivity].
      rewrite Z.pow2_bits_eqb by lia. reflexivity.
    - rewrite andb_false_r.
      destruct (Z.testbit x 5); [|symmetry; apply Z.bits_0].
      rewrite Z.pow2_bits_eqb by lia. symmetry. exact E. }
  rewrite H. destruct (Z.testbit x 5); reflexivity.
Qed.

Lemma shiftl_one_testbit b n :
  0 <= n -> Z.testbit (Z.shiftl 1 b) n = (n =? b).
Proof.
  intros Hn. rewrite Z.shiftl_spec by lia.
  destruct (n =? b) eqn:E.
  - apply Z.eqb_eq in E. subst. rewrite Z.sub_diag. reflexivity.
  - apply Z.eqb_neq in E. destruct (Z_lt_le_dec (n - b) 0).
    + apply Z.testbit_neg_r. lia.
    + change 1 with (2 ^ 0). rewrite Z.pow2_bits_eqb by lia.
      apply Z.eqb_neq. lia.
Qed.

(** The handler's update of ADCSRB sets bit [p] to bit 5 of the selector
    and keeps the other bits. *)
Lemma adcsrb_update_bit p a b n :
  0 <= p < 8 -> 0 <= n < 8 ->
  Z.testbit
    (u8 (Z.lor (Z.land a (Z.lnot (Z.shiftl 1 p)))
               (if Z.land (u8 b) 32 =? 0 then 0 else Z.shiftl 1 p))) n
  = if n =? p then Z.testbit b 5 else Z.testbit a n.
Proof.
  intros Hp Hn. rewrite u8_testbit_low by lia.
  rewrite Z.lor_spec, Z.land_spec, Z.lnot_spec by lia.
  rewrite shiftl_one_testbit by lia.
  rewrite land_32_testbit, u8_testbit_low by lia.
  destruct (n =? p) eqn:E; cbn [negb].
  - rewrite andb_false_r. cbn [orb].
    destruct (Z.testbit b 5); cbn [negb].
    + rewrite shiftl_one_testbit by lia. exact E.
    + apply Z.bits_0.
  - rewrite andb_true_r.
    destruct (Z.testbit b 5); cbn [negb].
    + rewrite shiftl_one_testbit, E by lia. apply orb_false_r.
    + rewrite Z.bits_0. apply orb_false_r.
Qed.

Lemma selector_split x :
  Z.land x 31 + 32 * Z.b2z (Z.testbit x 5) = Z.land x 63.
Proof.
  change 31 with (Z.ones 5). change 63 with (Z.ones 6).
  rewrite !Z.land_ones, Z.testbit_spec' by lia.
  change (2 ^ 5) with 32. change (2 ^ 6) with 64.
  Z.div_mod_to_equations. lia.
Qed.

Lemma lor_testbit_armed x b n :
  0 <= n < 8 -> Z.testbit x n = true \/ n = b ->
  Z.testbit (u8 (Z.lor x (Z.shiftl 1 b))) n = true.
Proof.
  intros Hn H. rewrite u8_testbit_low, Z.lor_spec, shiftl_one_testbit by lia.
  destruct H as [-> | ->]; [reflexivity|].
  rewrite Z.eqb_refl. apply orb_true_r.
Qed.

End BitLemmas.

Section RunInduction.

Context {io : AvrIo}.

Variable B : Z.
Hypothesis HB : 0 <= B <= 65535.

(** A relation between the two ends of a run and its trace holds of every
    run in a session when it holds of the empty run and extends over one
    more invocation at the front. *)
Lemma run_induct (P : machine -> list event -> machine -> Prop) :
  (forall m, session_inv B m -> P m [] m) ->
  (forall m l h m1 t1 m2 t2,
     session_inv B m -> raw_of l h <= B ->
     ISR l h m = Ok tt m1 t1 -> session_inv B m1 ->
     P m1 t2 m2 -> P m (t1 ++ t2) m2) ->
  forall evs m,
    session_inv B m ->
    readings_within B evs ->
    exists m' tr,
      run evs m = Ok tt m' tr /\ session_inv B m' /\ P m tr m'.
Proof.
  intros Hnil Hcons.
  induction evs as [|[l h] evs IH]; intros m Hinv Hev.
  - exists m, []. split; [reflexivity|]. split; [exact Hinv|apply Hnil, Hinv].
  - apply Forall_cons in Hev as [Hraw Hev]. cbn in Hraw.
    destruct (ISR_cases B HB m l h Hinv Hraw)
      as (c & s & m1 & t1 & _ & _ & Hrun & Hinv1 & _).
    destruct (IH m1 Hinv1 Hev) as (m2 & t2 & Hrun2 & Hinv2 & HP).
    exists m2, (t1 ++ t2). rewrite run_cons, Hrun, Hrun2.
    split; [reflexivity|]. split; [exact Hinv2|].
    exact (Hcons m l h m1 t1 m2 t2 Hinv Hraw Hrun Hinv1 HP).
Qed.

Lemma count_finalized_app j t1 t2 :
  count_finalized j (t1 ++ t2) = count_finalized j t1 + count_finalized j t2.
Proof.
  unfold count_finalized. rewrite finalized_app.
  induction (finalized t1) as [|i l IH]; [reflexivity|].
  cbn [app foldr]. destruct (i =? j); lia.
Qed.

Lemma latest_sample_app j t1 t2 d :
  latest_sample j (t1 ++ t2) d = latest_sample j t2 (latest_sample j t1 d).
Proof. unfold latest_sample. rewrite published_app. apply fold_left_app. Qed.

Lemma count_finalized_nonneg j tr : 0 <= count_finalized j tr.
Proof.
  unfold count_finalized. induction (finalized tr) as [|i l IH]; cbn; [lia|].
  destruct (i =? j); lia.
Qed.

(** Along a run, the sequence number of a channel advances by the number
    of times the channel is finalized, modulo 256, and its sample is the
    last one published for it. *)
Lemma run_store evs m :
  session_inv B m ->
  readings_within B evs ->
  Forall (fun s => 0 <= s < 256) (sn m) ->
  exists m' tr,
    run evs m = Ok tt m' tr /\ session_inv B m' /\
    Forall (fun s => 0 <= s < 256) (sn m') /\
    (forall j s, 0 <= j -> sn m !! Z.to_nat j = Some s ->
       sn m' !! Z.to_nat j = Some ((s + count_finalized j tr) mod 256)) /\
    (forall j v, 0 <= j -> sample m !! Z.to_nat j = Some v ->
       sample m' !! Z.to_nat j = Some (latest_sample j tr v)).
Proof.
  intros Hinv Hev Hbytes.
  destruct (run_induct
              (fun m tr m' =>
                 Forall (fun s => 0 <= s < 256) (sn m) ->
                 Forall (fun s => 0 <= s < 256) (sn m') /\
                 (forall j s, 0 <= j -> sn m !! Z.to_nat j = Some s ->
                    sn m' !! Z.to_nat j
                    = Some ((s + count_finalized j tr) mod 256)) /\
                 (forall j v, 0 <= j -> sample m !! Z.to_nat j = Some v ->
                    sample m' !! Z.to_nat j = Some (latest_sample j tr v))))
    with (evs := evs) (m := m) as (m' & tr & Hrun & Hinv' & HP);
    [| |exact Hinv|exact Hev|exists m', tr; split; [exact Hrun|];
                              split; [exact Hinv'|exact (HP Hbytes)]];
    clear m Hinv evs Hev Hbytes.
  - intros m Hinv Hb. split; [exact Hb|]. split.
    + intros j s Hj Hs. change (count_finalized j []) with 0.
      rewrite Z.add_0_r, Z.mod_small; [exact Hs|].
      exact (Forall_lookup_1 _ _ _ _ Hb Hs).
    + intros j v _ Hv. exact Hv.
  - intros m l h m1 t1 m2 t2 Hinv Hraw Hrun Hinv1 HP Hb.
    pose proof (inv_chan_i _ _ Hinv) as Hi.
    destruct (ISR_cases B HB m l h Hinv Hraw)
      as (c & s0 & m1' & t1' & _ & Hs0 & Hrun' & _ & Hcase).
    rewrite Hrun in Hrun'. injection Hrun' as <- <-.
    assert (Hquiet : sn m1 = sn m -> sample m1 = sample m ->
                     published t1 = [] ->
              Forall (fun s => 0 <= s < 256) (sn m2) /\
              (forall j s, 0 <= j -> sn m !! Z.to_nat j = Some s ->
                 sn m2 !! Z.to_nat j
                 = Some ((s + count_finalized j (t1 ++ t2)) mod 256)) /\
              (forall j v, 0 <= j -> sample m !! Z.to_nat j = Some v ->
                 sample m2 !! Z.to_nat j
                 = Some (latest_sample j (t1 ++ t2) v))).
    { intros Hsn Hsm Hp. rewrite Hsn, Hsm in HP.
      destruct (HP Hb) as (Hb2 & Hsn2 & Hsm2). split; [exact Hb2|].
      assert (Hc : forall j, count_finalized j t1 = 0)
        by (intros; unfold count_finalized, finalized; rewrite Hp; reflexivity).
      assert (Hl : forall j d, latest_sample j t1 d = d)
        by (intros; unfold latest_sample; rewrite Hp; reflexivity).
      split.
      - intros j s Hj Hs. rewrite count_finalized_app, Hc, Z.add_0_l.
        exact (Hsn2 j s Hj Hs).
      - intros j v Hj Hv. rewrite latest_sample_app, Hl.
        exact (Hsm2 j v Hj Hv). }
    destruct Hcase as [(_ & _ & -> & ->) | [(_ & _ & -> & ->)
                      | [(_ & _ & -> & ->) | (_ & _ & Hfin)]]];
      try (apply Hquiet; reflexivity).
    cbv zeta in Hfin. destruct Hfin as [-> ->].
    set (v := rounded_average (sample_count_log2 c)
                (sample_accumulator m + raw_of l h)) in *.
    assert (Hb1 : Forall (fun s => 0 <= s < 256) (sn (finalize_state m v s0))).
    { cbn. apply Forall_insert; [exact Hb|].
      unfold u8. pose proof (Z.mod_pos_bound (s0 + 1) (2 ^ 8)). lia. }
    destruct (HP Hb1) as (Hb2 & Hsn2 & Hsm2). split; [exact Hb2|].
    assert (Hlen_sn : (Z.to_nat (chan_i m) < length (sn m))%nat)
      by (eapply lookup_lt_Some; exact Hs0).
    assert (Hlen_sm : (Z.to_nat (chan_i m) < length (sample m))%nat).
    { pose proof (inv_sample _ _ Hinv). pose proof (inv_sn _ _ Hinv). lia. }
    assert (Hc : forall j, count_finalized j (finalize_events m v s0)
                           = if chan_i m =? j then 1 else 0).
    { intros j. unfold count_finalized, finalized.
      rewrite published_finalize_events. cbn.
      destruct (chan_i m =? j); reflexivity. }
    assert (Hl : forall j d, latest_sample j (finalize_events m v s0) d
                             = if chan_i m =? j then v else d).
    { intros j d. unfold latest_sample.
      rewrite published_finalize_events. reflexivity. }
    split.
    + intros j s Hj Hs. rewrite count_finalized_app, Hc.
      destruct (chan_i m =? j) eqn:E.
      * apply Z.eqb_eq in E. subst j.
        rewrite Hs0 in Hs. injection Hs as <-.
        rewrite (Hsn2 (chan_i m) (u8 (s0 + 1)) Hj).
        -- f_equal. unfold u8. change (2 ^ 8) with 256.
           rewrite Z.add_mod_idemp_l by lia. f_equal. lia.
        -- cbn. apply list_lookup_insert_eq, Hlen_sn.
      * apply Z.eqb_neq in E. rewrite Z.add_0_l. apply Hsn2; [exact Hj|].
        cbn. rewrite list_lookup_insert_ne by lia. exact Hs.
    + intros j d Hj Hd. rewrite latest_sample_app, Hl.
      destruct (chan_i m =? j) eqn:E.
      * apply Z.eqb_eq in E. subst j. apply Hsm2; [exact Hj|].
        cbn. apply list_lookup_insert_eq, Hlen_sm.
      * apply Z.eqb_neq in E. apply Hsm2; [exact Hj|].
        cbn. rewrite list_lookup_insert_ne by lia. exact Hd.
Qed.

End RunInduction.

Section StoreAfterSession.

Context {io : AvrIo}.

Lemma get_sn_run channel m v :
  sn m !! Z.to_nat channel = Some v -> get_sn channel m = Ok v m [].
Proof.
  intros Hv. unfold get_sn, load_sn, mbind, M_bind, gets, mret, M_ret.
  rewrite Hv. reflexivity.
Qed.

Lemma get_sn_out_of_range channel m :
  sn m !! Z.to_nat channel = None -> get_sn channel m = UB [].
Proof.
  intros Hv. unfold get_sn, load_sn, mbind, M_bind, gets, undefined.
  rewrite Hv. reflexivity.
Qed.

Lemma count_in_range j len : forall a,
  foldr (fun i acc => if i =? j then 1 + acc else acc) 0
    (map Z.of_nat (seq a len))
  = if (Z.of_nat a <=? j) && (j <? Z.of_nat (a + len)) then 1 else 0.
Proof.
  induction len as [|len IH]; intros a.
  - cbn [seq map foldr]. rewrite Nat.add_0_r.
    destruct (Z.of_nat a <=? j) eqn:E1, (j <? Z.of_nat a) eqn:E2;
      try reflexivity. apply Z.leb_le in E1. apply Z.ltb_lt in E2. lia.
  - cbn [seq map foldr]. rewrite IH.
    destruct (Z.of_nat a =? j) eqn:E.
    + apply Z.eqb_eq in E.
      assert ((Z.of_nat (S a) <=? j) = false) as -> by (apply Z.leb_gt; lia).
      assert ((Z.of_nat a <=? j) = true) as -> by (apply Z.leb_le; lia).
      assert ((j <? Z.of_nat (a + S len)) = true) as ->
        by (apply Z.ltb_lt; lia).
      reflexivity.
    + apply Z.eqb_neq in E.
      replace (a + S len)%nat with (S a + len)%nat by lia.
      destruct (Z.of_nat (S a) <=? j) eqn:E1, (Z.of_nat a <=? j) eqn:E2;
        try reflexivity.
      * apply Z.leb_le in E1. apply Z.leb_gt in E2. lia.
      * apply Z.leb_gt in E1. apply Z.leb_le in E2. lia.
Qed.

(** One turn of the round robin from channel 0 names every channel once. *)
Lemma round_robin_turn n j :
  1 <= n -> 0 <= j < n ->
  foldr (fun i acc => if i =? j then 1 + acc else acc) 0
    (round_robin n 0 (Z.to_nat n)) = 1.
Proof.
  intros Hn Hj. unfold round_robin.
  assert (Hmap : map (fun k => (0 + Z.of_nat k) mod n) (seq 0 (Z.to_nat n))
                 = map Z.of_nat (seq 0 (Z.to_nat n))).
  { apply map_ext_in. intros k Hk. apply in_seq in Hk.
    rewrite Z.add_0_l. apply Z.mod_small. lia. }
  rewrite Hmap, (count_in_range j (Z.to_nat n) 0).
  assert ((Z.of_nat 0 <=? j) = true) as -> by (apply Z.leb_le; lia).
  assert ((j <? Z.of_nat (0 + Z.to_nat n)) = true) as ->
    by (apply Z.ltb_lt; lia).
  reflexivity.
Qed.

(** The events of [k] whole scans finalize every channel exactly [k]
    times. *)
Lemma run_scans_count k : forall evs m cfg,
  session_inv U16_MAX m ->
  state m = ISR_STATE_INIT -> chan_i m = 0 -> config m = Some cfg ->
  Z.of_nat (length evs) = Z.of_nat k * scan_events cfg ->
  exists m' tr,
    run evs m = Ok tt m' tr /\
    forall j, 0 <= j < chan_count m -> count_finalized j tr = Z.of_nat k.
Proof.
  induction k as [|k IH]; intros evs m cfg Hinv Hst Hi Hc Hlen.
  - destruct evs; [|cbn [length] in Hlen; lia].
    exists m, []. split; [reflexivity|]. intros; reflexivity.
  - assert (Hsr : scan_remaining m = scan_events cfg).
    { rewrite (scan_remaining_init _ m cfg Hinv Hst Hc), Hi. reflexivity. }
    pose proof (scan_remaining_pos _ U16_MAX_ok m Hinv) as Hpos.
    set (T := Z.to_nat (scan_events cfg)).
    assert (HT : (T <= length evs)%nat) by nia.
    rewrite <- (take_drop T evs).
    assert (Hl1 : length (take T evs) = T) by (rewrite length_take; lia).
    destruct (run_to_scan_end _ U16_MAX_ok (take T evs) m Hinv
                (readings_any _))
      as (m1 & t1 & Hrun1 & _ & Heq); [lia|].
    destruct Heq as (Hst1 & Hi1 & Hfin1 & _); [lia|].
    destruct (run_session _ U16_MAX_ok (take T evs) m Hinv (readings_any _))
      as (m1' & t1' & Hrun1' & Hinv1 & Hcnt1 & Hcfg1 & _ & _ & Hrr & _).
    rewrite Hrun1 in Hrun1'. injection Hrun1' as <- <-.
    destruct (IH (drop T evs) m1 cfg Hinv1 Hst1 Hi1)
      as (m' & tr & Hrun & Hcount).
    { rewrite Hcfg1. exact Hc. }
    { rewrite length_drop. nia. }
    exists m', (t1 ++ tr). rewrite run_app, Hrun1, Hrun.
    split; [reflexivity|]. intros j Hj.
    rewrite count_finalized_app, (Hcount j) by (rewrite Hcnt1; exact Hj).
    pose proof (inv_count _ _ Hinv) as Hn.
    assert (Hlenf : length (finalized t1) = Z.to_nat (chan_count m)) by lia.
    unfold count_finalized at 1. rewrite Hrr, Hi, Hlenf.
    rewrite (round_robin_turn (chan_count m) j) by lia. lia.
Qed.

(** X1. After [begin] and any conversion-complete events, [get_sn] returns
    for every configured channel the number of times the channel has been
    finalized in the session, modulo 256, and changes nothing. *)
Theorem X1_get_sn_counts_finalizations :
  forall m0 cc n evs j,
    begin_ok cc n ->
    0 <= j < n ->
    exists m tr,
      session cc n evs m0 = Ok tt m tr /\
      get_sn j m = Ok (count_finalized j tr mod 256) m [].
Proof.
  intros m0 cc n evs j Hok Hj.
  destruct (session_started m0 cc n evs Hok) as (c0 & a1 & a2 & _ & Hs).
  pose proof (started_inv U16_MAX m0 cc n c0 ltac:(unfold U16_MAX; lia) Hok)
    as Hinv.
  destruct (run_store _ U16_MAX_ok evs _ Hinv (readings_any evs))
    as (m & tr & Hrun & _ & _ & Hsn & _).
  { cbn. apply Forall_replicate. lia. }
  rewrite Hrun in Hs. eexists _, _. split; [exact Hs|].
  change (count_finalized j ([EvADCSRA 0; EvChanI 0; EvConfig 0; EvADCSRA a1;
                              EvADCSRA a2] ++ tr))
    with (count_finalized j tr).
  apply get_sn_run. rewrite (Hsn j 0); [reflexivity|lia|].
  cbn. apply lookup_replicate_2. lia.
Qed.

(** X2. After [begin] and any conversion-complete events, [get_sample]
    returns for every configured channel the last sample published for it
    in the session, or 0 when none has been, and leaves the machine as it
    was. *)
Theorem X2_get_sample_returns_latest :
  forall m0 cc n evs j,
    begin_ok cc n ->
    0 <= j < n ->
    exists m tr tr',
      session cc n evs m0 = Ok tt m tr /\
      get_sample j m = Ok (latest_sample j tr 0) m tr'.
Proof.
  intros m0 cc n evs j Hok Hj.
  destruct (session_started m0 cc n evs Hok) as (c0 & a1 & a2 & _ & Hs).
  pose proof (started_inv U16_MAX m0 cc n c0 ltac:(unfold U16_MAX; lia) Hok)
    as Hinv.
  destruct (run_store _ U16_MAX_ok evs _ Hinv (readings_any evs))
    as (m & tr & Hrun & _ & _ & _ & Hsm).
  { cbn. apply Forall_replicate. lia. }
  rewrite Hrun in Hs. eexists _, _, _. split; [exact Hs|].
  change (latest_sample j ([EvADCSRA 0; EvChanI 0; EvConfig 0; EvADCSRA a1;
                            EvADCSRA a2] ++ tr) 0)
    with (latest_sample j tr 0).
  apply get_sample_run. apply (Hsm j 0); [lia|].
  cbn. apply lookup_replicate_2. lia.
Qed.

(** X3. After the events of [k] whole scans of a fresh session every
    channel has been finalized [k] times, so [get_sn] returns the same
    number, [k mod 256], for every channel. *)
Theorem X3_sequence_numbers_agree_after_scans :
  forall m0 cc n evs k j,
    begin_ok cc n ->
    0 <= j < n ->
    Z.of_nat (length evs) = Z.of_nat k * scan_events (take (Z.to_nat n) cc) ->
    exists m tr,
      session cc n evs m0 = Ok tt m tr /\
      count_finalized j tr = Z.of_nat k /\
      get_sn j m = Ok (Z.of_nat k mod 256) m [].
Proof.
  intros m0 cc n evs k j Hok Hj Hlen.
  destruct (session_started m0 cc n evs Hok) as (c0 & a1 & a2 & _ & Hs).
  pose proof (started_inv U16_MAX m0 cc n c0 ltac:(unfold U16_MAX; lia) Hok)
    as Hinv.
  destruct (run_store _ U16_MAX_ok evs _ Hinv (readings_any evs))
    as (m & tr & Hrun & _ & _ & Hsn & _).
  { cbn. apply Forall_replicate. lia. }
  destruct (run_scans_count k evs _ (take (Z.to_nat n) cc) Hinv eq_refl
              eq_refl eq_refl Hlen) as (m' & tr' & Hrun' & Hcount).
  rewrite Hrun in Hrun'. injection Hrun' as <- <-.
  rewrite Hrun in Hs. eexists _, _. split; [exact Hs|].
  change (count_finalized j ([EvADCSRA 0; EvChanI 0; EvConfig 0; EvADCSRA a1;
                              EvADCSRA a2] ++ tr))
    with (count_finalized j tr).
  specialize (Hcount j Hj). split; [exact Hcount|].
  apply get_sn_run. rewrite (Hsn j 0); [rewrite Hcount; reflexivity|lia|].
  cbn. apply lookup_replicate_2. lia.
Qed.

End StoreAfterSession.

Section Averaging.

Context {io : AvrIo}.

Lemma raw_sum_bounds lo hi rs :
  Forall (fun r => lo <= raw_of r.1 r.2 <= hi) rs ->
  Z.of_nat (length rs) * lo <= raw_sum rs <= Z.of_nat (length rs) * hi.
Proof.
  induction 1 as [|r rs Hr _ IH]; [cbn; lia|].
  change (raw_sum (r :: rs)) with (raw_of r.1 r.2 + raw_sum rs).
  cbn [length]. rewrite Nat2Z.inj_succ. lia.
Qed.

(** The rounded average of [2 ^ k] values is their sum divided by their
    number, to the nearest integer, halves upward. *)
Lemma rounded_average_nearest k sum :
  0 <= k ->
  2 ^ k * rounded_average k sum <= sum + 2 ^ k / 2
  < 2 ^ k * (rounded_average k sum + 1).
Proof.
  intros Hk. unfold rounded_average.
  pose proof (Z.pow_pos_nonneg 2 k ltac:(lia) Hk) as HT.
  destruct (k =? 0) eqn:E.
  - apply Z.eqb_eq in E. subst k.
    change (2 ^ 0) with 1. change (1 / 2) with 0. lia.
  - rewrite Z.shiftr_div_pow2 by lia.
    pose proof (Z.mul_div_le (sum + 2 ^ k / 2) (2 ^ k) HT).
    pose proof (Z.mul_succ_div_gt (sum + 2 ^ k / 2) (2 ^ k) HT). lia.
Qed.

Lemma rounded_average_between k sum lo hi :
  0 <= k ->
  2 ^ k * lo <= sum <= 2 ^ k * hi ->
  lo <= rounded_average k sum <= hi.
Proof.
  intros Hk Hsum.
  pose proof (Z.pow_pos_nonneg 2 k ltac:(lia) Hk) as HT.
  pose proof (rounded_average_nearest k sum Hk) as Hnear.
  assert (Hhalf : 0 <= 2 ^ k / 2 < 2 ^ k)
    by (split; [apply Z.div_pos; lia|apply Z.div_lt_upper_bound; lia]).
  split; nia.
Qed.

(** X4. A channel's published sample lies between the smallest and the
    largest raw reading of its averaging window, whatever the two
    conversions discarded before the window; in particular a window of
    equal readings publishes that reading. *)
Theorem X4_average_within_readings :
  forall m c d1 d2 rs lo hi,
    in_session U16_MAX m ->
    state m = ISR_STATE_INIT ->
    current_config m = Some c ->
    Z.of_nat (length rs) = 2 ^ sample_count_log2 c ->
    Forall (fun r => lo <= raw_of r.1 r.2 <= hi) rs ->
    exists m' tr v,
      run (d1 :: d2 :: rs) m = Ok tt m' tr /\
      published tr = [(chan_i m, v)] /\
      sample m' !! Z.to_nat (chan_i m) = Some v /\
      lo <= v <= hi.
Proof.
  intros m c d1 d2 rs lo hi Hs Hst Hcur Hlen Hrs.
  pose proof (in_session_inv _ m U16_MAX_ok Hs) as Hinv.
  destruct (channel_window _ U16_MAX_ok m c d1 d2 rs Hinv (readings_any _)
              Hst Hcur Hlen) as (m' & tr & Hrun & Hpub & Hsmp).
  exists m', tr, (rounded_average (sample_count_log2 c) (raw_sum rs)).
  split; [exact Hrun|]. split; [exact Hpub|]. split; [exact Hsmp|].
  destruct (inv_lookups _ m Hinv) as (cfg & c' & s & Hc & Hl & Hok & _).
  unfold current_config in Hcur. rewrite Hc, Hl in Hcur. injection Hcur as ->.
  pose proof (raw_sum_bounds lo hi rs Hrs) as Hb. rewrite Hlen in Hb.
  apply rounded_average_between; [apply Hok|exact Hb].
Qed.

(** X5. The published sample [v] of a window of [T = 2 ^ averaging_log2]
    readings is their mean rounded to the nearest integer, halves upward:
    [T * v <= sum + T / 2 < T * (v + 1)]. *)
Theorem X5_average_is_nearest :
  forall m c d1 d2 rs,
    in_session U16_MAX m ->
    state m = ISR_STATE_INIT ->
    current_config m = Some c ->
    Z.of_nat (length rs) = 2 ^ sample_count_log2 c ->
    exists m' tr v,
      run (d1 :: d2 :: rs) m = Ok tt m' tr /\
      published tr = [(chan_i m, v)] /\
      2 ^ sample_count_log2 c * v
        <= raw_sum rs + 2 ^ sample_count_log2 c / 2
        < 2 ^ sample_count_log2 c * (v + 1).
Proof.
  intros m c d1 d2 rs Hs Hst Hcur Hlen.
  pose proof (in_session_inv _ m U16_MAX_ok Hs) as Hinv.
  destruct (channel_window _ U16_MAX_ok m c d1 d2 rs Hinv (readings_any _)
              Hst Hcur Hlen) as (m' & tr & Hrun & Hpub & _).
  exists m', tr, (rounded_average (sample_count_log2 c) (raw_sum rs)).
  split; [exact Hrun|]. split; [exact Hpub|].
  destruct (inv_lookups _ m Hinv) as (cfg & c' & s & Hc & Hl & Hok & _).
  unfold current_config in Hcur. rewrite Hc, Hl in Hcur. injection Hcur as ->.
  apply rounded_average_nearest, Hok.
Qed.

End Averaging.

Section Lifecycle.

Context {io : AvrIo}.

Lemma machine_ext m m' :
  ADCSRA m = ADCSRA m' -> ADCSRB m = ADCSRB m' -> ADMUX m = ADMUX m' ->
  SREG_I m = SREG_I m' -> chan_count m = chan_count m' ->
  channel_cb m = channel_cb m' -> channel_scan_cb m = channel_scan_cb m' ->
  state m = state m' -> chan_i m = chan_i m' ->
  sample_cnt m = sample_cnt m' ->
  sample_cnt_target m = sample_cnt_target m' ->
  sample_accumulator m = sample_accumulator m' ->
  config m = config m' -> sn m = sn m' -> sample m = sample m' ->
  m = m'.
Proof. destruct m, m'. cbn. intros. subst. reflexivity. Qed.

Lemma begin_run m0 cc n c0 :
  begin_ok cc n ->
  cc !! 0%nat = Some c0 ->
  begin cc n m0 =
  Ok tt (started cc n c0 m0)
    [EvADCSRA 0; EvChanI 0; EvConfig 0; EvADCSRA ADCSRA_enabled;
     EvADCSRA ADCSRA_armed].
Proof.
  intros (Hn & Hlen & _) Hc0.
  assert (Ht : take (Z.to_nat n) cc !! Z.to_nat 0 = Some c0).
  { destruct cc as [|c cc']; [discriminate|]. injection Hc0 as ->.
    destruct (Z.to_nat n) eqn:E; [lia|]. reflexivity. }
  unfold begin, end_, config_at, put_chan_i, put_ADCSRA,
    mbind, M_bind, mret, M_ret, gets, modify, emit, undefined.
  destruct (config m0) eqn:Ec; cbn; rewrite ?Ec; cbn;
    rewrite (decide_True _ _ Hlen); cbn; rewrite Ht; cbn; reflexivity.
Qed.

Lemma begin_ok_first cc n : begin_ok cc n -> exists c0, cc !! 0%nat = Some c0.
Proof.
  intros (Hn & Hlen & _). destruct cc as [|c cc']; [cbn in Hlen; lia|].
  exists c. reflexivity.
Qed.

(** X6. [begin] starts from scratch: two machines that agree on the
    installed callbacks give, for the same table and the same events, the
    same events of the session and, once the first conversion-complete
    event has been handled, the same machine, whatever session, registers
    or counters either had before. *)
Theorem X6_begin_restarts_from_scratch :
  forall m0 m0' cc n e evs,
    begin_ok cc n ->
    channel_cb m0 = channel_cb m0' ->
    channel_scan_cb m0 = channel_scan_cb m0' ->
    session cc n (e :: evs) m0 = session cc n (e :: evs) m0' /\
    result_trace (session cc n [] m0) = result_trace (session cc n [] m0').
Proof.
  intros m0 m0' cc n [l h] evs Hok Hcb Hscb.
  destruct (begin_ok_first cc n Hok) as (c0 & Hc0).
  unfold session, mbind, M_bind.
  rewrite (begin_run m0 cc n c0 Hok Hc0), (begin_run m0' cc n c0 Hok Hc0).
  split; [|reflexivity].
  rewrite !run_cons.
  assert (Hl : take (Z.to_nat n) cc !! Z.to_nat 0 = Some c0).
  { destruct Hok as (Hn & _). destruct cc as [|c cc']; [discriminate|].
    injection Hc0 as ->. destruct (Z.to_nat n) eqn:E; [lia|]. reflexivity. }
  rewrite (ISR_init (started cc n c0 m0) l h (take (Z.to_nat n) cc) c0
             eq_refl eq_refl Hl).
  rewrite (ISR_init (started cc n c0 m0') l h (take (Z.to_nat n) cc) c0
             eq_refl eq_refl Hl).
  assert (HX : set_state ISR_STATE_DELAY
                 (set_sample_cnt_target
                    (u16 (Z.shiftl 1 (sample_count_log2 c0)))
                    (set_sample_cnt 0
                       (set_sample_accumulator 0
                          (select_regs c0 (started cc n c0 m0)))))
               = set_state ISR_STATE_DELAY
                   (set_sample_cnt_target
                      (u16 (Z.shiftl 1 (sample_count_log2 c0)))
                      (set_sample_cnt 0
                         (set_sample_accumulator 0
                            (select_regs c0 (started cc n c0 m0')))))).
  { apply machine_ext;
      cbn [ADCSRA ADCSRB ADMUX SREG_I chan_count channel_cb channel_scan_cb
           state chan_i sample_cnt sample_cnt_target sample_accumulator config
           sn sample started select_regs set_state set_sample_cnt_target
           set_sample_cnt set_sample_accumulator set_ADMUX set_ADCSRB];
      first [reflexivity | assumption]. }
  rewrite HX. reflexivity.
Qed.

Ltac armed_bit :=
  unfold ADCSRA_armed, ADCSRA_enabled, bit_ok in *;
  rewrite !Z.shiftl_0_l, !Z.lor_0_r;
  repeat first [ rewrite u8_testbit_low by lia
               | rewrite Z.lor_spec
               | rewrite shiftl_one_testbit by lia ];
  rewrite ?Z.eqb_refl;
  repeat first [rewrite orb_true_r | rewrite orb_true_l]; reflexivity.

Lemma ADCSRA_armed_bits :
  bit_ok ADPS2 -> bit_ok ADEN -> bit_ok ADATE -> bit_ok ADIE -> bit_ok ADSC ->
  Z.testbit ADCSRA_armed ADPS2 = true /\
  Z.testbit ADCSRA_armed ADEN = true /\
  Z.testbit ADCSRA_armed ADATE = true /\
  Z.testbit ADCSRA_armed ADIE = true /\
  Z.testbit ADCSRA_armed ADSC = true.
Proof.
  intros H1 H2 H3 H4 H5. repeat split; armed_bit.
Qed.

(** What every state of a session keeps of the registers: ADCSRA and the
    interrupt flag as [begin] left them, the top three bits of ADMUX as
    [begin] wrote them from channel 0's selector, and, outside INIT, the
    multiplexer on the selector of the current channel. *)
Lemma in_session_registers m :
  in_session U16_MAX m ->
  ADCSRA m = ADCSRA_armed /\
  SREG_I m = true /\
  (exists cfg c0,
     config m = Some cfg /\ cfg !! 0%nat = Some c0 /\
     Z.land (ADMUX m) 224
     = Z.land (Z.lor (Z.shiftl 1 REFS0) (mux c0)) 224) /\
  (bit_ok MUX5 -> state m <> ISR_STATE_INIT ->
   exists c, current_config m = Some c /\ selected m = Z.land (mux c) 63).
Proof.
  intros Hs. induction Hs as
    [m0 cc n m tr Hok Hrun
    |m l h m' tr Hs IH Hraw Hrun
    |m cb m' tr Hs IH Hrun
    |m cb m' tr Hs IH Hrun].
  - destruct (begin_ok_first cc n Hok) as (c0 & Hc0).
    rewrite (begin_run m0 cc n c0 Hok Hc0) in Hrun. injection Hrun as <- _.
    split; [reflexivity|]. split; [reflexivity|].
    split; [|intros _ H; elim H; reflexivity].
    exists (take (Z.to_nat n) cc), c0. split; [reflexivity|]. split.
    + destruct Hok as (Hn & _). destruct cc as [|c cc']; [discriminate|].
      injection Hc0 as ->. destruct (Z.to_nat n) eqn:E; [lia|]. reflexivity.
    + cbn. rewrite Z.shiftl_0_l, Z.lor_0_r, u8_land, <- Z.land_assoc.
      reflexivity.
  - pose proof (in_session_inv _ m U16_MAX_ok Hs) as Hinv.
    destruct IH as (Ha & Hi & (cfg & c0 & Hcfg & Hc0 & Hhigh) & Hsel).
    destruct (ISR_cases _ U16_MAX_ok m l h Hinv Hraw)
      as (c & s & m1 & t1 & Hcur & _ & Hrun' & _ & Hcase).
    rewrite Hrun in Hrun'. injection Hrun' as <- <-.
    destruct Hcase as [(Hst & _ & _ & ->) | [(Hst & _ & _ & ->)
                      | [(Hst & _ & _ & ->) | (Hst & _ & Hfin)]]].
    + split; [exact Ha|]. split; [exact Hi|]. split.
      * exists cfg, c0. split; [exact Hcfg|]. split; [exact Hc0|].
        cbn. rewrite admux_update_high. exact Hhigh.
      * intros Hmux _. exists c. split; [exact Hcur|].
        unfold selected. cbn.
        rewrite admux_update_low.
        rewrite (adcsrb_update_bit MUX5 (ADCSRB m) (mux c) MUX5 Hmux Hmux).
        rewrite Z.eqb_refl. apply selector_split.
    + split; [exact Ha|]. split; [exact Hi|]. split.
      * exists cfg, c0. auto.
      * intros Hmux _. apply (Hsel Hmux). rewrite Hst. discriminate.
    + split; [exact Ha|]. split; [exact Hi|]. split.
      * exists cfg, c0. auto.
      * intros Hmux _. apply (Hsel Hmux). rewrite Hst. discriminate.
    + cbv zeta in Hfin. destruct Hfin as [_ ->].
      split; [exact Ha|]. split; [exact Hi|]. split.
      * exists cfg, c0. auto.
      * intros _ H. elim H. reflexivity.
  - rewrite attach_channel_callback_run in Hrun. injection Hrun as <- _.
    exact IH.
  - rewrite attach_scan_callback_run in Hrun. injection Hrun as <- _.
    exact IH.
Qed.


(** X7. Throughout a session, also across attach operations, ADCSRA holds
    the value [begin] armed the converter with and global interrupts stay
    enabled: the handler never writes ADCSRA.  With bit positions inside
    the register, that value has the prescaler bit ADPS2, the enable bit,
    the auto-trigger bit, the interrupt-enable bit and the start bit set. *)
Theorem X7_converter_stays_armed :
  forall m,
    in_session U16_MAX m ->
    bit_ok ADPS2 -> bit_ok ADEN -> bit_ok ADATE -> bit_ok ADIE ->
    bit_ok ADSC ->
    ADCSRA m = ADCSRA_armed /\
    SREG_I m = true /\
    Z.testbit (ADCSRA m) ADPS2 = true /\
    Z.testbit (ADCSRA m) ADEN = true /\
    Z.testbit (ADCSRA m) ADATE = true /\
    Z.testbit (ADCSRA m) ADIE = true /\
    Z.testbit (ADCSRA m) ADSC = true.
Proof.
  intros m Hs H1 H2 H3 H4 H5.
  destruct (in_session_registers m Hs) as (Ha & Hi & _).
  split; [exact Ha|]. split; [exact Hi|]. rewrite Ha.
  exact (ADCSRA_armed_bits H1 H2 H3 H4 H5).
Qed.

(** X8. The engine's table is the copy [begin] made of the first
    [channel_count] descriptors of the caller's array; conversion-complete
    events change neither the table nor the channel count, and the two
    result arrays keep one slot per channel. *)
Theorem X8_table_is_fixed_copy :
  forall m0 cc n evs,
    begin_ok cc n ->
    exists m tr,
      session cc n evs m0 = Ok tt m tr /\
      config m = Some (take (Z.to_nat n) cc) /\
      chan_count m = n /\
      length (sn m) = Z.to_nat n /\
      length (sample m) = Z.to_nat n.
Proof.
  intros m0 cc n evs Hok.
  destruct (session_started m0 cc n evs Hok) as (c0 & a1 & a2 & _ & Hs).
  pose proof (started_inv U16_MAX m0 cc n c0 ltac:(unfold U16_MAX; lia) Hok)
    as Hinv.
  destruct (run_session _ U16_MAX_ok evs _ Hinv (readings_any evs))
    as (m & tr & Hrun & Hinv' & Hcnt & Hcfg & _).
  rewrite Hrun in Hs. eexists _, _. split; [exact Hs|].
  cbn in Hcnt, Hcfg. split; [exact Hcfg|]. split; [exact Hcnt|].
  rewrite <- Hcnt. split; [apply (inv_sn _ _ Hinv')|apply (inv_sample _ _ Hinv')].
Qed.

(** X9. Whenever the handler is past INIT, settling or accumulating a
    channel, the multiplexer registers hold the low six bits of that
    channel's selector: bits 4..0 in ADMUX and bit 5 in the MUX5 bit of
    ADCSRB. *)
Theorem X9_multiplexer_selects_current_channel :
  forall m,
    in_session U16_MAX m ->
    bit_ok MUX5 ->
    state m <> ISR_STATE_INIT ->
    exists c,
      current_config m = Some c /\
      Z.land (ADMUX m) 31 + 32 * Z.b2z (Z.testbit (ADCSRB m) MUX5)
      = Z.land (mux c) 63.
Proof.
  intros m Hs Hmux Hst.
  destruct (in_session_registers m Hs) as (_ & _ & _ & Hsel).
  exact (Hsel Hmux Hst).
Qed.


(** X11. An attach operation takes effect at the next finalization: in a
    session, after [attach_channel_callback] the channel callback is called
    at every publication, with the channel and sample published, when a
    function was given, and never when NULL was; after
    [attach_scan_callback] every scan call goes to the function given and
    none is made when NULL was. *)
Theorem X11_attach_takes_effect :
  forall m evs,
    in_session U16_MAX m ->
    (forall cb,
       exists m' tr,
         (attach_channel_callback cb;; run evs) m = Ok tt m' tr /\
         channel_calls tr =
           match cb with
           | Some f => map (fun p => (f, p.1, p.2)) (published tr)
           | None => []
           end) /\
    (forall cb,
       exists m' tr,
         (attach_scan_callback cb;; run evs) m = Ok tt m' tr /\
         match cb with
         | Some g => Forall (fun c => c.1 = g) (scan_calls tr)
         | None => scan_calls tr = []
         end).
Proof.
  intros m evs Hs.
  pose proof (in_session_inv _ m U16_MAX_ok Hs) as Hinv.
  split; intros cb.
  - destruct (run_session _ U16_MAX_ok evs _
                (set_channel_cb_inv _ cb m Hinv) (readings_any evs))
      as (m' & tr & Hrun & _ & _ & _ & _ & _ & _ & _ & Hcalls & _).
    eexists _, _. split.
    { unfold mbind at 1, M_bind at 1.
      rewrite attach_channel_callback_run, Hrun. reflexivity. }
    cbn in Hcalls. exact Hcalls.
  - destruct (run_session _ U16_MAX_ok evs _
                (set_channel_scan_cb_inv _ cb m Hinv) (readings_any evs))
      as (m' & tr & Hrun & _ & _ & _ & _ & _ & _ & _ & _ & Hcount & Hall).
    eexists _, _. split.
    { unfold mbind at 1, M_bind at 1.
      rewrite attach_scan_callback_run, Hrun. reflexivity. }
    cbn in Hcount, Hall.
    change (scan_calls (_ ++ tr)) with (scan_calls tr).
    destruct cb as [g|].
    + eapply Forall_impl; [exact Hall|]. cbn. intros [g' a] [Hg _].
      cbn in *. congruence.
    + destruct (scan_calls tr); [reflexivity|cbn [length] in Hcount; lia].
Qed.

(** X12. [end] on a running session writes 0 to ADCSRA, so the converter
    and its interrupt are off, and releases the table; a second [end] does
    no more than write 0 again, and the accessors, which would read the
    released block, are undefined for every channel. *)
Theorem X12_end_stops_and_releases :
  forall m,
    in_session U16_MAX m ->
    exists m1 tr,
      end_ m = Ok tt m1 tr /\
      ADCSRA m1 = 0 /\
      Z.testbit (ADCSRA m1) ADIE = false /\
      config m1 = None /\
      end_ m1 = Ok tt m1 [EvADCSRA 0] /\
      (forall channel,
         get_sn channel m1 = UB [] /\
         exists tr', get_sample channel m1 = UB tr').
Proof.
  intros m Hs.
  pose proof (in_session_inv _ m U16_MAX_ok Hs) as Hinv.
  destruct (inv_config _ _ Hinv) as (cfg & Hc & _).
  unfold end_ at 1, put_ADCSRA, mbind, M_bind, mret, M_ret, gets, modify, emit.
  cbn. rewrite Hc. cbn. eexists _, _. split; [reflexivity|].
  split; [reflexivity|]. split; [apply Z.bits_0|]. split; [reflexivity|].
  split; [reflexivity|]. intros channel. split.
  - apply get_sn_out_of_range. reflexivity.
  - eexists. apply get_sample_out_of_range. reflexivity.
Qed.

End Lifecycle.

Section WaitLemmas.

Context {io : AvrIo}.

Lemma bind_ok {A C} (x : M A) (f : A -> M C) m a m1 t1 :
  x m = Ok a m1 t1 ->
  (x ≫= f) m =
  match f a m1 with
  | Ok b m2 t2 => Ok b m2 (t1 ++ t2)
  | UB t2 => UB (t1 ++ t2)
  end.
Proof. intros H. unfold mbind, M_bind. rewrite H. reflexivity. Qed.

Lemma load_sn_ok channel m s :
  sn m !! Z.to_nat channel = Some s -> load_sn channel m = Ok s m [].
Proof.
  intros H. unfold load_sn, mbind, M_bind, gets, mret, M_ret. rewrite H.
  reflexivity.
Qed.

Lemma in_session_sn_bytes m :
  in_session U16_MAX m -> Forall (fun s => 0 <= s < 256) (sn m).
Proof.
  intros Hs. induction Hs as
    [m0 cc n m tr Hok Hrun
    |m l h m' tr Hs IH Hraw Hrun
    |m cb m' tr Hs IH Hrun
    |m cb m' tr Hs IH Hrun].
  - destruct (begin_ok_first cc n Hok) as (c0 & Hc0).
    rewrite (begin_run m0 cc n c0 Hok Hc0) in Hrun. injection Hrun as <- _.
    cbn. apply Forall_replicate. lia.
  - pose proof (in_session_inv _ m U16_MAX_ok Hs) as Hinv.
    destruct (run_store _ U16_MAX_ok [(l, h)] m Hinv (readings_any _) IH)
      as (m1 & t1 & Hrun1 & _ & Hb & _).
    rewrite run_cons, Hrun in Hrun1. cbn in Hrun1.
    injection Hrun1 as <- _. exact Hb.
  - rewrite attach_channel_callback_run in Hrun. injection Hrun as <- _.
    exact IH.
  - rewrite attach_scan_callback_run in Hrun. injection Hrun as <- _.
    exact IH.
Qed.

(** One batch of events, as the waiting caller sees it: the sequence number
    of the channel moves by the number of its finalizations. *)
Lemma run_batch ch b m last :
  session_inv U16_MAX m ->
  Forall (fun s => 0 <= s < 256) (sn m) ->
  0 <= ch < chan_count m ->
  sn m !! Z.to_nat ch = Some last ->
  exists m1 t1,
    run b m = Ok tt m1 t1 /\
    session_inv U16_MAX m1 /\
    Forall (fun s => 0 <= s < 256) (sn m1) /\
    chan_count m1 = chan_count m /\
    0 <= last < 256 /\
    sn m1 !! Z.to_nat ch = Some ((last + count_finalized ch t1) mod 256).
Proof.
  intros Hinv Hb Hch Hlast.
  destruct (run_store _ U16_MAX_ok b m Hinv (readings_any _) Hb)
    as (m1 & t1 & Hrun & Hinv1 & Hb1 & Hsn & _).
  destruct (run_session _ U16_MAX_ok b m Hinv (readings_any _))
    as (m1' & t1' & Hrun' & _ & Hcnt & _).
  rewrite Hrun in Hrun'. injection Hrun' as <- <-.
  exists m1, t1. split; [exact Hrun|]. split; [exact Hinv1|].
  split; [exact Hb1|]. split; [exact Hcnt|].
  split; [exact (Forall_lookup_1 _ _ _ _ Hb Hlast)|].
  apply Hsn; [lia|exact Hlast].
Qed.

Lemma wait_poll_nil ch last m : wait_poll ch last [] m = Ok false m [].
Proof. reflexivity. Qed.

(** The loop, unfolded once over the events before the test. *)
Lemma wait_poll_test ch last b env m m1 t1 s :
  run b m = Ok tt m1 t1 ->
  sn m1 !! Z.to_nat ch = Some s ->
  wait_poll ch last (b :: env) m =
  if last =? s then
    match env with
    | [] => Ok false m1 (t1 ++ [])
    | b' :: env' =>
        match (run b';; last' ← load_sn ch; wait_poll ch last' env') m1 with
        | Ok r m2 t2 => Ok r m2 (t1 ++ t2)
        | UB t2 => UB (t1 ++ t2)
        end
    end
  else Ok true m1 (t1 ++ []).
Proof.
  intros Hrun Hs. cbn [wait_poll].
  rewrite (bind_ok _ _ _ _ _ _ Hrun).
  rewrite (bind_ok _ _ _ _ _ _ (load_sn_ok ch m1 s Hs)).
  destruct (last =? s); [|reflexivity].
  destruct env as [|b' env']; [reflexivity|].
  cbn [app]. destruct ((run b';; last' ← load_sn ch; wait_poll ch last' env') m1);
    reflexivity.
Qed.

(** Soundness of the loop: it is left only after a finalization of the
    channel. *)
Lemma wait_poll_sound ch : forall k env m last,
  (length env <= k)%nat ->
  session_inv U16_MAX m ->
  Forall (fun s => 0 <= s < 256) (sn m) ->
  0 <= ch < chan_count m ->
  sn m !! Z.to_nat ch = Some last ->
  exists r m' tr,
    wait_poll ch last env m = Ok r m' tr /\
    (r = true -> 1 <= count_finalized ch tr).
Proof.
  induction k as [|k IH]; intros env m last Hk Hinv Hb Hch Hlast.
  - destruct env; [|cbn in Hk; lia].
    exists false, m, []. split; [reflexivity|discriminate].
  - destruct env as [|b env]; [exists false, m, []; split; [reflexivity|discriminate]|].
    destruct (run_batch ch b m last Hinv Hb Hch Hlast)
      as (m1 & t1 & Hrun & Hinv1 & Hb1 & Hcnt1 & Hl & Hs1).
    rewrite (wait_poll_test ch last b env m m1 t1 _ Hrun Hs1).
    pose proof (count_finalized_nonneg ch t1) as Hc1.
    destruct (last =? (last + count_finalized ch t1) mod 256) eqn:E.
    + destruct env as [|b' env'].
      * eexists _, _, _. split; [reflexivity|discriminate].
      * assert (Hch1 : 0 <= ch < chan_count m1) by (rewrite Hcnt1; exact Hch).
        destruct (run_batch ch b' m1 _ Hinv1 Hb1 Hch1 Hs1)
          as (m2 & t2 & Hrun2 & Hinv2 & Hb2 & Hcnt2 & _ & Hs2).
        rewrite (bind_ok _ _ _ _ _ _ Hrun2).
        rewrite (bind_ok _ _ _ _ _ _ (load_sn_ok ch m2 _ Hs2)).
        assert (Hch2 : 0 <= ch < chan_count m2) by (rewrite Hcnt2; exact Hch1).
        destruct (IH env' m2 _ ltac:(cbn in Hk; lia) Hinv2 Hb2 Hch2 Hs2)
          as (r & m' & tr & Hw & Hr).
        rewrite Hw. eexists _, _, _. split; [reflexivity|].
        intros Htrue. specialize (Hr Htrue).
        rewrite !count_finalized_app.
        pose proof (count_finalized_nonneg ch t2).
        change (count_finalized ch []) with 0. lia.
    + eexists _, _, _. split; [reflexivity|]. intros _.
      rewrite count_finalized_app. change (count_finalized ch []) with 0.
      apply Z.eqb_neq in E.
      destruct (Z.eq_dec (count_finalized ch t1) 0) as [Hz|Hz]; [|lia].
      rewrite Hz, Z.add_0_r, Z.mod_small in E by lia. congruence.
Qed.

End WaitLemmas.

Section WaitProperties.

Context {io : AvrIo}.

(** X13. In a session, [wait_channel] on a configured channel never faults,
    and when it returns the channel has been finalized at least once since
    the call, whatever the interrupts handled between its reads. *)
Theorem X13_wait_channel_returns_after_finalization :
  forall m channel env,
    in_session U16_MAX m ->
    0 <= channel < chan_count m ->
    exists r m' tr,
      wait_channel channel env m = Ok r m' tr /\
      (r = true -> 1 <= count_finalized channel tr).
Proof.
  intros m ch env Hs Hch.
  pose proof (in_session_inv _ m U16_MAX_ok Hs) as Hinv.
  pose proof (in_session_sn_bytes m Hs) as Hb.
  destruct (lookup_lt_is_Some_2 (sn m) (Z.to_nat ch)) as [last Hlast].
  { pose proof (inv_sn _ _ Hinv). lia. }
  destruct (wait_poll_sound ch (length env) env m last (le_n _) Hinv Hb Hch
              Hlast) as (r & m' & tr & Hw & Hr).
  exists r, m', tr. split; [|exact Hr].
  unfold wait_channel.
  rewrite (bind_ok _ _ _ _ _ _ (load_sn_ok ch m last Hlast)), Hw.
  reflexivity.
Qed.

Lemma wait_poll_after_each_test ch bs : forall m last,
  session_inv U16_MAX m ->
  Forall (fun s => 0 <= s < 256) (sn m) ->
  0 <= ch < chan_count m ->
  sn m !! Z.to_nat ch = Some last ->
  exists m' tr,
    run (concat bs) m = Ok tt m' tr /\
    wait_poll ch last (after_each_test bs) m = Ok false m' tr.
Proof.
  induction bs as [|b bs IH]; intros m last Hinv Hb Hch Hlast.
  - exists m, []. split; reflexivity.
  - change (after_each_test (b :: bs)) with ([] :: b :: after_each_test bs).
    rewrite (wait_poll_test ch last [] _ m m [] last eq_refl Hlast).
    rewrite Z.eqb_refl.
    destruct (run_batch ch b m last Hinv Hb Hch Hlast)
      as (m1 & t1 & Hrun & Hinv1 & Hb1 & Hcnt1 & _ & Hs1).
    rewrite (bind_ok _ _ _ _ _ _ Hrun).
    rewrite (bind_ok _ _ _ _ _ _ (load_sn_ok ch m1 _ Hs1)).
    assert (Hch1 : 0 <= ch < chan_count m1) by (rewrite Hcnt1; exact Hch).
    destruct (IH m1 _ Hinv1 Hb1 Hch1 Hs1) as (m' & tr & Hrest & Hw).
    rewrite Hw. exists m', (t1 ++ tr).
    cbn [concat]. rewrite run_app, Hrun, Hrest. split; reflexivity.
Qed.

(** X14. [wait_channel] re-reads the sequence number in the body of its
    loop, so a change that happens between the loop test and that re-read
    is not seen: when every interrupt is handled there, the caller stays in
    the loop however often the channel is finalized meanwhile. *)
Theorem X14_wait_channel_misses_changes_after_test :
  forall m channel bs,
    in_session U16_MAX m ->
    0 <= channel < chan_count m ->
    exists m' tr,
      run (concat bs) m = Ok tt m' tr /\
      wait_channel channel (after_each_test bs) m = Ok false m' tr.
Proof.
  intros m ch bs Hs Hch.
  pose proof (in_session_inv _ m U16_MAX_ok Hs) as Hinv.
  pose proof (in_session_sn_bytes m Hs) as Hb.
  destruct (lookup_lt_is_Some_2 (sn m) (Z.to_nat ch)) as [last Hlast].
  { pose proof (inv_sn _ _ Hinv). lia. }
  destruct (wait_poll_after_each_test ch bs m last Hinv Hb Hch Hlast)
    as (m' & tr & Hrun & Hw).
  exists m', tr. split; [exact Hrun|].
  unfold wait_channel.
  rewrite (bind_ok _ _ _ _ _ _ (load_sn_ok ch m last Hlast)), Hw.
  reflexivity.
Qed.

(** X15. When the interrupts handled before the first test of the loop
    finalize the channel at least once and at most 255 times,
    [wait_channel] returns right after that test, in the state those
    interrupts left. *)
Theorem X15_wait_channel_returns_on_change :
  forall m channel b rest m1 t1,
    in_session U16_MAX m ->
    0 <= channel < chan_count m ->
    run b m = Ok tt m1 t1 ->
    1 <= count_finalized channel t1 <= 255 ->
    wait_channel channel (b :: rest) m = Ok true m1 t1.
Proof.
  intros m ch b rest m1 t1 Hs Hch Hrun Hcount.
  pose proof (in_session_inv _ m U16_MAX_ok Hs) as Hinv.
  pose proof (in_session_sn_bytes m Hs) as Hb.
  destruct (lookup_lt_is_Some_2 (sn m) (Z.to_nat ch)) as [last Hlast].
  { pose proof (inv_sn _ _ Hinv). lia. }
  destruct (run_batch ch b m last Hinv Hb Hch Hlast)
    as (m1' & t1' & Hrun' & _ & _ & _ & Hl & Hs1).
  rewrite Hrun in Hrun'. injection Hrun' as <- <-.
  unfold wait_channel.
  rewrite (bind_ok _ _ _ _ _ _ (load_sn_ok ch m last Hlast)).
  rewrite (wait_poll_test ch last b rest m m1 t1 _ Hrun Hs1).
  assert ((last =? (last + count_finalized ch t1) mod 256) = false) as ->.
  { apply Z.eqb_neq. Z.div_mod_to_equations. lia. }
  rewrite app_nil_r. reflexivity.
Qed.


(** X17. The size [begin] computes for the block in 16-bit arithmetic is
    the exact size of the table and the two result arrays,
    [(sizeof(channel_config_t) + 3) * channel_count], for every 8-bit
    channel count, as long as a descriptor takes at most 254 bytes. *)
Theorem X17_alloc_size_does_not_wrap :
  forall sizeof_config channel_count,
    0 <= sizeof_config <= 254 ->
    0 <= channel_count <= 255 ->
    alloc_size sizeof_config channel_count
    = (sizeof_config + 3) * channel_count.
Proof.
  intros sz n Hsz Hn. unfold alloc_size. cbv zeta.
  rewrite (u16_small (sz * n)) by nia.
  rewrite (u16_small (1 * n)) by lia.
  rewrite (u16_small (2 * n)) by lia.
  rewrite (u16_small (sz * n + 1 * n)) by nia.
  rewrite u16_small by nia. lia.
Qed.


End WaitProperties.

Section OneInvocation.

Context {io : AvrIo}.

Lemma finalize_events_no_ADCSRA m v s :
  Forall (fun e => forall a, e <> EvADCSRA a) (finalize_events m v s).
Proof.
  unfold finalize_events, channel_cb_events, scan_cb_events.
  destruct (channel_cb m), (u8 (chan_i m + 1) =? chan_count m),
    (channel_scan_cb m); repeat constructor; discriminate.
Qed.

(** X19. One invocation of the handler does a bounded amount of work on the
    current channel only: it publishes at most one sample, and that for the
    current channel; it calls each callback at most once; it never writes
    ADCSRA; and the sample and sequence number of every other channel are
    left as they were. *)
Theorem X19_invocation_touches_current_channel_only :
  forall m l h,
    in_session U16_MAX m ->
    exists m' tr,
      ISR l h m = Ok tt m' tr /\
      (length (published tr) <= 1)%nat /\
      Forall (fun i => i = chan_i m) (finalized tr) /\
      (length (channel_calls tr) <= 1)%nat /\
      (length (scan_calls tr) <= 1)%nat /\
      Forall (fun e => forall a, e <> EvADCSRA a) tr /\
      forall j, j <> Z.to_nat (chan_i m) ->
        sn m' !! j = sn m !! j /\ sample m' !! j = sample m !! j.
Proof.
  intros m l h Hs.
  pose proof (in_session_inv _ m U16_MAX_ok Hs) as Hinv.
  assert (Hraw : raw_of l h <= U16_MAX)
    by (pose proof (raw_of_range l h); unfold U16_MAX; lia).
  destruct (ISR_cases _ U16_MAX_ok m l h Hinv Hraw)
    as (c & s & m1 & t1 & _ & _ & Hrun & _ & Hcase).
  exists m1, t1. split; [exact Hrun|].
  destruct Hcase as [(_ & _ & -> & ->) | [(_ & _ & -> & ->)
                    | [(_ & _ & -> & ->) | (_ & _ & Hfin)]]].
  - cbn. repeat split; try lia; repeat constructor; discriminate.
  - cbn. repeat split; try lia; constructor.
  - cbn. repeat split; try lia; constructor.
  - cbv zeta in Hfin. destruct Hfin as [-> ->].
    unfold finalized.
    rewrite published_finalize_events, channel_calls_finalize_events,
      scan_calls_finalize_events.
    split; [cbn; lia|]. split; [repeat constructor|].
    split; [destruct (channel_cb m); cbn; lia|].
    split.
    { destruct (u8 (chan_i m + 1) =? chan_count m); [|cbn; lia].
      destruct (channel_scan_cb m); cbn; lia. }
    split; [apply finalize_events_no_ADCSRA|].
    intros j Hj. cbn.
    rewrite !list_lookup_insert_ne by congruence. split; reflexivity.
Qed.

End OneInvocation.

(** * The further properties on concrete sessions *)

Ltac bits_ok := unfold bit_ok; cbn; lia.

Lemma fresh_depth2_in_session :
  in_session (io := atmega32u4) U16_MAX
    (result_machine (session (io := atmega32u4) depth2_table 1 [] ScanADC)).
Proof.
  apply session_machine_in_session;
    [unfold U16_MAX; lia|table_ok|readings_ok].
Defined.

Lemma depth2_pending_session : in_session (io := atmega32u4) U16_MAX depth2_pending.
Proof.
  apply depth2_pending_in_session; unfold U16_MAX; lia.
Defined.

Lemma X1_witness :
  exists m tr,
    session (io := atmega32u4) two_channel_table 2 (replicate 18 (5, 0))
      ScanADC = Ok tt m tr /\
    get_sn 1 m = Ok (count_finalized 1 tr mod 256) m [].
Proof.
  exact (X1_get_sn_counts_finalizations (io := atmega32u4) ScanADC
           two_channel_table 2 (replicate 18 (5, 0)) 1
           ltac:(table_ok) ltac:(lia)).
Defined.

Lemma X2_witness :
  exists m tr tr',
    session (io := atmega32u4) two_channel_table 2 (replicate 18 (5, 0))
      ScanADC = Ok tt m tr /\
    get_sample (io := atmega32u4) 1 m = Ok (latest_sample 1 tr 0) m tr'.
Proof.
  exact (X2_get_sample_returns_latest (io := atmega32u4) ScanADC
           two_channel_table 2 (replicate 18 (5, 0)) 1
           ltac:(table_ok) ltac:(lia)).
Defined.

Lemma X3_witness :
  exists m tr,
    session (io := atmega32u4) two_channel_table 2 (replicate 18 (5, 0))
      ScanADC = Ok tt m tr /\
    count_finalized 0 tr = 2 /\
    get_sn 0 m = Ok 2 m [].
Proof.
  exact (X3_sequence_numbers_agree_after_scans (io := atmega32u4) ScanADC
           two_channel_table 2 (replicate 18 (5, 0)) 2%nat 0
           ltac:(table_ok) ltac:(lia) ltac:(by_vm)).
Defined.

Lemma X4_witness :
  exists m' tr v,
    run (io := atmega32u4) [(0, 0); (9, 9); (3, 0); (3, 0); (3, 0); (3, 0)]
      (result_machine (session (io := atmega32u4) depth2_table 1 [] ScanADC))
    = Ok tt m' tr /\
    published tr = [(0, v)] /\
    sample m' !! 0%nat = Some v /\
    3 <= v <= 3.
Proof.
  refine (X4_average_within_readings (io := atmega32u4)
            (result_machine
               (session (io := atmega32u4) depth2_table 1 [] ScanADC))
            (mkConfig 7 2) (0, 0) (9, 9) [(3, 0); (3, 0); (3, 0); (3, 0)] 3 3
            fresh_depth2_in_session ltac:(by_vm) ltac:(by_vm) ltac:(by_vm) _).
  repeat (apply Forall_cons_2; [vm_compute; split; discriminate|]).
  apply Forall_nil_2.
Defined.

Lemma X5_witness :
  exists m' tr v,
    run (io := atmega32u4) [(0, 0); (0, 0); (1, 0); (2, 0); (2, 0); (1, 0)]
      (result_machine (session (io := atmega32u4) depth2_table 1 [] ScanADC))
    = Ok tt m' tr /\
    published tr = [(0, v)] /\
    2 ^ 2 * v <= raw_sum [(1, 0); (2, 0); (2, 0); (1, 0)] + 2 ^ 2 / 2
    < 2 ^ 2 * (v + 1).
Proof.
  exact (X5_average_is_nearest (io := atmega32u4)
           (result_machine
              (session (io := atmega32u4) depth2_table 1 [] ScanADC))
           (mkConfig 7 2) (0, 0) (0, 0) [(1, 0); (2, 0); (2, 0); (1, 0)]
           fresh_depth2_in_session ltac:(by_vm) ltac:(by_vm) ltac:(by_vm)).
Defined.

Lemma X6_witness :
  session (io := atmega32u4) two_channel_table 2 (replicate 9 (5, 0)) ScanADC
  = session (io := atmega32u4) two_channel_table 2 (replicate 9 (5, 0))
      depth2_published.
Proof.
  exact (proj1 (X6_begin_restarts_from_scratch (io := atmega32u4) ScanADC
                  depth2_published two_channel_table 2 (5, 0)
                  (replicate 8 (5, 0)) ltac:(table_ok) ltac:(by_vm)
                  ltac:(by_vm))).
Defined.

Lemma X7_witness :
  ADCSRA depth2_pending = ADCSRA_armed (io := atmega32u4) /\
  Z.testbit (ADCSRA depth2_pending) (ADIE (AvrIo := atmega32u4)) = true.
Proof.
  destruct (X7_converter_stays_armed (io := atmega32u4) depth2_pending
              depth2_pending_session ltac:(bits_ok) ltac:(bits_ok)
              ltac:(bits_ok) ltac:(bits_ok) ltac:(bits_ok))
    as (Ha & _ & _ & _ & _ & Hie & _).
  split; [exact Ha|exact Hie].
Defined.

Lemma X8_witness :
  exists m tr,
    session (io := atmega32u4) (two_channel_table ++ depth0_table) 2
      (replicate 9 (5, 0)) ScanADC = Ok tt m tr /\
    config m = Some (take (Z.to_nat 2) (two_channel_table ++ depth0_table)) /\
    chan_count m = 2 /\
    length (sn m) = Z.to_nat 2 /\
    length (sample m) = Z.to_nat 2.
Proof.
  exact (X8_table_is_fixed_copy (io := atmega32u4) ScanADC
           (two_channel_table ++ depth0_table) 2 (replicate 9 (5, 0))
           ltac:(table_ok)).
Defined.

Lemma X9_witness :
  exists c,
    current_config depth2_pending = Some c /\
    Z.land (ADMUX depth2_pending) 31
    + 32 * Z.b2z (Z.testbit (ADCSRB depth2_pending)
                    (MUX5 (AvrIo := atmega32u4)))
    = Z.land (mux c) 63.
Proof.
  refine (X9_multiplexer_selects_current_channel (io := atmega32u4)
            depth2_pending depth2_pending_session ltac:(bits_ok) _).
  intros H. vm_compute in H. discriminate.
Defined.


Lemma X11_witness :
  exists m' tr,
    (attach_channel_callback (io := atmega32u4) None;;
     run (io := atmega32u4) (replicate 9 (5, 0))) last_channel_pending
    = Ok tt m' tr /\
    channel_calls tr = [].
Proof.
  exact (proj1 (X11_attach_takes_effect (io := atmega32u4)
                  last_channel_pending (replicate 9 (5, 0))
                  last_channel_pending_in_session) None).
Defined.

Lemma X12_witness :
  exists m1 tr,
    end_ depth2_pending = Ok tt m1 tr /\
    ADCSRA m1 = 0 /\
    Z.testbit (ADCSRA m1) (ADIE (AvrIo := atmega32u4)) = false /\
    config m1 = None /\
    end_ m1 = Ok tt m1 [EvADCSRA 0] /\
    (forall channel,
       get_sn channel m1 = UB [] /\
       exists tr', get_sample (io := atmega32u4) channel m1 = UB tr').
Proof.
  exact (X12_end_stops_and_releases (io := atmega32u4) depth2_pending
           depth2_pending_session).
Defined.

Lemma X13_witness :
  exists r m' tr,
    wait_channel (io := atmega32u4) 0 [[(2, 0)]; []] depth2_pending
    = Ok r m' tr /\
    (r = true -> 1 <= count_finalized 0 tr).
Proof.
  exact (X13_wait_channel_returns_after_finalization (io := atmega32u4)
           depth2_pending 0 [[(2, 0)]; []] depth2_pending_session
           ltac:(vm_compute; split; [discriminate|reflexivity])).
Defined.

Lemma X14_witness :
  exists m' tr,
    run (io := atmega32u4) (concat [[(2, 0)]]) depth2_pending = Ok tt m' tr /\
    wait_channel (io := atmega32u4) 0 (after_each_test [[(2, 0)]])
      depth2_pending = Ok false m' tr.
Proof.
  exact (X14_wait_channel_misses_changes_after_test (io := atmega32u4)
           depth2_pending 0 [[(2, 0)]] depth2_pending_session
           ltac:(vm_compute; split; [discriminate|reflexivity])).
Defined.

Lemma X15_witness :
  wait_channel (io := atmega32u4) 0 [[(2, 0)]] depth2_pending
  = Ok true depth2_published
      (result_trace (run (io := atmega32u4) [(2, 0)] depth2_pending)).
Proof.
  exact (X15_wait_channel_returns_on_change (io := atmega32u4)
           depth2_pending 0 [(2, 0)] [] depth2_published
           (result_trace (run (io := atmega32u4) [(2, 0)] depth2_pending))
           depth2_pending_session
           ltac:(vm_compute; split; [discriminate|reflexivity])
           ltac:(by_vm)
           ltac:(vm_compute; split; discriminate)).
Defined.


Lemma X17_witness : alloc_size 3 255 = (3 + 3) * 255.
Proof.
  exact (X17_alloc_size_does_not_wrap 3 255 ltac:(lia) ltac:(lia)).
Defined.


Lemma X19_witness :
  exists m' tr,
    ISR (io := atmega32u4) 2 0 depth2_pending = Ok tt m' tr /\
    (length (published tr) <= 1)%nat /\
    Forall (fun i => i = chan_i depth2_pending) (finalized tr) /\
    (length (channel_calls tr) <= 1)%nat /\
    (length (scan_calls tr) <= 1)%nat /\
    Forall (fun e => forall a, e <> EvADCSRA a) tr /\
    forall j, j <> Z.to_nat (chan_i depth2_pending) ->
      sn m' !! j = sn depth2_pending !! j /\
      sample m' !! j = sample depth2_pending !! j.
Proof.
  exact (X19_invocation_touches_current_channel_only (io := atmega32u4)
           depth2_pending 2 0 depth2_pending_session).
Defined.
